(** * camera.py: the photo booth controller, embedded and verified

    The program is a single Python script driving a camera, two GPIO
    buttons and a serial line.  Its functions are embedded here as
    computations of a small state/exception/trace monad: the state is the
    part of the outside world the script reads back (live overlays, the
    directories on disk, the serial input buffer), exceptions are Python's,
    and the trace is the ordered log of every call the script makes on its
    collaborators (camera, GPIO, serial port, file system, console, sleep).

    The environment can interfere in the two places the script provides
    for: a signal or an exception may arrive during the wait for the photo
    button, and creating the session directory may fail.  Everything else is
    taken to go well: the image files the script opens are readable,
    [camera.capture] and the camera's overlay calls succeed, no signal
    arrives during a [sleep] or during the wait for the exit button, and of
    the directories [os.makedirs] creates only the one it is asked for is
    tracked.  What is proved of a step that completes is therefore stated
    with its completion as a hypothesis. *)

From Stdlib Require Import ZArith QArith Lia List.
From stdpp Require Import base decidable list strings pretty gmap.
From Stdlib Require Import String Ascii.

Import ListNotations.
#[local] Open Scope string_scope.
#[local] Open Scope list_scope.
#[local] Open Scope nat_scope.

(** ** Python values the script handles *)

(** Exceptions that reach the top-level [try] of the script. *)
Inductive exn :=
| KeyboardInterrupt
| SystemExit
| OSError (errno : Z)
| AttributeError
| RuntimeError.

(** [isinstance(e, Exception)]: [KeyboardInterrupt] and [SystemExit] derive
    from [BaseException] only. *)
Definition is_Exception (e : exn) : bool :=
  match e with
  | KeyboardInterrupt | SystemExit => false
  | OSError _ | AttributeError | RuntimeError => true
  end.

(** [errno.EEXIST] *)
Definition EEXIST : Z := 17.
(** [errno.EACCES], used in examples *)
Definition EACCES : Z := 13.

(** What [overlay_image] returns: the integer [-1] or a renderer object,
    identified here by the order in which the camera created it. *)
Inductive handle :=
| NoOverlay            (* -1 *)
| Renderer (id : nat).

(** Python truth value of a handle, as tested by [if prev_overlay:].
    [-1] is a non-zero integer, and a renderer object defines neither
    [__bool__] nor [__len__], so both are true. *)
Definition truthy (h : handle) : bool :=
  match h with
  | NoOverlay => true
  | Renderer _ => true
  end.

(** [overlay_id != -1] *)
Definition is_not_minus_one (h : handle) : bool :=
  match h with
  | NoOverlay => false
  | Renderer _ => true
  end.

(** The value held by [is_pressed]: a channel number returned by
    [GPIO.wait_for_edge], or [True]; [None] is [Datatypes.None]. *)
Inductive pressed :=
| Channel (pin : Z)
| PyTrue.

(** ** Calls on the collaborators, in the order the script makes them *)

Inductive event :=
| EPrint (s : string)
| EPrintError (e : exn)          (* print("unexpected error: ", str(exception)) *)
| ESleep (seconds : Q)
| EMakedirs (path : string)
| EAnnotateSize (size : Z)
| EAnnotateText (s : string)
| ECapture (path : string)
| EAddOverlay (id : nat) (image : string)
| ESetLayer (id : nat) (layer : Z)
| ESetAlpha (id : nat) (alpha : Z)
| ERemoveOverlay (id : nat)
| EStartPreview (w h : Z)
| EStopPreview
| ECameraClose
| EGpioCleanup
| EWaitForEdge (pin : Z) (timeout : Z)
| ESerialReset.

(** ** The outside world *)

Record overlay := {
  o_id : nat;
  o_image : string;
  o_layer : Z;
  o_alpha : Z
}.

Record World := {
  overlays : list overlay;        (* camera.overlays *)
  next_overlay : nat;             (* identity of the next renderer object *)
  annotate_text : string;
  annotate_text_size : Z;
  dirs : gset string;             (* directories that exist *)
  mk_fault : string -> option Z;  (* errno with which creating a missing
                                     directory fails, if it does *)
  in_waiting : nat                (* ser.in_waiting *)
}.

Definition set_overlays (f : list overlay -> list overlay) (w : World) : World :=
  {| overlays := f (overlays w); next_overlay := next_overlay w;
     annotate_text := annotate_text w; annotate_text_size := annotate_text_size w;
     dirs := dirs w; mk_fault := mk_fault w; in_waiting := in_waiting w |}.

Definition set_next_overlay (n : nat) (w : World) : World :=
  {| overlays := overlays w; next_overlay := n;
     annotate_text := annotate_text w; annotate_text_size := annotate_text_size w;
     dirs := dirs w; mk_fault := mk_fault w; in_waiting := in_waiting w |}.

Definition set_annotate_text (s : string) (w : World) : World :=
  {| overlays := overlays w; next_overlay := next_overlay w;
     annotate_text := s; annotate_text_size := annotate_text_size w;
     dirs := dirs w; mk_fault := mk_fault w; in_waiting := in_waiting w |}.

Definition set_annotate_text_size (z : Z) (w : World) : World :=
  {| overlays := overlays w; next_overlay := next_overlay w;
     annotate_text := annotate_text w; annotate_text_size := z;
     dirs := dirs w; mk_fault := mk_fault w; in_waiting := in_waiting w |}.

Definition set_dirs (d : gset string) (w : World) : World :=
  {| overlays := overlays w; next_overlay := next_overlay w;
     annotate_text := annotate_text w; annotate_text_size := annotate_text_size w;
     dirs := d; mk_fault := mk_fault w; in_waiting := in_waiting w |}.

Definition set_in_waiting (n : nat) (w : World) : World :=
  {| overlays := overlays w; next_overlay := next_overlay w;
     annotate_text := annotate_text w; annotate_text_size := annotate_text_size w;
     dirs := dirs w; mk_fault := mk_fault w; in_waiting := n |}.

(** ** The monad: state, Python exceptions and the call log *)

Inductive result (A : Type) :=
| Ok (a : A)
| Raise (e : exn).
Arguments Ok {A} a.
Arguments Raise {A} e.

Record Out (A : Type) := mkOut {
  res : result A;
  st : World;
  out : list event
}.
Arguments mkOut {A} res st out.
Arguments res {A} o.
Arguments st {A} o.
Arguments out {A} o.

Definition M (A : Type) : Type := World -> Out A.

Definition ret {A} (a : A) : M A := fun w => mkOut (Ok a) w [].

Definition bind {A B} (m : M A) (f : A -> M B) : M B := fun w =>
  match m w with
  | mkOut (Ok a) w1 t1 =>
      match f a w1 with
      | mkOut r w2 t2 => mkOut r w2 (t1 ++ t2)
      end
  | mkOut (Raise e) w1 t1 => mkOut (Raise e) w1 t1
  end.

Definition raise {A} (e : exn) : M A := fun w => mkOut (Raise e) w [].

(** [try: m  except <any> as e: handler e] *)
Definition try_except {A} (m : M A) (handler : exn -> M A) : M A := fun w =>
  match m w with
  | mkOut (Ok a) w1 t1 => mkOut (Ok a) w1 t1
  | mkOut (Raise e) w1 t1 =>
      match handler e w1 with
      | mkOut r w2 t2 => mkOut r w2 (t1 ++ t2)
      end
  end.

Definition emit (e : event) : M unit := fun w => mkOut (Ok tt) w [e].
Definition get {A} (f : World -> A) : M A := fun w => mkOut (Ok (f w)) w [].
Definition modify (f : World -> World) : M unit := fun w => mkOut (Ok tt) (f w) [].

Declare Scope py_scope.
Delimit Scope py_scope with py.
Notation "x <- m ;; k" := (bind m (fun x => k))
  (at level 100, m at next level, right associativity) : py_scope.
Notation "m ;; k" := (bind m (fun _ => k))
  (at level 100, right associativity) : py_scope.
#[local] Open Scope py_scope.

(** [for x in l: body x] *)
Fixpoint for_each {A} (l : list A) (body : A -> M unit) : M unit :=
  match l with
  | [] => ret tt
  | x :: l' => body x ;; for_each l' body
  end.

(** ** Configuration (lines 20-37 and 60) *)

Record Config := {
  TESTMODE_AUTOPRESS_BUTTON : bool;
  TESTMODE_FAST : bool;
  configured_total_pics : nat;    (* total_pics = 4 *)
  configured_prep_delay : Z;      (* prep_delay = 10 *)
  REAL_PATH : string
}.

(** [if TESTMODE_FAST: total_pics = 1; prep_delay = 1] *)
Definition total_pics (cfg : Config) : nat :=
  if TESTMODE_FAST cfg then 1 else configured_total_pics cfg.

Definition prep_delay (cfg : Config) : Z :=
  if TESTMODE_FAST cfg then 1%Z else configured_prep_delay cfg.

Definition pin_camera_btn : Z := 21.
Definition pin_exit_btn : Z := 13.
Definition screen_w : Z := 800.
Definition screen_h : Z := 480.

(** The script as shipped. *)
Definition shipped (real_path : string) : Config :=
  {| TESTMODE_AUTOPRESS_BUTTON := false; TESTMODE_FAST := false;
     configured_total_pics := 4; configured_prep_delay := 10;
     REAL_PATH := real_path |}.

(** ** Strings and timestamps *)

Module Naming.

(** [str.replace(old, new)] for one-character [old] and [new]. *)
Fixpoint replace (old new : ascii) (s : string) : string :=
  match s with
  | EmptyString => EmptyString
  | String c s' =>
      String (if Ascii.eqb c old then new else c) (replace old new s')
  end.

(** [s.split('.')[0]]: everything before the first dot. *)
Fixpoint before_dot (s : string) : string :=
  match s with
  | EmptyString => EmptyString
  | String c s' => if Ascii.eqb c "." then EmptyString else String c (before_dot s')
  end.

(** [c in s] for a character. *)
Fixpoint occurs (c : ascii) (s : string) : bool :=
  match s with
  | EmptyString => false
  | String c' s' => Ascii.eqb c' c || occurs c s'
  end.

(** Last decimal digit of [n]. *)
Definition digit (n : Z) : ascii :=
  match (n mod 10)%Z with
  | 0 => "0" | 1 => "1" | 2 => "2" | 3 => "3" | 4 => "4"
  | 5 => "5" | 6 => "6" | 7 => "7" | 8 => "8" | _ => "9"
  end%Z%char.

(** ["%02d"], ["%04d"] and ["%06d"] *)
Definition pad2 (n : Z) : string :=
  String (digit (n / 10)) (String (digit n) EmptyString).
Definition pad4 (n : Z) : string :=
  String (digit (n / 1000)) (String (digit (n / 100)) (pad2 n)).
Definition pad6 (n : Z) : string :=
  String (digit (n / 100000)) (String (digit (n / 10000)) (pad4 n)).

(** A naive [datetime.datetime] value, as [datetime.datetime.now()] returns. *)
Record datetime := {
  year : Z; month : Z; day : Z;
  hour : Z; minute : Z; second : Z;
  microsecond : Z
}.

(** The ranges the [datetime] type enforces. *)
Definition valid (d : datetime) : Prop :=
  (1 <= year d <= 9999 /\ 1 <= month d <= 12 /\ 1 <= day d <= 31 /\
   0 <= hour d < 24 /\ 0 <= minute d < 60 /\ 0 <= second d < 60 /\
   0 <= microsecond d < 1000000)%Z.

(** The start time at second resolution. *)
Definition to_second (d : datetime) : Z * Z * Z * Z * Z * Z :=
  (year d, month d, day d, hour d, minute d, second d).

(** The part of [str(d)] every datetime has: [YYYY-MM-DD HH:MM:SS]. *)
Definition str_seconds (d : datetime) : string :=
  pad4 (year d) +:+ "-" +:+ pad2 (month d) +:+ "-" +:+ pad2 (day d) +:+ " " +:+
  pad2 (hour d) +:+ ":" +:+ pad2 (minute d) +:+ ":" +:+ pad2 (second d).

(** [str(d)]: [isoformat(sep=' ')]; the fraction is printed only when the
    microsecond field is not zero. *)
Definition str_datetime (d : datetime) : string :=
  str_seconds d +:+
  (if Z.eqb (microsecond d) 0 then "" else "." +:+ pad6 (microsecond d)).

(** Lines 84-87, with [datetime.datetime.now()] passed in as [now]. *)
Definition get_base_filename_for_images (real_path : string) (now : datetime) : string :=
  let base_filename := real_path +:+ "/photos/" +:+ before_dot (str_datetime now) in
  let base_filename := replace " " "_" base_filename in
  let base_filename := replace ":" "-" base_filename in
  base_filename.

End Naming.

(** ** The collaborators' operations *)

Definition print (s : string) : M unit := emit (EPrint s).

(** [sleep(seconds)], taken to run to its end. *)
Definition sleep (seconds : Q) : M unit := emit (ESleep seconds).

(** [camera.add_overlay(data, size=...)]: a new renderer, on layer 0 and
    opaque until the caller changes it. *)
Definition camera_add_overlay (image : string) : M nat :=
  id <- get next_overlay ;;
  modify (fun w => set_next_overlay (S id)
            (set_overlays (fun l => l ++ [{| o_id := id; o_image := image;
                                             o_layer := 0; o_alpha := 255 |}]) w)) ;;
  emit (EAddOverlay id image) ;;
  ret id.

Definition update_overlay (id : nat) (f : overlay -> overlay) (l : list overlay) : list overlay :=
  map (fun o => if Nat.eqb (o_id o) id then f o else o) l.

(** [o.layer = layer] *)
Definition set_layer (id : nat) (layer : Z) : M unit :=
  modify (set_overlays (update_overlay id (fun o =>
    {| o_id := o_id o; o_image := o_image o; o_layer := layer; o_alpha := o_alpha o |}))) ;;
  emit (ESetLayer id layer).

(** [o.alpha = alpha]; the integer [-1] has no such attribute. *)
Definition set_alpha (h : handle) (alpha : Z) : M unit :=
  match h with
  | NoOverlay => raise AttributeError
  | Renderer id =>
      modify (set_overlays (update_overlay id (fun o =>
        {| o_id := o_id o; o_image := o_image o; o_layer := o_layer o; o_alpha := alpha |}))) ;;
      emit (ESetAlpha id alpha)
  end.

(** [camera.remove_overlay(o)] *)
Definition camera_remove_overlay (id : nat) : M unit :=
  modify (set_overlays (filter (fun o => o_id o ≠ id))) ;;
  emit (ERemoveOverlay id).

(** [os.makedirs(path)]: raises [OSError(EEXIST)] when the directory is
    there, and whatever the file system answers when it cannot create it.
    Only [path] itself is tracked, not the parents created on the way. *)
Definition os_makedirs (path : string) : M unit :=
  emit (EMakedirs path) ;;
  w <- get id ;;
  if bool_decide (path ∈ dirs w) then raise (OSError EEXIST)
  else match mk_fault w path with
       | Some errno => raise (OSError errno)
       | None => modify (set_dirs ({[ path ]} ∪ dirs w))
       end.

(** [camera.capture(path)], taken to succeed. *)
Definition camera_capture (path : string) : M unit := emit (ECapture path).

(** [GPIO.wait_for_edge(pin, GPIO.FALLING, timeout=...)]: what it returns
    (and whether a signal interrupts it) is the environment's choice. *)
Definition GPIO_wait_for_edge (pin timeout : Z) (interrupted : option exn)
    (edge : option Z) : M (option Z) :=
  emit (EWaitForEdge pin timeout) ;;
  match interrupted with
  | Some e => raise e
  | None => ret edge
  end.

Definition ser_reset_input_buffer : M unit :=
  modify (set_in_waiting 0) ;; emit ESerialReset.

(** Bytes arriving on the serial line; an act of the environment. *)
Definition serial_receive (n : nat) : M unit :=
  modify (fun w => set_in_waiting (in_waiting w + n) w).

(** ** Helper functions (lines 65-139) *)

Definition print_overlay (string_to_print : string) (size : Z) : M unit :=
  print string_to_print ;;
  modify (set_annotate_text_size size) ;; emit (EAnnotateSize size) ;;
  modify (set_annotate_text string_to_print) ;; emit (EAnnotateText string_to_print).

Definition remove_overlay (overlay_id : handle) : M unit :=
  match overlay_id with
  | Renderer id => camera_remove_overlay id
  | NoOverlay => ret tt
  end.

(** [duration > 0] *)
Definition positive_duration (duration : Q) : bool := negb (Qle_bool duration 0).

(** [False] passed where a number of seconds is expected compares as 0. *)
Definition py_False : Q := 0.

(** Lines 97-139.  The image file is taken to be readable: decoding and
    padding it only prepares the bytes given to the camera, and the overlay
    is identified by its path. *)
Definition overlay_image (image_path : string) (duration : Q) (layer : Z) : M handle :=
  o_id <- camera_add_overlay image_path ;;
  set_layer o_id layer ;;
  if positive_duration duration
  then (sleep duration ;; camera_remove_overlay o_id ;; ret NoOverlay)
  else ret (Renderer o_id).

(** ** Screens (lines 145-211) *)

Definition prep_for_photo_screen (cfg : Config) (photo_number : nat) : M unit :=
  let get_ready_image := REAL_PATH cfg +:+ "/assets/get_ready.png" in
  overlay_image get_ready_image (inject_Z (prep_delay cfg)) 3 ;; ret tt.

(** [str(photo_number) + 'of' + str(total_pics) + '.jpg'] *)
Definition photo_name (cfg : Config) (photo_number : nat) : string :=
  pretty photo_number +:+ "of" +:+ pretty (total_pics cfg) +:+ ".jpg".

Definition photo_path (cfg : Config) (filename_prefix : string) (photo_number : nat) : string :=
  filename_prefix +:+ "/" +:+ photo_name cfg photo_number.

(** Lines 163-168: create the directory, tolerating that it is there. *)
Definition ensure_dir (dirname : string) : M unit :=
  try_except (os_makedirs dirname)
    (fun e => match e with
              | OSError errno => if Z.eqb errno EEXIST then ret tt else raise e
              | _ => raise e
              end).

(** [range(3, 0, -1)] *)
Definition countdown : list nat := [3; 2; 1].

Definition taking_photo (cfg : Config) (photo_number : nat) (filename_prefix : string) : M unit :=
  let dirname := filename_prefix in
  let filename := photo_path cfg filename_prefix photo_number in
  ensure_dir dirname ;;
  for_each countdown (fun counter =>
    print_overlay (pretty counter) 160 ;; sleep 1) ;;
  modify (set_annotate_text "") ;; emit (EAnnotateText "") ;;
  camera_capture filename ;;
  overlay_image (REAL_PATH cfg +:+ "/assets/white.png") (1 # 10) 3 ;;
  print ("Photo (" +:+ pretty photo_number +:+ ") saved: " +:+ filename).

(** The body of the playback loop, threading [prev_overlay]. *)
Fixpoint playback_loop (cfg : Config) (filename_prefix : string)
    (photo_numbers : list nat) (prev_overlay : handle) : M handle :=
  match photo_numbers with
  | [] => ret prev_overlay
  | photo_number :: rest =>
      let filename := photo_path cfg filename_prefix photo_number in
      this_overlay <- overlay_image filename py_False (3 + Z.of_nat (total_pics cfg)) ;;
      (if truthy prev_overlay then remove_overlay prev_overlay else ret tt) ;;
      sleep 1 ;;
      playback_loop cfg filename_prefix rest this_overlay
  end.

Definition playback_screen (cfg : Config) (filename_prefix : string) : M unit :=
  print "Processing..." ;;
  let processing_image := REAL_PATH cfg +:+ "/assets/processing.png" in
  prev_overlay <- overlay_image processing_image 0 3 ;;
  prev_overlay <- playback_loop cfg filename_prefix (seq 1 (total_pics cfg)) prev_overlay ;;
  remove_overlay prev_overlay ;;
  print "All done!" ;;
  let finished_image := REAL_PATH cfg +:+ "/assets/all_done.png" in
  overlay_image finished_image 20 3 ;; ret tt.

(** ** The main loop (lines 214-287) *)

(** The locals of [main] that survive from one turn of [while True] to the
    next. *)
Record idle := {
  i : nat;
  overlay_1 : handle;
  overlay_2 : handle
}.

(** What the environment decides during one turn of the loop. *)
Record poll := {
  interrupted : option exn;   (* an exception delivered during the first wait *)
  camera_edge : option Z;     (* GPIO.wait_for_edge(pin_camera_btn, ...) *)
  exit_edge : option Z;       (* GPIO.wait_for_edge(pin_exit_btn, ...) *)
  serial_bytes : nat;         (* bytes received before ser.in_waiting is read *)
  now : Naming.datetime;      (* datetime.datetime.now(), read if a session starts *)
  session_bytes : nat         (* bytes received while the session runs *)
}.

(** How one turn of the loop ends. *)
Inductive control :=
| Continue (s : idle)
| Return
| Break.

Definition blink_speed : nat := 2.

(** Lines 253-264: the branch taken when [is_pressed is None]. *)
Definition blink (s : idle) : M control :=
  let i' := i s + 1 in
  if Nat.eqb i' blink_speed then
    (set_alpha (overlay_2 s) 255 ;;
     ret (Continue {| i := i'; overlay_1 := overlay_1 s; overlay_2 := overlay_2 s |}))
  else if Nat.eqb i' (2 * blink_speed) then
    (set_alpha (overlay_2 s) 0 ;;
     ret (Continue {| i := 0; overlay_1 := overlay_1 s; overlay_2 := overlay_2 s |}))
  else
    ret (Continue {| i := i'; overlay_1 := overlay_1 s; overlay_2 := overlay_2 s |}).

Definition intro_image_1 (cfg : Config) : string := REAL_PATH cfg +:+ "/assets/intro_1.png".
Definition intro_image_2 (cfg : Config) : string := REAL_PATH cfg +:+ "/assets/intro_2.png".

(** Lines 273-274: [for photo_number in range(1, total_pics + 1)]. *)
Definition capture_photos (cfg : Config) (filename_prefix : string) : M unit :=
  for_each (seq 1 (total_pics cfg)) (fun photo_number =>
    taking_photo cfg photo_number filename_prefix).

(** Lines 266-287: one photo session, in its three phases. *)

(** Lines 268-272: leave the intro screen and ask the users to get ready. *)
Definition begin_session (cfg : Config) (s : idle) : M unit :=
  print "Button pressed! You folks are in for a treat!" ;;
  remove_overlay (overlay_2 s) ;;
  remove_overlay (overlay_1 s) ;;
  prep_for_photo_screen cfg 1.

(** Lines 276-287: play the photos back, then stop or show the intro
    screen again. *)
Definition end_session (cfg : Config) (s : idle) (p : poll) (filename_prefix : string)
    : M control :=
  playback_screen cfg filename_prefix ;;
  serial_receive (session_bytes p) ;;
  if TESTMODE_AUTOPRESS_BUTTON cfg then ret Break
  else
    (overlay_1' <- overlay_image (intro_image_1 cfg) 0 3 ;;
     overlay_2' <- overlay_image (intro_image_2 cfg) 0 4 ;;
     print "Press the button to take a photo" ;;
     ser_reset_input_buffer ;;
     ret (Continue {| i := i s; overlay_1 := overlay_1'; overlay_2 := overlay_2' |})).

Definition session (cfg : Config) (s : idle) (p : poll) : M control :=
  let filename_prefix := Naming.get_base_filename_for_images (REAL_PATH cfg) (now p) in
  begin_session cfg s ;;
  capture_photos cfg filename_prefix ;;
  end_session cfg s p filename_prefix.

(** Lines 237-250: the values of [exit_button] and [is_pressed] once the
    sources have been looked at. *)
Definition read_inputs (cfg : Config) (p : poll) : M (option Z * option pressed) :=
  is_pressed <- GPIO_wait_for_edge pin_camera_btn 400 (interrupted p) (camera_edge p) ;;
  exit_button <- GPIO_wait_for_edge pin_exit_btn 100 None (exit_edge p) ;;
  match exit_button with
  | Some _ => ret (exit_button, option_map Channel is_pressed)
  | None =>
      serial_receive (serial_bytes p) ;;
      n <- get in_waiting ;;
      is_pressed <-
        (if Nat.ltb 0 n
         then (print "External button pressed" ;; ser_reset_input_buffer ;; ret (Some PyTrue))
         else ret (option_map Channel is_pressed)) ;;
      let is_pressed :=
        if TESTMODE_AUTOPRESS_BUTTON cfg then Some PyTrue else is_pressed in
      ret (None, is_pressed)
  end.

(** One turn of [while True]. *)
Definition cycle (cfg : Config) (s : idle) (p : poll) : M control :=
  inputs <- read_inputs cfg p ;;
  match inputs with
  | (Some _, _) => ret Return
  | (None, None) => blink s
  | (None, Some _) => session cfg s p
  end.

(** The trigger event of the specification's input multiplexer, read off
    one turn of the loop. *)
Inductive trigger :=
| TExit
| TCapture
| TNone.

Definition trigger_of (inputs : option Z * option pressed) : trigger :=
  match inputs with
  | (Some _, _) => TExit
  | (None, Some _) => TCapture
  | (None, None) => TNone
  end.

(** How far [main] got on the inputs it was given. *)
Inductive main_status :=
| Polling (s : idle)      (* still in the loop, waiting for more input *)
| Returned.

Fixpoint main_loop (cfg : Config) (polls : list poll) (s : idle) : M main_status :=
  match polls with
  | [] => ret (Polling s)
  | p :: rest =>
      c <- cycle cfg s p ;;
      match c with
      | Continue s' => main_loop cfg rest s'
      | Return | Break => ret Returned
      end
  end.

Definition main (cfg : Config) (polls : list poll) : M main_status :=
  print "Welcome to the photo booth!" ;;
  print "Press the button to take a photo" ;;
  emit (EStartPreview screen_w screen_h) ;;
  overlay_1' <- overlay_image (intro_image_1 cfg) 0 3 ;;
  overlay_2' <- overlay_image (intro_image_2 cfg) 0 4 ;;
  main_loop cfg polls {| i := 0; overlay_1 := overlay_1'; overlay_2 := overlay_2' |}.

(** ** The script's top level (lines 289-302) *)

Inductive process :=
| Running (s : idle)              (* inputs exhausted, the loop goes on *)
| Exited (uncaught : option exn). (* the process is over *)

(** The [finally] clause. *)
Definition teardown : M unit :=
  emit EStopPreview ;; emit ECameraClose ;; emit EGpioCleanup.

Definition program (cfg : Config) (polls : list poll) : M process := fun w =>
  let o := main cfg polls w in
  match res o with
  | Ok (Polling s) => mkOut (Ok (Running s)) (st o) (out o)
  | Ok Returned =>
      let o' := teardown (st o) in
      mkOut (Ok (Exited None)) (st o') (out o ++ out o')
  | Raise e =>
      let handler :=
        match e with
        | KeyboardInterrupt => print "goodbye"
        | _ => if is_Exception e then emit (EPrintError e) else ret tt
        end in
      let o' := (handler ;; teardown) (st o) in
      mkOut (Ok (Exited (if is_Exception e then None
                         else match e with KeyboardInterrupt => None | _ => Some e end)))
            (st o') (out o ++ out o')
  end.

(** ** Concrete worlds and inputs used in the examples *)

(** The world when [main] starts: nothing on screen, text size 80 (line 50),
    an empty disk on which every directory can be created. *)
Definition fresh_world : World :=
  {| overlays := []; next_overlay := 0; annotate_text := "";
     annotate_text_size := 80; dirs := ∅; mk_fault := fun _ => None;
     in_waiting := 0 |}.

(** A disk on which no directory can be created. *)
Definition read_only_world : World :=
  {| overlays := []; next_overlay := 0; annotate_text := "";
     annotate_text_size := 80; dirs := ∅; mk_fault := fun _ => Some EACCES;
     in_waiting := 0 |}.

Definition new_year : Naming.datetime :=
  {| Naming.year := 2017; Naming.month := 12; Naming.day := 31;
     Naming.hour := 23; Naming.minute := 59; Naming.second := 59;
     Naming.microsecond := 0 |}.

(** A turn in which nothing happens. *)
Definition quiet_poll : poll :=
  {| interrupted := None; camera_edge := None; exit_edge := None;
     serial_bytes := 0; now := new_year; session_bytes := 0 |}.

(** The photo button is pressed. *)
Definition press_poll : poll :=
  {| interrupted := None; camera_edge := Some pin_camera_btn; exit_edge := None;
     serial_bytes := 0; now := new_year; session_bytes := 0 |}.

(** The exit button is pressed. *)
Definition exit_poll : poll :=
  {| interrupted := None; camera_edge := None; exit_edge := Some pin_exit_btn;
     serial_bytes := 0; now := new_year; session_bytes := 0 |}.

(** Both buttons are pressed and bytes are waiting on the serial line. *)
Definition both_poll : poll :=
  {| interrupted := None; camera_edge := Some pin_camera_btn;
     exit_edge := Some pin_exit_btn;
     serial_bytes := 3; now := new_year; session_bytes := 0 |}.

(** Ctrl-C while waiting for the button. *)
Definition ctrl_c_poll : poll :=
  {| interrupted := Some KeyboardInterrupt; camera_edge := None; exit_edge := None;
     serial_bytes := 0; now := new_year; session_bytes := 0 |}.

(** ** Properties of traces *)

Definition emits_only {A} (p : event -> bool) (m : M A) : Prop :=
  forall w, forallb p (out (m w)) = true.

(** The file an event writes, if it writes one. *)
Definition writes (e : event) : option string :=
  match e with
  | ECapture path => Some path
  | _ => None
  end.

Definition files_written (t : list event) : list string := omap writes t.

(** Events that release the camera or the GPIO lines. *)
Definition is_release (e : event) : bool :=
  match e with
  | EStopPreview | ECameraClose | EGpioCleanup => true
  | _ => false
  end.

(** Neither a file write nor a release. *)
Definition harmless (e : event) : bool :=
  match e with
  | ECapture _ | EStopPreview | ECameraClose | EGpioCleanup => false
  | _ => true
  end.

Definition no_release (e : event) : bool := negb (is_release e).

(** A computation that leaves an observation [f] of the world as it was. *)
Definition preserves {A X} (f : World -> X) (m : M A) : Prop :=
  forall w, f (st (m w)) = f w.

(** The disk as [os.makedirs] sees it. *)
Definition disk (w : World) : gset string * (string -> option Z) :=
  (dirs w, mk_fault w).

(** The calls of one capture iteration that completes, in order;
    [flash_id] identifies the renderer of the white flash. *)
Definition photo_steps (cfg : Config) (filename_prefix : string)
    (flash_id photo_number : nat) : list event :=
  [ EMakedirs filename_prefix;
    EPrint "3"; EAnnotateSize 160; EAnnotateText "3"; ESleep 1;
    EPrint "2"; EAnnotateSize 160; EAnnotateText "2"; ESleep 1;
    EPrint "1"; EAnnotateSize 160; EAnnotateText "1"; ESleep 1;
    EAnnotateText "";
    ECapture (filename_prefix +:+ "/" +:+ pretty photo_number +:+ "of" +:+
              pretty (total_pics cfg) +:+ ".jpg");
    EAddOverlay flash_id (REAL_PATH cfg +:+ "/assets/white.png");
    ESetLayer flash_id 3; ESleep (1 # 10); ERemoveOverlay flash_id;
    EPrint ("Photo (" +:+ pretty photo_number +:+ ") saved: " +:+
            filename_prefix +:+ "/" +:+ pretty photo_number +:+ "of" +:+
            pretty (total_pics cfg) +:+ ".jpg") ].

(** The same for iterations [first], [first + 1], ... [first + count - 1],
    the first of which gets renderer [flash_id]. *)
Fixpoint capture_steps (cfg : Config) (filename_prefix : string)
    (flash_id first count : nat) : list event :=
  match count with
  | 0 => []
  | S count' =>
      photo_steps cfg filename_prefix flash_id first ++
      capture_steps cfg filename_prefix (S flash_id) (S first) count'
  end.

(** A computation that, whenever it completes, has written exactly the
    files [l], in that order. *)
Definition writes_when_done {A} (m : M A) (l : list string) : Prop :=
  forall w a, res (m w) = Ok a -> files_written (out (m w)) = l.

(** A computation that never raises. *)
Definition total {A} (m : M A) : Prop :=
  forall w, exists a, res (m w) = Ok a.

(** The computation came to its end without raising. *)
Definition completed {A} (o : Out A) : bool :=
  match res o with
  | Ok _ => true
  | Raise _ => false
  end.

(** ** The playback screen, call by call *)

(** The slideshow of photos [first], [first + 1], ... ([count] of them):
    [prev] is the renderer on screen when it starts, and the photos get the
    renderers that follow it. *)
Fixpoint slideshow_steps (cfg : Config) (filename_prefix : string)
    (prev first count : nat) : list event :=
  match count with
  | 0 => []
  | S count' =>
      [ EAddOverlay (S prev) (photo_path cfg filename_prefix first);
        ESetLayer (S prev) (3 + Z.of_nat (total_pics cfg));
        ERemoveOverlay prev;
        ESleep 1 ] ++
      slideshow_steps cfg filename_prefix (S prev) (S first) count'
  end.

(** What comes before the slideshow: the processing overlay, renderer [n0]. *)
Definition playback_opening (cfg : Config) (n0 : nat) : list event :=
  [ EPrint "Processing...";
    EAddOverlay n0 (REAL_PATH cfg +:+ "/assets/processing.png");
    ESetLayer n0 3 ].

(** What comes after it: [last] is the renderer of the last photo. *)
Definition playback_closing (cfg : Config) (last : nat) : list event :=
  [ ERemoveOverlay last;
    EPrint "All done!";
    EAddOverlay (S last) (REAL_PATH cfg +:+ "/assets/all_done.png");
    ESetLayer (S last) 3;
    ESleep 20;
    ERemoveOverlay (S last) ].

(** The renderers on screen after one call, given those before it. *)
Definition replay (live : list nat) (e : event) : list nat :=
  match e with
  | EAddOverlay id _ => live ++ [id]
  | ERemoveOverlay id => List.filter (fun x => negb (Nat.eqb x id)) live
  | _ => live
  end.

(** Starting with the renderers [live] on screen, the screen holds at least
    one renderer after every call of [t]. *)
Fixpoint never_blank (live : list nat) (t : list event) : bool :=
  match t with
  | [] => true
  | e :: t' =>
      match replay live e with
      | [] => false
      | live' => never_blank live' t'
      end
  end.

(** ** The idle loop *)

(** A turn in which no source fires: no signal, no edge on either button,
    no byte on the serial line. *)
Definition silent (p : poll) : Prop :=
  interrupted p = None /\ camera_edge p = None /\ exit_edge p = None /\
  serial_bytes p = 0.

(** The two waits every turn of the loop starts with. *)
Definition waits : list event :=
  [EWaitForEdge pin_camera_btn 400; EWaitForEdge pin_exit_btn 100].

(** The transparency of the overlay drawn by renderer [id], if it is on
    screen. *)
Fixpoint alpha_in (id : nat) (l : list overlay) : option Z :=
  match l with
  | [] => None
  | o :: l' => if Nat.eqb (o_id o) id then Some (o_alpha o) else alpha_in id l'
  end.

Definition alpha_of (id : nat) (w : World) : option Z := alpha_in id (overlays w).

Definition is_set_alpha (e : event) : bool :=
  match e with
  | ESetAlpha _ _ => true
  | _ => false
  end.

Definition no_set_alpha (e : event) : bool := negb (is_set_alpha e).

(** The world once [o.alpha = alpha] has been done on renderer [id]. *)
Definition with_alpha (id : nat) (alpha : Z) (w : World) : World :=
  set_overlays (update_overlay id (fun o =>
    {| o_id := o_id o; o_image := o_image o; o_layer := o_layer o; o_alpha := alpha |})) w.

(** The photo button is pressed, and five bytes reach the serial line
    while the session runs. *)
Definition noisy_press_poll : poll :=
  {| interrupted := None; camera_edge := Some pin_camera_btn; exit_edge := None;
     serial_bytes := 0; now := new_year; session_bytes := 5 |}.

(** The calls [main] makes before it enters the loop; [n0] is the first
    renderer the camera hands out. *)
Definition intro_steps (cfg : Config) (n0 : nat) : list event :=
  [ EPrint "Welcome to the photo booth!";
    EPrint "Press the button to take a photo";
    EStartPreview screen_w screen_h;
    EAddOverlay n0 (intro_image_1 cfg); ESetLayer n0 3;
    EAddOverlay (S n0) (intro_image_2 cfg); ESetLayer (S n0) 4 ].

(** The [finally] clause, call by call. *)
Definition release_steps : list event := [EStopPreview; ECameraClose; EGpioCleanup].

Definition stops_preview (e : event) : bool :=
  match e with EStopPreview => true | _ => false end.
Definition closes_camera (e : event) : bool :=
  match e with ECameraClose => true | _ => false end.
Definition cleans_gpio (e : event) : bool :=
  match e with EGpioCleanup => true | _ => false end.

(** How many calls of [t] satisfy [p]. *)
Definition times (p : event -> bool) (t : list event) : nat :=
  List.length (List.filter p t).

(** Test configurations: both flags set, and each flag alone. *)
Definition fast_autopress (real_path : string) : Config :=
  {| TESTMODE_AUTOPRESS_BUTTON := true; TESTMODE_FAST := true;
     configured_total_pics := 4; configured_prep_delay := 10;
     REAL_PATH := real_path |}.

Definition fast_only (real_path : string) : Config :=
  {| TESTMODE_AUTOPRESS_BUTTON := false; TESTMODE_FAST := true;
     configured_total_pics := 4; configured_prep_delay := 10;
     REAL_PATH := real_path |}.

Definition autopress_only (real_path : string) : Config :=
  {| TESTMODE_AUTOPRESS_BUTTON := true; TESTMODE_FAST := false;
     configured_total_pics := 4; configured_prep_delay := 10;
     REAL_PATH := real_path |}.

(** ** Further observations of the world and of traces *)

(** Lines 115-118: the size of the padded image made for an image of size
    [size] = (width, height); [//] is floor division. *)
Definition padded_size (size : Z * Z) : Z * Z :=
  (((fst size + 31) / 32) * 32, ((snd size + 15) / 16) * 16)%Z.

(** The renderers on screen, oldest first. *)
Definition ids (w : World) : list nat := map o_id (overlays w).

(** Every renderer on screen is one the camera has handed out, once. *)
Definition tidy (w : World) : Prop :=
  NoDup (ids w) /\ Forall (fun k => k < next_overlay w) (ids w).

(** An overlay as [overlay_image] leaves it on screen. *)
Definition shown (id : nat) (image : string) (layer : Z) : overlay :=
  {| o_id := id; o_image := image; o_layer := layer; o_alpha := 255 |}.

(** A computation that leaves the overlays on a tidy screen as they were,
    whether it completes or raises. *)
Definition screen_neutral {A} (m : M A) : Prop :=
  forall w, tidy w ->
    overlays (st (m w)) = overlays w /\ next_overlay w <= next_overlay (st (m w)).

(** What the camera shows and has handed out. *)
Definition screen (w : World) : list overlay * nat := (overlays w, next_overlay w).

(** The screen of the idle loop: on top of the overlays [base] that were
    there when [main] started, the two intro overlays held by the loop, the
    first opaque on layer 3, the second on layer 4 and opaque or
    transparent; the blink counter is below 4. *)
Definition idle_screen (cfg : Config) (base : list overlay) (s : idle) (w : World) : Prop :=
  exists id1 id2 alpha,
    overlay_1 s = Renderer id1 /\ overlay_2 s = Renderer id2 /\
    overlays w =
      base ++ [ shown id1 (intro_image_1 cfg) 3;
                {| o_id := id2; o_image := intro_image_2 cfg; o_layer := 4;
                   o_alpha := alpha |} ] /\
    (alpha = 255 \/ alpha = 0)%Z /\
    tidy w /\ i s < 4.

(** A computation that deletes no directory. *)
Definition keeps_dirs {A} (m : M A) : Prop :=
  forall w, dirs w ⊆ dirs (st (m w)).

(** A call other than [os.makedirs], or [os.makedirs] for a directory of
    [D]. *)
Definition makes_only (D : gset string) (e : event) : bool :=
  match e with
  | EMakedirs path => bool_decide (path ∈ D)
  | _ => true
  end.

(** The session directories of the sessions that the turns [polls] could
    start. *)
Definition session_dirs (cfg : Config) (polls : list poll) : gset string :=
  list_to_set (map (fun p => Naming.get_base_filename_for_images (REAL_PATH cfg) (now p))
                   polls).

Definition is_wait (e : event) : bool :=
  match e with
  | EWaitForEdge _ _ => true
  | _ => false
  end.

Definition no_wait (e : event) : bool := negb (is_wait e).

(** The seconds a trace spends in [sleep]. *)
Definition slept (t : list event) : Q :=
  fold_right (fun e acc => match e with ESleep d => (d + acc)%Q | _ => acc end) 0%Q t.

Definition no_sleep (e : event) : bool :=
  match e with
  | ESleep _ => false
  | _ => true
  end.

(** A computation that, whenever it completes, has slept [q] seconds. *)
Definition sleeps {A} (m : M A) (q : Q) : Prop :=
  forall w a, res (m w) = Ok a -> (slept (out (m w)) == q)%Q.

(** A computation that leaves no annotation text behind when there was
    none before it, whether it completes or raises. *)
Definition keeps_text {A} (m : M A) : Prop :=
  forall w, annotate_text w = "" -> annotate_text (st (m w)) = "".

(** The image an event puts on screen, if it does. *)
Definition image_added (e : event) : option string :=
  match e with
  | EAddOverlay _ image => Some image
  | _ => None
  end.

Definition images_added (t : list event) : list string := omap image_added t.

(** The call [remove_overlay] makes for a handle: none for [-1]. *)
Definition removal (h : handle) : list event :=
  match h with
  | NoOverlay => []
  | Renderer id => [ERemoveOverlay id]
  end.

(** The directory an event asks [os.makedirs] for, if it does. *)
Definition makes_dir (e : event) : option string :=
  match e with
  | EMakedirs path => Some path
  | _ => None
  end.

Definition makedirs_calls (t : list event) : list string := omap makes_dir t.

(** * Reasoning about computations *)

Section Monad_facts.
Context {A B : Type}.

Lemma bind_ok (m : M A) (f : A -> M B) (w : World) (a : A) :
  res (m w) = Ok a ->
  bind m f w = mkOut (res (f a (st (m w)))) (st (f a (st (m w))))
                     (out (m w) ++ out (f a (st (m w)))).
Proof.
  intros H. unfold bind. destruct (m w) as [r w1 t1]. cbn [res st out] in *.
  subst r. now destruct (f a w1).
Qed.

Lemma bind_raise (m : M A) (f : A -> M B) (w : World) (e : exn) :
  res (m w) = Raise e ->
  bind m f w = mkOut (Raise e) (st (m w)) (out (m w)).
Proof.
  intros H. unfold bind. destruct (m w) as [r w1 t1]. cbn [res st out] in *.
  now subst r.
Qed.

(** A sequence that completes is made of two parts that complete. *)
Lemma bind_ok_inv (m : M A) (f : A -> M B) (w : World) (b : B) :
  res (bind m f w) = Ok b ->
  exists a, res (m w) = Ok a /\ res (f a (st (m w))) = Ok b.
Proof.
  unfold bind. destruct (m w) as [[a|e] w1 t1]; cbn [res st]; [|discriminate].
  intros H. exists a. split; [reflexivity|].
  destruct (f a w1). exact H.
Qed.
End Monad_facts.

(** ** Computations that make only calls of a given kind *)

Section Emits_only.
Variable p : event -> bool.

Lemma emits_only_ret {A} (a : A) : emits_only p (ret a).
Proof. intros w. reflexivity. Qed.

Lemma emits_only_raise {A} (e : exn) : emits_only p (@raise A e).
Proof. intros w. reflexivity. Qed.

Lemma emits_only_get {A} (f : World -> A) : emits_only p (get f).
Proof. intros w. reflexivity. Qed.

Lemma emits_only_modify (f : World -> World) : emits_only p (modify f).
Proof. intros w. reflexivity. Qed.

Lemma emits_only_emit (e : event) : p e = true -> emits_only p (emit e).
Proof. intros H w. cbn. now rewrite H. Qed.

Lemma emits_only_bind {A B} (m : M A) (f : A -> M B) :
  emits_only p m -> (forall a, emits_only p (f a)) -> emits_only p (bind m f).
Proof.
  intros Hm Hf w. specialize (Hm w). unfold bind.
  destruct (m w) as [[a|e] w1 t1]; cbn [out] in *; [|exact Hm].
  specialize (Hf a w1). destruct (f a w1). cbn [out] in *.
  now rewrite forallb_app, Hm, Hf.
Qed.

Lemma emits_only_try {A} (m : M A) (h : exn -> M A) :
  emits_only p m -> (forall e, emits_only p (h e)) -> emits_only p (try_except m h).
Proof.
  intros Hm Hh w. specialize (Hm w). unfold try_except.
  destruct (m w) as [[a|e] w1 t1]; cbn [out] in *; [exact Hm|].
  specialize (Hh e w1). destruct (h e w1). cbn [out] in *.
  now rewrite forallb_app, Hm, Hh.
Qed.

Lemma emits_only_for_each {A} (l : list A) (body : A -> M unit) :
  (forall x, emits_only p (body x)) -> emits_only p (for_each l body).
Proof.
  intros Hb. induction l as [|x l IH]; cbn [for_each].
  - apply emits_only_ret.
  - apply emits_only_bind; [apply Hb | intros _; exact IH].
Qed.

Lemma emits_only_if {A} (c : bool) (m1 m2 : M A) :
  emits_only p m1 -> emits_only p m2 -> emits_only p (if c then m1 else m2).
Proof. destruct c; trivial. Qed.
End Emits_only.

(** Take a computation apart along its binds, loops and branches. *)
Ltac emits :=
  repeat first
    [ progress intros
    | apply emits_only_ret | apply emits_only_raise
    | apply emits_only_get | apply emits_only_modify
    | (apply emits_only_emit; reflexivity)
    | apply emits_only_bind | apply emits_only_try
    | apply emits_only_for_each | apply emits_only_if
    | match goal with
      | |- emits_only _ (match ?x with _ => _ end) => destruct x
      end ].

Lemma overlay_image_harmless image d layer : emits_only harmless (overlay_image image d layer).
Proof. unfold overlay_image, camera_add_overlay, set_layer, sleep, camera_remove_overlay. emits. Qed.

Lemma remove_overlay_harmless h : emits_only harmless (remove_overlay h).
Proof. unfold remove_overlay, camera_remove_overlay. emits. Qed.

Lemma ensure_dir_harmless d : emits_only harmless (ensure_dir d).
Proof. unfold ensure_dir, os_makedirs. emits. Qed.

(** ** Computations that never raise *)

Section Total.
Lemma total_ret {A} (a : A) : total (ret a).
Proof. intros w. now exists a. Qed.

Lemma total_get {A} (g : World -> A) : total (get g).
Proof. intros w. now exists (g w). Qed.

Lemma total_emit (e : event) : total (emit e).
Proof. intros w. now exists tt. Qed.

Lemma total_modify (g : World -> World) : total (modify g).
Proof. intros w. now exists tt. Qed.

Lemma total_bind {A B} (m : M A) (k : A -> M B) :
  total m -> (forall a, total (k a)) -> total (bind m k).
Proof.
  intros Hm Hk w. destruct (Hm w) as [a Ha].
  rewrite (bind_ok _ _ _ _ Ha). apply Hk.
Qed.

Lemma total_for_each {A} (l : list A) (body : A -> M unit) :
  (forall x, total (body x)) -> total (for_each l body).
Proof.
  intros Hb. induction l as [|x l IH]; cbn [for_each].
  - apply total_ret.
  - apply total_bind; [apply Hb | intros _; exact IH].
Qed.

Lemma total_if {A} (c : bool) (m1 m2 : M A) :
  total m1 -> total m2 -> total (if c then m1 else m2).
Proof. destruct c; trivial. Qed.

Lemma total_unit (m : M unit) w : total m -> res (m w) = Ok tt.
Proof. intros H. destruct (H w) as [[] Ha]. exact Ha. Qed.
End Total.

Ltac total :=
  repeat first
    [ progress intros
    | apply total_ret | apply total_get | apply total_emit | apply total_modify
    | apply total_bind | apply total_for_each | apply total_if
    | match goal with
      | |- total (match ?x with _ => _ end) => destruct x
      end ].

(** * The session namer *)

(** The example of the docstring of [get_base_filename_for_images]. *)
Example base_filename_docstring :
  Naming.get_base_filename_for_images "${ProjectRoot}"
    {| Naming.year := 2017; Naming.month := 12; Naming.day := 31;
       Naming.hour := 23; Naming.minute := 59; Naming.second := 59;
       Naming.microsecond := 123456 |}
  = "${ProjectRoot}/photos/2017-12-31_23-59-59".
Proof. reflexivity. Qed.


Module NamingFacts.
Import Naming.

Lemma append_cons c s t : String c s +:+ t = String c (s +:+ t).
Proof. reflexivity. Qed.

Lemma append_nil t : "" +:+ t = t.
Proof. reflexivity. Qed.

Lemma append_nil_r s : s +:+ "" = s.
Proof. induction s as [|c s IH]; [reflexivity | now rewrite append_cons, IH]. Qed.

Lemma append_assoc s t u : (s +:+ t) +:+ u = s +:+ (t +:+ u).
Proof. induction s as [|c s IH]; [reflexivity | now rewrite !append_cons, IH]. Qed.

Lemma replace_app old new s t :
  replace old new (s +:+ t) = replace old new s +:+ replace old new t.
Proof.
  induction s as [|c s IH]; [reflexivity|].
  rewrite append_cons. cbn [replace]. now rewrite IH, append_cons.
Qed.

Lemma occurs_replace old new s :
  old <> new -> occurs old (replace old new s) = false.
Proof.
  intros Hne. induction s as [|c s IH]; cbn [replace occurs]; [reflexivity|].
  rewrite IH, orb_false_r.
  destruct (Ascii.eqb_spec c old) as [->|Hc].
  - apply Ascii.eqb_neq. congruence.
  - now apply Ascii.eqb_neq.
Qed.

Lemma occurs_replace_other c old new s :
  c <> new -> occurs c s = false -> occurs c (replace old new s) = false.
Proof.
  intros Hne. induction s as [|x s IH]; cbn [replace occurs]; [reflexivity|].
  intros H. apply orb_false_iff in H as [Hx Hs].
  rewrite (IH Hs), orb_false_r.
  destruct (Ascii.eqb x old); [|exact Hx].
  apply Ascii.eqb_neq. congruence.
Qed.

Lemma append_inv_head s a b : s +:+ a = s +:+ b -> a = b.
Proof.
  induction s as [|c s IH]; [trivial|].
  rewrite !append_cons. intros H. injection H. exact IH.
Qed.

Lemma before_dot_app s t :
  occurs "." s = false -> before_dot (s +:+ t) = s +:+ before_dot t.
Proof.
  induction s as [|c s IH]; [reflexivity|].
  cbn [occurs]. intros H. apply orb_false_iff in H as [Hc Hs].
  rewrite !append_cons. cbn [before_dot]. now rewrite Hc, (IH Hs).
Qed.

(** The ten values of [digit]. *)
Lemma digit_cases n :
  exists k, (0 <= k < 10)%Z /\ (n mod 10 = k)%Z /\
    digit n = match k with
              | 0 => "0" | 1 => "1" | 2 => "2" | 3 => "3" | 4 => "4"
              | 5 => "5" | 6 => "6" | 7 => "7" | 8 => "8" | _ => "9"
              end%Z%char.
Proof.
  exists (n mod 10)%Z. split; [apply Z.mod_pos_bound; lia|]. split; reflexivity.
Qed.

Ltac digit_split n :=
  let k := fresh "k" in let Hk := fresh "Hk" in
  let Hm := fresh "Hm" in let Hd := fresh "Hd" in
  destruct (digit_cases n) as (k & Hk & Hm & Hd); rewrite Hd;
  assert (k = 0 \/ k = 1 \/ k = 2 \/ k = 3 \/ k = 4 \/
          k = 5 \/ k = 6 \/ k = 7 \/ k = 8 \/ k = 9)%Z
    as [->|[->|[->|[->|[->|[->|[->|[->|[->| ->]]]]]]]]] by lia.

Lemma digit_not_dot n : Ascii.eqb (digit n) "." = false.
Proof. digit_split n; reflexivity. Qed.

Lemma digit_not_space n : Ascii.eqb (digit n) " " = false.
Proof. digit_split n; reflexivity. Qed.

Lemma digit_not_colon n : Ascii.eqb (digit n) ":" = false.
Proof. digit_split n; reflexivity. Qed.

Lemma digit_inj a b : digit a = digit b -> (a mod 10 = b mod 10)%Z.
Proof.
  intros H.
  destruct (digit_cases a) as (ka & Hka & Hma & Hda).
  destruct (digit_cases b) as (kb & Hkb & Hmb & Hdb).
  rewrite Hma, Hmb. rewrite Hda, Hdb in H. clear Hda Hdb Hma Hmb.
  assert (ka = 0 \/ ka = 1 \/ ka = 2 \/ ka = 3 \/ ka = 4 \/
          ka = 5 \/ ka = 6 \/ ka = 7 \/ ka = 8 \/ ka = 9)%Z
    as [->|[->|[->|[->|[->|[->|[->|[->|[->| ->]]]]]]]]] by lia;
  assert (kb = 0 \/ kb = 1 \/ kb = 2 \/ kb = 3 \/ kb = 4 \/
          kb = 5 \/ kb = 6 \/ kb = 7 \/ kb = 8 \/ kb = 9)%Z
    as [->|[->|[->|[->|[->|[->|[->|[->|[->| ->]]]]]]]]] by lia;
  first [reflexivity | discriminate H].
Qed.

Lemma pad2_inj a b :
  (0 <= a < 100)%Z -> (0 <= b < 100)%Z -> pad2 a = pad2 b -> a = b.
Proof.
  intros Ha Hb H. unfold pad2 in H. injection H as H1 H0.
  apply digit_inj in H1, H0. Z.div_mod_to_equations. lia.
Qed.

Lemma pad4_inj a b :
  (0 <= a < 10000)%Z -> (0 <= b < 10000)%Z -> pad4 a = pad4 b -> a = b.
Proof.
  intros Ha Hb H. unfold pad4, pad2 in H. injection H as H3 H2 H1 H0.
  apply digit_inj in H3, H2, H1, H0. Z.div_mod_to_equations. lia.
Qed.

Ltac str_norm := rewrite ?append_cons, ?append_nil.

(** Dropping the fraction leaves the seconds. *)
Lemma before_dot_str_datetime d : before_dot (str_datetime d) = str_seconds d.
Proof.
  unfold str_datetime. rewrite before_dot_app.
  - destruct (Z.eqb (microsecond d) 0).
    + now rewrite append_nil_r.
    + rewrite append_cons. cbn [before_dot]. now rewrite append_nil_r.
  - unfold str_seconds, pad4, pad2. str_norm. cbn [occurs].
    now rewrite !digit_not_dot.
Qed.

(** The file-system form of the timestamp: [YYYY-MM-DD_HH-MM-SS]. *)
Lemma replace_str_seconds d :
  replace ":" "-" (replace " " "_" (str_seconds d)) =
  pad4 (year d) +:+ "-" +:+ pad2 (month d) +:+ "-" +:+ pad2 (day d) +:+ "_" +:+
  pad2 (hour d) +:+ "-" +:+ pad2 (minute d) +:+ "-" +:+ pad2 (second d).
Proof.
  unfold str_seconds, pad4, pad2. str_norm. cbn [replace].
  now rewrite !digit_not_space, !digit_not_colon.
Qed.

Lemma base_filename_shape real_path d :
  get_base_filename_for_images real_path d =
  replace ":" "-" (replace " " "_" (real_path +:+ "/photos/")) +:+
  replace ":" "-" (replace " " "_" (str_seconds d)).
Proof.
  unfold get_base_filename_for_images.
  rewrite before_dot_str_datetime, <- append_assoc.
  now rewrite !replace_app.
Qed.

(** C8: a session base name holds neither a space nor a colon, whatever
    the program's own location is, and two sessions of the same program whose
    start times differ in the year, month, day, hour, minute or second get
    different base names. *)
Theorem base_filename_safe_and_unique (real_path : string) (d1 d2 : datetime) :
  valid d1 -> valid d2 -> to_second d1 <> to_second d2 ->
  occurs " " (get_base_filename_for_images real_path d1) = false /\
  occurs ":" (get_base_filename_for_images real_path d1) = false /\
  get_base_filename_for_images real_path d1 <>
  get_base_filename_for_images real_path d2.
Proof.
  intros V1 V2 Hne. split; [|split].
  - unfold get_base_filename_for_images.
    apply occurs_replace_other; [discriminate|].
    apply occurs_replace. discriminate.
  - unfold get_base_filename_for_images. apply occurs_replace. discriminate.
  - intros Heq. apply Hne. rewrite !base_filename_shape in Heq.
    apply append_inv_head in Heq. rewrite !replace_str_seconds in Heq.
    unfold valid in V1, V2.
    destruct V1 as (Y1 & M1 & D1 & h1 & m1 & s1 & _).
    destruct V2 as (Y2 & M2 & D2 & h2 & m2 & s2 & _).
    assert (pad4 (year d1) = pad4 (year d2) /\ pad2 (month d1) = pad2 (month d2) /\
            pad2 (day d1) = pad2 (day d2) /\ pad2 (hour d1) = pad2 (hour d2) /\
            pad2 (minute d1) = pad2 (minute d2) /\ pad2 (second d1) = pad2 (second d2))
      as (EY & EM & ED & Eh & Em & Es).
    { unfold pad4, pad2 in *. rewrite ?append_cons, ?append_nil in Heq.
      injection Heq. intros. repeat split; congruence. }
    unfold to_second.
    apply pad4_inj in EY; [|lia..]. apply pad2_inj in EM; [|lia..].
    apply pad2_inj in ED; [|lia..]. apply pad2_inj in Eh; [|lia..].
    apply pad2_inj in Em; [|lia..]. apply pad2_inj in Es; [|lia..].
    congruence.
Qed.

End NamingFacts.

(** * The capture step *)

(** ** Computations that leave part of the world alone *)

Section Preserves.
Context {X : Type} (f : World -> X).

Lemma preserves_ret {A} (a : A) : preserves f (ret a).
Proof. intros w. reflexivity. Qed.

Lemma preserves_raise {A} (e : exn) : preserves f (@raise A e).
Proof. intros w. reflexivity. Qed.

Lemma preserves_get {A} (g : World -> A) : preserves f (get g).
Proof. intros w. reflexivity. Qed.

Lemma preserves_emit (e : event) : preserves f (emit e).
Proof. intros w. reflexivity. Qed.

Lemma preserves_modify (g : World -> World) :
  (forall w, f (g w) = f w) -> preserves f (modify g).
Proof. intros H w. apply H. Qed.

Lemma preserves_bind {A B} (m : M A) (k : A -> M B) :
  preserves f m -> (forall a, preserves f (k a)) -> preserves f (bind m k).
Proof.
  intros Hm Hk w. specialize (Hm w). unfold bind.
  destruct (m w) as [[a|e] w1 t1]; cbn [st] in *; [|exact Hm].
  specialize (Hk a w1). destruct (k a w1). cbn [st] in *. congruence.
Qed.

Lemma preserves_try {A} (m : M A) (h : exn -> M A) :
  preserves f m -> (forall e, preserves f (h e)) -> preserves f (try_except m h).
Proof.
  intros Hm Hh w. specialize (Hm w). unfold try_except.
  destruct (m w) as [[a|e] w1 t1]; cbn [st] in *; [exact Hm|].
  specialize (Hh e w1). destruct (h e w1). cbn [st] in *. congruence.
Qed.

Lemma preserves_for_each {A} (l : list A) (body : A -> M unit) :
  (forall x, preserves f (body x)) -> preserves f (for_each l body).
Proof.
  intros Hb. induction l as [|x l IH]; cbn [for_each].
  - apply preserves_ret.
  - apply preserves_bind; [apply Hb | intros _; exact IH].
Qed.

Lemma preserves_if {A} (c : bool) (m1 m2 : M A) :
  preserves f m1 -> preserves f m2 -> preserves f (if c then m1 else m2).
Proof. destruct c; trivial. Qed.
End Preserves.

Ltac preserves :=
  repeat first
    [ progress intros
    | apply preserves_ret | apply preserves_raise
    | apply preserves_get | apply preserves_emit
    | (apply preserves_modify; intros; reflexivity)
    | apply preserves_bind | apply preserves_try
    | apply preserves_for_each | apply preserves_if
    | match goal with
      | |- preserves _ (match ?x with _ => _ end) => destruct x
      end ].

Lemma overlay_image_disk image d layer : preserves disk (overlay_image image d layer).
Proof. unfold overlay_image, camera_add_overlay, set_layer, sleep, camera_remove_overlay. preserves. Qed.

Lemma remove_overlay_disk h : preserves disk (remove_overlay h).
Proof. unfold remove_overlay, camera_remove_overlay. preserves. Qed.

(** ** The directory step *)

Lemma ensure_dir_eq dirname w :
  ensure_dir dirname w =
  if bool_decide (dirname ∈ dirs w) then mkOut (Ok tt) w [EMakedirs dirname]
  else match mk_fault w dirname with
       | None => mkOut (Ok tt) (set_dirs ({[ dirname ]} ∪ dirs w) w) [EMakedirs dirname]
       | Some errno =>
           if Z.eqb errno EEXIST then mkOut (Ok tt) w [EMakedirs dirname]
           else mkOut (Raise (OSError errno)) w [EMakedirs dirname]
       end.
Proof.
  unfold ensure_dir, try_except, os_makedirs, bind, emit, get, modify, raise, ret, id.
  destruct (bool_decide (dirname ∈ dirs w)); [reflexivity|].
  destruct (mk_fault w dirname) as [errno|]; [|reflexivity].
  cbn [app]. destruct (Z.eqb errno EEXIST); reflexivity.
Qed.

Lemma ensure_dir_out dirname w : out (ensure_dir dirname w) = [EMakedirs dirname].
Proof.
  rewrite ensure_dir_eq.
  destruct (bool_decide _); [reflexivity|].
  destruct (mk_fault w dirname) as [errno|]; [|reflexivity].
  destruct (Z.eqb errno EEXIST); reflexivity.
Qed.

Lemma ensure_dir_next_overlay dirname : preserves next_overlay (ensure_dir dirname).
Proof. unfold ensure_dir, os_makedirs. preserves. Qed.

(** What follows the directory step in [taking_photo] always completes; it
    leaves the annotation empty at size 160 and the flash renderer created
    and removed again. *)
Lemma taking_photo_eq cfg photo_number filename_prefix w :
  taking_photo cfg photo_number filename_prefix w =
  let o := ensure_dir filename_prefix w in
  match res o with
  | Ok _ =>
      mkOut (Ok tt)
        (set_overlays (filter (fun o' => o_id o' ≠ next_overlay w))
           (st (overlay_image (REAL_PATH cfg +:+ "/assets/white.png") 0 3
                  (set_annotate_text "" (set_annotate_text_size 160 (st o))))))
        (photo_steps cfg filename_prefix (next_overlay w) photo_number)
  | Raise e => mkOut (Raise e) (st o) [EMakedirs filename_prefix]
  end.
Proof.
  unfold taking_photo. cbn zeta.
  pose proof (ensure_dir_out filename_prefix w) as Hout.
  pose proof (ensure_dir_next_overlay filename_prefix w) as Hnext.
  destruct (res (ensure_dir filename_prefix w)) as [[]|e] eqn:E.
  - rewrite (bind_ok _ _ _ _ E). rewrite Hout. rewrite <- Hnext.
    generalize (st (ensure_dir filename_prefix w)). intros w1.
    vm_compute. reflexivity.
  - rewrite (bind_raise _ _ _ _ E). now rewrite Hout.
Qed.

Lemma taking_photo_disk cfg photo_number filename_prefix w :
  res (taking_photo cfg photo_number filename_prefix w) = Ok tt ->
  mk_fault (st (taking_photo cfg photo_number filename_prefix w)) = mk_fault w /\
  (dirs (st (taking_photo cfg photo_number filename_prefix w)) = dirs w \/
   dirs (st (taking_photo cfg photo_number filename_prefix w)) = {[ filename_prefix ]} ∪ dirs w).
Proof.
  rewrite taking_photo_eq. cbn zeta. rewrite ensure_dir_eq.
  destruct (bool_decide _); [cbn; auto|].
  destruct (mk_fault w filename_prefix) as [errno|]; [|cbn; auto].
  destruct (Z.eqb errno EEXIST); [cbn; auto|discriminate].
Qed.

Lemma taking_photo_next_overlay cfg photo_number filename_prefix w :
  res (taking_photo cfg photo_number filename_prefix w) = Ok tt ->
  next_overlay (st (taking_photo cfg photo_number filename_prefix w)) = S (next_overlay w).
Proof.
  rewrite taking_photo_eq. cbn zeta.
  pose proof (ensure_dir_next_overlay filename_prefix w) as Hnext.
  destruct (res (ensure_dir filename_prefix w)); [|discriminate].
  intros _. cbn. now rewrite Hnext.
Qed.

Lemma taking_photo_out cfg photo_number filename_prefix w :
  res (taking_photo cfg photo_number filename_prefix w) = Ok tt ->
  out (taking_photo cfg photo_number filename_prefix w) =
  photo_steps cfg filename_prefix (next_overlay w) photo_number.
Proof.
  rewrite taking_photo_eq. cbn zeta.
  destruct (res (ensure_dir filename_prefix w)); [reflexivity|discriminate].
Qed.

(** The directory step succeeds exactly when the iteration does. *)
Lemma taking_photo_res cfg photo_number filename_prefix w :
  res (taking_photo cfg photo_number filename_prefix w) = res (ensure_dir filename_prefix w).
Proof.
  rewrite taking_photo_eq. cbn zeta.
  destruct (res (ensure_dir filename_prefix w)) as [[]|e]; reflexivity.
Qed.

(** Once the directory step has succeeded it succeeds again, whatever
    directories have been added since. *)
Lemma ensure_dir_again dirname w w' :
  res (ensure_dir dirname w) = Ok tt ->
  mk_fault w' = mk_fault w ->
  (dirs w' = dirs w \/ dirs w' = {[ dirname ]} ∪ dirs w) ->
  res (ensure_dir dirname w') = Ok tt.
Proof.
  rewrite !ensure_dir_eq. intros H Hf Hd.
  destruct (bool_decide (dirname ∈ dirs w')) eqn:E'; [reflexivity|].
  apply bool_decide_eq_false in E'.
  destruct (bool_decide (dirname ∈ dirs w)) eqn:E.
  - apply bool_decide_eq_true in E. exfalso. apply E'.
    destruct Hd as [-> | ->]; set_solver.
  - rewrite Hf. destruct (mk_fault w dirname) as [errno|].
    + destruct (Z.eqb errno EEXIST); [reflexivity|discriminate].
    + reflexivity.
Qed.

(** ** The capture loop *)

Lemma capture_loop cfg filename_prefix n : forall first w,
  res (ensure_dir filename_prefix w) = Ok tt ->
  let o := for_each (seq first n) (fun k => taking_photo cfg k filename_prefix) w in
  res o = Ok tt /\
  out o = capture_steps cfg filename_prefix (next_overlay w) first n /\
  next_overlay (st o) = next_overlay w + n /\
  res (ensure_dir filename_prefix (st o)) = Ok tt.
Proof.
  induction n as [|n IH]; intros first w Hdir; cbn zeta.
  - cbn. repeat split; [lia | exact Hdir].
  - cbn [seq for_each capture_steps].
    assert (res (taking_photo cfg first filename_prefix w) = Ok tt) as Htp
      by now rewrite taking_photo_res.
    rewrite (bind_ok _ _ _ _ Htp). cbn [res st out].
    destruct (taking_photo_disk _ _ _ _ Htp) as [Hf Hd].
    pose proof (ensure_dir_again _ _ _ Hdir Hf Hd) as Hdir'.
    destruct (IH (S first) _ Hdir') as (Hres & Hout & Hnext & Hagain).
    rewrite Hres, Hout, Hnext, Hagain.
    rewrite (taking_photo_out _ _ _ _ Htp), (taking_photo_next_overlay _ _ _ _ Htp).
    repeat split. lia.
Qed.

(** A loop of at least one iteration completes only if the directory step
    does. *)
Lemma capture_loop_started cfg filename_prefix n first w :
  res (for_each (seq first (S n)) (fun k => taking_photo cfg k filename_prefix) w) = Ok tt ->
  res (ensure_dir filename_prefix w) = Ok tt.
Proof.
  cbn [seq for_each]. intros H. apply bind_ok_inv in H as ([] & H & _).
  now rewrite <- taking_photo_res with (cfg := cfg) (photo_number := first).
Qed.

Lemma capture_iterations_order_aux cfg filename_prefix w :
  res (capture_photos cfg filename_prefix w) = Ok tt ->
  out (capture_photos cfg filename_prefix w) =
    capture_steps cfg filename_prefix (next_overlay w) 1 (total_pics cfg) /\
  next_overlay (st (capture_photos cfg filename_prefix w)) = next_overlay w + total_pics cfg.
Proof.
  intros H. unfold capture_photos in *.
  destruct (total_pics cfg) as [|n]; [cbn; split; [reflexivity|lia]|].
  apply capture_loop_started in H.
  now destruct (capture_loop cfg filename_prefix (S n) 1 w H) as (_ & Hout & Hn & _).
Qed.

(** C6: a capture loop that completes makes, for each photo number from 1
    to [total_pics] in turn, the calls of [photo_steps]: create the session
    directory, show 3, 2, 1 as text of size 160 one second apart, clear the
    text, capture to [prefix/<number>of<total>.jpg], then show the white
    overlay for a tenth of a second; and each single iteration that
    completes makes exactly those calls. *)
Theorem capture_iterations_in_order (cfg : Config) (filename_prefix : string) (w : World) :
  res (capture_photos cfg filename_prefix w) = Ok tt ->
  out (capture_photos cfg filename_prefix w) =
    capture_steps cfg filename_prefix (next_overlay w) 1 (total_pics cfg) /\
  forall photo_number w',
    res (taking_photo cfg photo_number filename_prefix w') = Ok tt ->
    out (taking_photo cfg photo_number filename_prefix w') =
      photo_steps cfg filename_prefix (next_overlay w') photo_number.
Proof.
  intros H. split; [|intros k w'; apply taking_photo_out].
  apply capture_iterations_order_aux, H.
Qed.

Lemma capture_iterations_in_order_witness :
  res (capture_photos (shipped "/home/pi") "/home/pi/photos/s" fresh_world) = Ok tt /\
  out (capture_photos (shipped "/home/pi") "/home/pi/photos/s" fresh_world) =
  capture_steps (shipped "/home/pi") "/home/pi/photos/s" (next_overlay fresh_world) 1
    (total_pics (shipped "/home/pi")).
Proof.
  assert (res (capture_photos (shipped "/home/pi") "/home/pi/photos/s" fresh_world) = Ok tt)
    as H by (vm_compute; reflexivity).
  split; [exact H|].
  exact (proj1 (capture_iterations_in_order _ _ _ H)).
Defined.

(** The first and the second of four iterations on a fresh disk, call by
    call. *)
Example two_iterations :
  firstn 40 (out (capture_photos (shipped "/b") "/b/photos/s" fresh_world)) =
  [ EMakedirs "/b/photos/s";
    EPrint "3"; EAnnotateSize 160; EAnnotateText "3"; ESleep 1;
    EPrint "2"; EAnnotateSize 160; EAnnotateText "2"; ESleep 1;
    EPrint "1"; EAnnotateSize 160; EAnnotateText "1"; ESleep 1;
    EAnnotateText ""; ECapture "/b/photos/s/1of4.jpg";
    EAddOverlay 0 "/b/assets/white.png"; ESetLayer 0 3; ESleep (1 # 10);
    ERemoveOverlay 0; EPrint "Photo (1) saved: /b/photos/s/1of4.jpg";
    EMakedirs "/b/photos/s";
    EPrint "3"; EAnnotateSize 160; EAnnotateText "3"; ESleep 1;
    EPrint "2"; EAnnotateSize 160; EAnnotateText "2"; ESleep 1;
    EPrint "1"; EAnnotateSize 160; EAnnotateText "1"; ESleep 1;
    EAnnotateText ""; ECapture "/b/photos/s/2of4.jpg";
    EAddOverlay 1 "/b/assets/white.png"; ESetLayer 1 3; ESleep (1 # 10);
    ERemoveOverlay 1; EPrint "Photo (2) saved: /b/photos/s/2of4.jpg" ].
Proof. vm_compute. reflexivity. Qed.

(** * The phases of a session *)

Lemma files_written_app t1 t2 :
  files_written (t1 ++ t2) = files_written t1 ++ files_written t2.
Proof. apply omap_app. Qed.

Lemma harmless_writes_nothing t : forallb harmless t = true -> files_written t = [].
Proof.
  induction t as [|x t IH]; [reflexivity|].
  cbn [forallb]. intros H. apply andb_true_iff in H as [Hx Ht].
  change (files_written (x :: t)) with
    (match writes x with Some y => y :: files_written t | None => files_written t end).
  destruct x; try discriminate Hx; cbn [writes]; auto.
Qed.

Lemma overlay_image_total image d layer : total (overlay_image image d layer).
Proof. unfold overlay_image, camera_add_overlay, set_layer, sleep, camera_remove_overlay. total. Qed.

Lemma remove_overlay_total h : total (remove_overlay h).
Proof. unfold remove_overlay, camera_remove_overlay. total. Qed.

Lemma begin_session_total cfg s : total (begin_session cfg s).
Proof.
  unfold begin_session, prep_for_photo_screen, print.
  total; first [apply overlay_image_total | apply remove_overlay_total].
Qed.

Lemma begin_session_harmless cfg s : emits_only harmless (begin_session cfg s).
Proof.
  unfold begin_session, prep_for_photo_screen, print.
  emits; first [apply overlay_image_harmless | apply remove_overlay_harmless].
Qed.

Lemma begin_session_disk cfg s : preserves disk (begin_session cfg s).
Proof.
  unfold begin_session, prep_for_photo_screen, print.
  preserves; first [apply overlay_image_disk | apply remove_overlay_disk].
Qed.

Lemma playback_loop_total cfg filename_prefix l : forall prev,
  total (playback_loop cfg filename_prefix l prev).
Proof.
  induction l as [|k l IH]; intros prev; cbn [playback_loop]; unfold sleep.
  - apply total_ret.
  - total; first [apply overlay_image_total | apply remove_overlay_total | apply IH].
Qed.

Lemma playback_loop_harmless cfg filename_prefix l : forall prev,
  emits_only harmless (playback_loop cfg filename_prefix l prev).
Proof.
  induction l as [|k l IH]; intros prev; cbn [playback_loop]; unfold sleep.
  - apply emits_only_ret.
  - emits; first [apply overlay_image_harmless | apply remove_overlay_harmless | apply IH].
Qed.

Lemma playback_screen_total cfg filename_prefix : total (playback_screen cfg filename_prefix).
Proof.
  unfold playback_screen, print.
  total; first [apply overlay_image_total | apply remove_overlay_total
               | apply playback_loop_total].
Qed.

Lemma playback_screen_harmless cfg filename_prefix :
  emits_only harmless (playback_screen cfg filename_prefix).
Proof.
  unfold playback_screen, print.
  emits; first [apply overlay_image_harmless | apply remove_overlay_harmless
               | apply playback_loop_harmless].
Qed.

Lemma end_session_total cfg s p filename_prefix : total (end_session cfg s p filename_prefix).
Proof.
  unfold end_session, serial_receive, ser_reset_input_buffer, print.
  apply total_bind; [apply playback_screen_total|].
  total; apply overlay_image_total.
Qed.

Lemma end_session_harmless cfg s p filename_prefix :
  emits_only harmless (end_session cfg s p filename_prefix).
Proof.
  unfold end_session, serial_receive, ser_reset_input_buffer, print.
  apply emits_only_bind; [apply playback_screen_harmless|].
  emits; apply overlay_image_harmless.
Qed.

(** Three steps in sequence, the first of which never raises. *)
Lemma bind3_eq {A B C} (m0 : M A) (m1 : M B) (m2 : M C) w :
  total m0 ->
  (m0 ;; m1 ;; m2) w =
  let o0 := m0 w in
  let o1 := m1 (st o0) in
  match res o1 with
  | Ok _ =>
      let o2 := m2 (st o1) in
      mkOut (res o2) (st o2) (out o0 ++ out o1 ++ out o2)
  | Raise e => mkOut (Raise e) (st o1) (out o0 ++ out o1)
  end.
Proof.
  intros H0. destruct (H0 w) as [a Ha].
  rewrite (bind_ok _ _ _ _ Ha). cbv zeta. cbn [res st out].
  unfold bind. destruct (m1 (st (m0 w))) as [[b|e] w1 t1]; cbn [res st out]; [|reflexivity].
  now destruct (m2 w1).
Qed.

(** A session is its three phases in sequence; of the failures the
    embedding has, only the capture phase can raise one. *)
Lemma session_eq cfg s p w :
  session cfg s p w =
  let filename_prefix := Naming.get_base_filename_for_images (REAL_PATH cfg) (now p) in
  let o0 := begin_session cfg s w in
  let o1 := capture_photos cfg filename_prefix (st o0) in
  match res o1 with
  | Ok _ =>
      let o2 := end_session cfg s p filename_prefix (st o1) in
      mkOut (res o2) (st o2) (out o0 ++ out o1 ++ out o2)
  | Raise e => mkOut (Raise e) (st o1) (out o0 ++ out o1)
  end.
Proof. exact (bind3_eq _ _ _ w (begin_session_total cfg s)). Qed.

(** The directory step looks at the disk only. *)
Lemma ensure_dir_res_disk dirname w w' :
  disk w' = disk w -> res (ensure_dir dirname w') = res (ensure_dir dirname w).
Proof.
  unfold disk. intros H. injection H as Hd Hf.
  rewrite !ensure_dir_eq, Hd, Hf.
  destruct (bool_decide _); [reflexivity|].
  destruct (mk_fault w dirname) as [errno|]; [|reflexivity].
  destruct (Z.eqb errno EEXIST); reflexivity.
Qed.

(** * The session directory *)

(** A failure to create the session directory ends the session before any
    photo is taken. *)
Lemma session_aborts cfg s p w e :
  1 <= total_pics cfg ->
  res (ensure_dir (Naming.get_base_filename_for_images (REAL_PATH cfg) (now p)) w) = Raise e ->
  res (session cfg s p w) = Raise e /\ files_written (out (session cfg s p w)) = [].
Proof.
  intros HN Hdir. rewrite session_eq. cbn zeta.
  set (prefix := Naming.get_base_filename_for_images (REAL_PATH cfg) (now p)) in *.
  set (w0 := st (begin_session cfg s w)).
  assert (res (ensure_dir prefix w0) = Raise e) as Hdir0.
  { rewrite <- Hdir. apply ensure_dir_res_disk. apply begin_session_disk. }
  assert (res (capture_photos cfg prefix w0) = Raise e /\
          out (capture_photos cfg prefix w0) = [EMakedirs prefix]) as [Hres Hout].
  { unfold capture_photos. destruct (total_pics cfg) as [|n]; [lia|].
    cbn [seq for_each].
    assert (res (taking_photo cfg 1 prefix w0) = Raise e) as Htp
      by now rewrite taking_photo_res.
    rewrite (bind_raise _ _ _ _ Htp). cbn [res out]. split; [reflexivity|].
    rewrite taking_photo_eq. cbn zeta. now rewrite Hdir0. }
  rewrite Hres. cbn [res out]. split; [reflexivity|].
  rewrite files_written_app, Hout.
  now rewrite (harmless_writes_nothing _ (begin_session_harmless cfg s w)).
Qed.

(** C7: the directory step does not raise when the directory is there and
    leaves the world as it is; after a call that succeeded a second call on
    the same path succeeds too and changes nothing, and no directory is
    lost; a creation failure with any errno other than EEXIST is raised
    again, and the session that needed the directory ends with that
    exception before any photo is taken. *)
Theorem ensure_dir_idempotent (dirname : string) (w : World) :
  (dirname ∈ dirs w ->
     ensure_dir dirname w = mkOut (Ok tt) w [EMakedirs dirname]) /\
  (res (ensure_dir dirname w) = Ok tt ->
     ensure_dir dirname (st (ensure_dir dirname w)) =
       mkOut (Ok tt) (st (ensure_dir dirname w)) [EMakedirs dirname] /\
     dirs w ⊆ dirs (st (ensure_dir dirname w))) /\
  (forall errno,
     dirname ∉ dirs w -> mk_fault w dirname = Some errno -> errno <> EEXIST ->
     res (ensure_dir dirname w) = Raise (OSError errno) /\
     forall cfg s p,
       1 <= total_pics cfg ->
       Naming.get_base_filename_for_images (REAL_PATH cfg) (now p) = dirname ->
       res (session cfg s p w) = Raise (OSError errno) /\
       files_written (out (session cfg s p w)) = []).
Proof.
  split; [|split].
  - intros Hin. rewrite ensure_dir_eq.
    now rewrite (bool_decide_eq_true_2 _ Hin).
  - rewrite !ensure_dir_eq.
    destruct (bool_decide (dirname ∈ dirs w)) eqn:E; cbn [res st].
    + intros _. now rewrite E.
    + destruct (mk_fault w dirname) as [errno|] eqn:F; cbn [res st].
      * destruct (Z.eqb errno EEXIST) eqn:Z; cbn [res st]; [|discriminate].
        intros _. now rewrite E, F, Z.
      * intros _. cbn [dirs set_dirs].
        rewrite bool_decide_eq_true_2 by set_solver.
        split; [reflexivity | set_solver].
  - intros errno Hnot Hf Hne.
    assert (res (ensure_dir dirname w) = Raise (OSError errno)) as Hraise.
    { rewrite ensure_dir_eq, (bool_decide_eq_false_2 _ Hnot), Hf.
      apply Z.eqb_neq in Hne. now rewrite Hne. }
    split; [exact Hraise|].
    intros cfg s p HN <-. now apply session_aborts.
Qed.

(** A disk on which the session directory of [new_year] is there already. *)
Lemma ensure_dir_idempotent_witness :
  let d := Naming.get_base_filename_for_images "/b" new_year in
  let w := set_dirs {[ d ]} fresh_world in
  ensure_dir d w = mkOut (Ok tt) w [EMakedirs d] /\
  ensure_dir d (st (ensure_dir d w)) = mkOut (Ok tt) (st (ensure_dir d w)) [EMakedirs d] /\
  res (session (shipped "/b") {| i := 0; overlay_1 := Renderer 0; overlay_2 := Renderer 1 |}
         press_poll read_only_world) = Raise (OSError EACCES).
Proof.
  cbv zeta.
  pose proof (ensure_dir_idempotent (Naming.get_base_filename_for_images "/b" new_year)
                (set_dirs {[ Naming.get_base_filename_for_images "/b" new_year ]} fresh_world))
    as (H1 & H2 & _).
  pose proof (ensure_dir_idempotent (Naming.get_base_filename_for_images "/b" new_year)
                read_only_world) as (_ & _ & H3).
  split; [|split].
  - apply H1. cbn [dirs set_dirs]. set_solver.
  - apply H2. rewrite H1; [reflexivity | cbn [dirs set_dirs]; set_solver].
  - refine (proj1 (proj2 (H3 EACCES _ _ _) (shipped "/b") _ press_poll _ _)).
    + cbn [dirs read_only_world]. set_solver.
    + reflexivity.
    + discriminate.
    + cbn. lia.
    + reflexivity.
Defined.

(** * The files of a session *)

Lemma files_written_capture_steps cfg filename_prefix n : forall flash_id first,
  files_written (capture_steps cfg filename_prefix flash_id first n) =
  map (photo_path cfg filename_prefix) (seq first n).
Proof.
  induction n as [|n IH]; intros flash_id first; [reflexivity|].
  cbn [capture_steps seq map]. rewrite files_written_app, IH. reflexivity.
Qed.

Lemma append_inv_tail s : forall s' r, s +:+ r = s' +:+ r -> s = s'.
Proof.
  assert (forall a b, String.length (a +:+ b) = String.length a + String.length b) as Hlen.
  { induction a as [|c a IH]; intros b; [reflexivity|].
    rewrite NamingFacts.append_cons. cbn [String.length]. now rewrite IH. }
  induction s as [|c s IH]; intros [|c' s'] r H.
  - reflexivity.
  - apply (f_equal String.length) in H. rewrite !Hlen in H.
    cbn [String.length] in H. lia.
  - apply (f_equal String.length) in H. rewrite !Hlen in H.
    cbn [String.length] in H. lia.
  - rewrite !NamingFacts.append_cons in H. injection H as -> H.
    f_equal. exact (IH _ _ H).
Qed.

(** Different photo numbers give different paths. *)
Lemma photo_path_inj cfg filename_prefix k k' :
  photo_path cfg filename_prefix k = photo_path cfg filename_prefix k' -> k = k'.
Proof.
  unfold photo_path, photo_name. intros H.
  do 2 apply NamingFacts.append_inv_head in H.
  apply append_inv_tail in H.
  exact (pretty_nat_inj _ _ H).
Qed.

Lemma session_files cfg s p w :
  completed (session cfg s p w) = true ->
  files_written (out (session cfg s p w)) =
  map (photo_path cfg (Naming.get_base_filename_for_images (REAL_PATH cfg) (now p)))
      (seq 1 (total_pics cfg)).
Proof.
  intros Hdone.
  set (prefix := Naming.get_base_filename_for_images (REAL_PATH cfg) (now p)).
  unfold completed in Hdone. rewrite session_eq in *. cbv zeta in *.
  fold prefix in Hdone |- *.
  destruct (res (capture_photos cfg prefix (st (begin_session cfg s w))))
    as [[]|e] eqn:E; [|discriminate Hdone].
  cbn [out]. rewrite !files_written_app.
  rewrite (harmless_writes_nothing _ (begin_session_harmless cfg s w)).
  rewrite (harmless_writes_nothing _ (end_session_harmless cfg s p prefix _)).
  rewrite app_nil_r. cbn [app].
  destruct (capture_iterations_order_aux cfg prefix _ E) as [-> _].
  apply files_written_capture_steps.
Qed.

(** C1: a session that runs to completion writes exactly the files
    [prefix/1ofN.jpg] ... [prefix/NofN.jpg], once each and in this order,
    where [N] is [total_pics] and [prefix] the session's base name: [N]
    files with [N] different names, and nothing else. *)
Theorem session_writes_photos (cfg : Config) (s : idle) (p : poll) (w : World) :
  completed (session cfg s p w) = true ->
  files_written (out (session cfg s p w)) =
    map (fun k => Naming.get_base_filename_for_images (REAL_PATH cfg) (now p) +:+ "/" +:+
                  pretty k +:+ "of" +:+ pretty (total_pics cfg) +:+ ".jpg")
        (seq 1 (total_pics cfg)) /\
  List.length (files_written (out (session cfg s p w))) = total_pics cfg /\
  NoDup (files_written (out (session cfg s p w))).
Proof.
  intros Hdone.
  set (prefix := Naming.get_base_filename_for_images (REAL_PATH cfg) (now p)).
  pose proof (session_files cfg s p w Hdone) as Hfiles. fold prefix in Hfiles.
  rewrite Hfiles. split; [reflexivity|]. split.
  - now rewrite length_map, length_seq.
  - assert (Inj eq eq (photo_path cfg prefix)) as Hinj
      by (intros k k'; apply photo_path_inj).
    apply (NoDup_fmap_2 (photo_path cfg prefix)), NoDup_seq.
Qed.

Lemma session_writes_photos_witness :
  files_written (out (session (shipped "/b")
     {| i := 0; overlay_1 := Renderer 0; overlay_2 := Renderer 1 |} press_poll fresh_world)) =
  [ "/b/photos/2017-12-31_23-59-59/1of4.jpg"; "/b/photos/2017-12-31_23-59-59/2of4.jpg";
    "/b/photos/2017-12-31_23-59-59/3of4.jpg"; "/b/photos/2017-12-31_23-59-59/4of4.jpg" ].
Proof.
  refine (eq_trans (proj1 (session_writes_photos (shipped "/b") _ press_poll fresh_world _)) _).
  - vm_compute. reflexivity.
  - vm_compute. reflexivity.
Defined.

(** * Playback *)

Lemma overlay_image_persistent image d layer w :
  positive_duration d = false ->
  res (overlay_image image d layer w) = Ok (Renderer (next_overlay w)) /\
  out (overlay_image image d layer w) =
    [EAddOverlay (next_overlay w) image; ESetLayer (next_overlay w) layer] /\
  next_overlay (st (overlay_image image d layer w)) = S (next_overlay w).
Proof.
  intros Hd. unfold overlay_image, bind, camera_add_overlay, set_layer, get, modify, emit, ret.
  rewrite Hd. repeat split.
Qed.

Lemma overlay_image_timed image d layer w :
  positive_duration d = true ->
  res (overlay_image image d layer w) = Ok NoOverlay /\
  out (overlay_image image d layer w) =
    [EAddOverlay (next_overlay w) image; ESetLayer (next_overlay w) layer;
     ESleep d; ERemoveOverlay (next_overlay w)] /\
  next_overlay (st (overlay_image image d layer w)) = S (next_overlay w).
Proof.
  intros Hd. unfold overlay_image, bind, camera_add_overlay, set_layer, sleep,
    camera_remove_overlay, get, modify, emit, ret.
  rewrite Hd. repeat split.
Qed.

Lemma remove_overlay_renderer id w :
  res (remove_overlay (Renderer id) w) = Ok tt /\
  out (remove_overlay (Renderer id) w) = [ERemoveOverlay id] /\
  next_overlay (st (remove_overlay (Renderer id) w)) = next_overlay w.
Proof. repeat split. Qed.

(** Each turn of the loop adds the new photo, then removes what was on
    screen, then waits. *)
Lemma playback_loop_steps cfg filename_prefix count : forall first prev w,
  next_overlay w = S prev ->
  let o := playback_loop cfg filename_prefix (seq first count) (Renderer prev) w in
  res o = Ok (Renderer (prev + count)) /\
  out o = slideshow_steps cfg filename_prefix prev first count /\
  next_overlay (st o) = S (prev + count).
Proof.
  induction count as [|count IH]; intros first prev w Hn; cbv zeta.
  - cbn [seq playback_loop slideshow_steps]. cbn [ret res st out].
    rewrite Nat.add_0_r. auto.
  - cbn [seq playback_loop slideshow_steps]. cbv zeta.
    set (filename := photo_path cfg filename_prefix first).
    set (layer := (3 + Z.of_nat (total_pics cfg))%Z).
    destruct (overlay_image_persistent filename py_False layer w eq_refl) as (R1 & O1 & N1).
    rewrite (bind_ok _ _ _ _ R1). cbn [truthy].
    set (w1 := st (overlay_image filename py_False layer w)) in *.
    destruct (remove_overlay_renderer prev w1) as (R2 & O2 & N2).
    rewrite (bind_ok _ _ _ _ R2).
    set (w2 := st (remove_overlay (Renderer prev) w1)) in *.
    assert (res (sleep 1 w2) = Ok tt) as R3 by reflexivity.
    rewrite (bind_ok _ _ _ _ R3).
    change (st (sleep 1 w2)) with w2. change (out (sleep 1 w2)) with [ESleep 1].
    rewrite Hn in *.
    assert (next_overlay w2 = S (S prev)) as Hn2 by congruence.
    destruct (IH (S first) (S prev) w2 Hn2) as (R & O & N).
    cbn [res st out]. rewrite R, O, N, O1, O2.
    replace (S prev + count) with (prev + S count) by lia.
    repeat split.
Qed.

Lemma playback_screen_steps cfg filename_prefix w :
  res (playback_screen cfg filename_prefix w) = Ok tt /\
  out (playback_screen cfg filename_prefix w) =
    playback_opening cfg (next_overlay w) ++
    slideshow_steps cfg filename_prefix (next_overlay w) 1 (total_pics cfg) ++
    playback_closing cfg (next_overlay w + total_pics cfg).
Proof.
  split; [apply total_unit, playback_screen_total|].
  unfold playback_screen. cbv zeta.
  rewrite (bind_ok (print "Processing...") _ w tt eq_refl).
  change (st (print "Processing..." w)) with w.
  change (out (print "Processing..." w)) with [EPrint "Processing..."].
  set (processing := REAL_PATH cfg +:+ "/assets/processing.png").
  destruct (overlay_image_persistent processing 0 3 w eq_refl) as (R1 & O1 & N1).
  rewrite (bind_ok _ _ _ _ R1).
  set (w1 := st (overlay_image processing 0 3 w)) in *.
  destruct (playback_loop_steps cfg filename_prefix (total_pics cfg) 1 _ w1 N1)
    as (R2 & O2 & N2).
  rewrite (bind_ok _ _ _ _ R2).
  set (w2 := st (playback_loop cfg filename_prefix (seq 1 (total_pics cfg))
                   (Renderer (next_overlay w)) w1)) in *.
  set (last := next_overlay w + total_pics cfg) in *.
  destruct (remove_overlay_renderer last w2) as (R3 & O3 & N3).
  rewrite (bind_ok _ _ _ _ R3).
  set (w3 := st (remove_overlay (Renderer last) w2)) in *.
  rewrite (bind_ok (print "All done!") _ w3 tt eq_refl).
  change (st (print "All done!" w3)) with w3.
  change (out (print "All done!" w3)) with [EPrint "All done!"].
  set (finished := REAL_PATH cfg +:+ "/assets/all_done.png").
  destruct (overlay_image_timed finished 20 3 w3 eq_refl) as (R4 & O4 & N4).
  rewrite (bind_ok _ _ _ _ R4).
  cbn [res st out ret]. rewrite O1, O2, O3, O4, N3, N2.
  unfold playback_opening, playback_closing. cbn [app].
  rewrite <- ?app_assoc. cbn [app]. reflexivity.
Qed.

Lemma slideshow_steps_split cfg filename_prefix j : forall count prev first,
  j < count ->
  slideshow_steps cfg filename_prefix prev first count =
  slideshow_steps cfg filename_prefix prev first j ++
  [ EAddOverlay (S (prev + j)) (photo_path cfg filename_prefix (first + j));
    ESetLayer (S (prev + j)) (3 + Z.of_nat (total_pics cfg));
    ERemoveOverlay (prev + j);
    ESleep 1 ] ++
  slideshow_steps cfg filename_prefix (S (prev + j)) (S (first + j)) (count - S j).
Proof.
  induction j as [|j IH]; intros [|count] prev first Hj; try lia.
  - replace (S count - 1) with count by lia.
    cbn [slideshow_steps app]. rewrite !Nat.add_0_r. reflexivity.
  - cbn [slideshow_steps]. rewrite (IH count (S prev) (S first)) by lia.
    replace (S prev + j) with (prev + S j) by lia.
    replace (S first + j) with (first + S j) by lia.
    replace (S count - S (S j)) with (count - S j) by lia.
    cbn [app]. reflexivity.
Qed.

Lemma slideshow_never_blank cfg filename_prefix count : forall prev first,
  never_blank [prev] (slideshow_steps cfg filename_prefix prev first count) = true /\
  fold_left replay (slideshow_steps cfg filename_prefix prev first count) [prev] =
    [prev + count].
Proof.
  induction count as [|count IH]; intros prev first.
  - cbn. now rewrite Nat.add_0_r.
  - cbn [slideshow_steps app never_blank fold_left replay List.filter negb].
    rewrite Nat.eqb_refl.
    replace (Nat.eqb (S prev) prev) with false
      by (symmetry; apply Nat.eqb_neq; lia).
    cbn [negb List.filter app].
    replace (prev + S count) with (S prev + count) by lia.
    apply IH.
Qed.

(** C2: a playback that completes (every image it opens is readable and
    nothing interrupts its waits) made these calls: the processing overlay
    is added; then for each photo from 1 to [total_pics] the photo's overlay
    is added and only then the overlay on screen before it is removed (the
    processing overlay for photo 1, the overlay of photo [i - 1] for photo
    [i]), followed by a one-second wait; then the last overlay is removed
    and the all-done overlay is shown for 20 seconds and removed.  From the
    processing overlay to the end of the slideshow the screen holds at least
    one of these overlays after every call. *)
Theorem playback_crossfade (cfg : Config) (filename_prefix : string) (w : World) :
  res (playback_screen cfg filename_prefix w) = Ok tt ->
  out (playback_screen cfg filename_prefix w) =
    playback_opening cfg (next_overlay w) ++
    slideshow_steps cfg filename_prefix (next_overlay w) 1 (total_pics cfg) ++
    playback_closing cfg (next_overlay w + total_pics cfg) /\
  (forall n, 1 <= n <= total_pics cfg ->
     exists before after,
       slideshow_steps cfg filename_prefix (next_overlay w) 1 (total_pics cfg) =
       before ++
       [ EAddOverlay (next_overlay w + n) (photo_path cfg filename_prefix n);
         ESetLayer (next_overlay w + n) (3 + Z.of_nat (total_pics cfg));
         ERemoveOverlay (next_overlay w + n - 1);
         ESleep 1 ] ++ after) /\
  fold_left replay (playback_opening cfg (next_overlay w)) [] = [next_overlay w] /\
  never_blank [next_overlay w]
    (slideshow_steps cfg filename_prefix (next_overlay w) 1 (total_pics cfg)) = true /\
  fold_left replay
    (slideshow_steps cfg filename_prefix (next_overlay w) 1 (total_pics cfg))
    [next_overlay w] = [next_overlay w + total_pics cfg] /\
  fold_left replay (playback_closing cfg (next_overlay w + total_pics cfg))
    [next_overlay w + total_pics cfg] = [].
Proof.
  intros _.
  destruct (playback_screen_steps cfg filename_prefix w) as [_ Hout].
  destruct (slideshow_never_blank cfg filename_prefix (total_pics cfg) (next_overlay w) 1)
    as [Hnb Hlast].
  repeat split; try assumption.
  - intros n Hn.
    eexists. eexists.
    rewrite (slideshow_steps_split cfg filename_prefix (n - 1) (total_pics cfg)
               (next_overlay w) 1) by lia.
    replace (S (next_overlay w + (n - 1))) with (next_overlay w + n) by lia.
    replace (1 + (n - 1)) with n by lia.
    replace (next_overlay w + (n - 1)) with (next_overlay w + n - 1) by lia.
    reflexivity.
  - cbn [playback_closing fold_left replay List.filter negb app].
    rewrite Nat.eqb_refl. cbn [negb List.filter app]. now rewrite Nat.eqb_refl.
Qed.

(** The playback of the four photos of a capture loop that started on a
    fresh world: the four flashes took the overlay ids 0 to 3. *)
Example playback_of_four :
  out (playback_screen (shipped "/b") "/b/photos/s"
         (st (capture_photos (shipped "/b") "/b/photos/s" fresh_world))) =
  [ EPrint "Processing...";
    EAddOverlay 4 "/b/assets/processing.png"; ESetLayer 4 3;
    EAddOverlay 5 "/b/photos/s/1of4.jpg"; ESetLayer 5 7; ERemoveOverlay 4; ESleep 1;
    EAddOverlay 6 "/b/photos/s/2of4.jpg"; ESetLayer 6 7; ERemoveOverlay 5; ESleep 1;
    EAddOverlay 7 "/b/photos/s/3of4.jpg"; ESetLayer 7 7; ERemoveOverlay 6; ESleep 1;
    EAddOverlay 8 "/b/photos/s/4of4.jpg"; ESetLayer 8 7; ERemoveOverlay 7; ESleep 1;
    ERemoveOverlay 8; EPrint "All done!";
    EAddOverlay 9 "/b/assets/all_done.png"; ESetLayer 9 3; ESleep 20; ERemoveOverlay 9 ].
Proof. vm_compute. reflexivity. Qed.

(** * The idle loop *)

Lemma alpha_in_update id alpha l :
  alpha_in id (update_overlay id (fun o =>
     {| o_id := o_id o; o_image := o_image o; o_layer := o_layer o; o_alpha := alpha |}) l) =
  option_map (fun _ => alpha) (alpha_in id l).
Proof.
  induction l as [|o l IH]; [reflexivity|].
  cbn [update_overlay map alpha_in]. fold (update_overlay id) in *.
  destruct (Nat.eqb (o_id o) id) eqn:E; cbn [o_id o_alpha].
  - now rewrite E.
  - now rewrite E, <- IH.
Qed.

(** What a turn of the loop learns from its sources when no signal
    interrupts the first wait. *)
Lemma read_inputs_eq cfg p w :
  interrupted p = None ->
  read_inputs cfg p w =
  match exit_edge p with
  | Some e => mkOut (Ok (Some e, option_map Channel (camera_edge p))) w waits
  | None =>
      let n := in_waiting w + serial_bytes p in
      if Nat.ltb 0 n
      then mkOut (Ok (None, Some PyTrue)) (set_in_waiting 0 (set_in_waiting n w))
                 (waits ++ [EPrint "External button pressed"; ESerialReset])
      else mkOut (Ok (None, if TESTMODE_AUTOPRESS_BUTTON cfg then Some PyTrue
                            else option_map Channel (camera_edge p)))
                 (set_in_waiting n w) waits
  end.
Proof.
  intros Hi. unfold read_inputs, GPIO_wait_for_edge, serial_receive,
    ser_reset_input_buffer, print. rewrite Hi.
  unfold bind, emit, ret, get, modify.
  destruct (exit_edge p) as [e|]; [reflexivity|].
  cbn [in_waiting set_in_waiting]. cbv zeta.
  destruct (Nat.ltb 0 (in_waiting w + serial_bytes p)); [|reflexivity].
  destruct (TESTMODE_AUTOPRESS_BUTTON cfg); reflexivity.
Qed.

(** A turn is its inputs followed by the branch they select. *)
Lemma cycle_eq cfg s p w inputs :
  res (read_inputs cfg p w) = Ok inputs ->
  cycle cfg s p w =
  let o := read_inputs cfg p w in
  let o' := match trigger_of inputs with
            | TExit => ret Return (st o)
            | TNone => blink s (st o)
            | TCapture => session cfg s p (st o)
            end in
  mkOut (res o') (st o') (out o ++ out o').
Proof.
  intros H. unfold cycle. rewrite (bind_ok _ _ _ _ H). cbv zeta.
  destruct inputs as [[e|] [x|]]; reflexivity.
Qed.

(** One silent turn: the two waits, then the blink branch. *)
Lemma silent_cycle cfg s p w :
  TESTMODE_AUTOPRESS_BUTTON cfg = false -> silent p -> in_waiting w = 0 ->
  res (read_inputs cfg p w) = Ok (None, None) /\
  cycle cfg s p w =
    mkOut (res (blink s (set_in_waiting 0 w)))
          (st (blink s (set_in_waiting 0 w)))
          (waits ++ out (blink s (set_in_waiting 0 w))).
Proof.
  intros Hauto (Hi & Hc & He & Hb) Hw.
  assert (read_inputs cfg p w = mkOut (Ok (None, None)) (set_in_waiting 0 w) waits) as Hr.
  { rewrite (read_inputs_eq _ _ _ Hi), He, Hb, Hw, Hauto, Hc. reflexivity. }
  split; [now rewrite Hr|].
  rewrite (cycle_eq cfg s p w (None, None)) by now rewrite Hr.
  rewrite Hr. reflexivity.
Qed.

(** The blink branch at counter value [k]. *)
Lemma silent_turn cfg k o1 id p w :
  TESTMODE_AUTOPRESS_BUTTON cfg = false -> silent p -> in_waiting w = 0 ->
  cycle cfg {| i := k; overlay_1 := o1; overlay_2 := Renderer id |} p w =
  if Nat.eqb (k + 1) 2 then
    mkOut (Ok (Continue {| i := k + 1; overlay_1 := o1; overlay_2 := Renderer id |}))
          (with_alpha id 255 (set_in_waiting 0 w)) (waits ++ [ESetAlpha id 255])
  else if Nat.eqb (k + 1) 4 then
    mkOut (Ok (Continue {| i := 0; overlay_1 := o1; overlay_2 := Renderer id |}))
          (with_alpha id 0 (set_in_waiting 0 w)) (waits ++ [ESetAlpha id 0])
  else
    mkOut (Ok (Continue {| i := k + 1; overlay_1 := o1; overlay_2 := Renderer id |}))
          (set_in_waiting 0 w) waits.
Proof.
  intros Hauto Hp Hw.
  destruct (silent_cycle cfg {| i := k; overlay_1 := o1; overlay_2 := Renderer id |}
              p w Hauto Hp Hw) as [_ ->].
  unfold blink, blink_speed. cbn [i overlay_1 overlay_2 Nat.mul Nat.add].
  destruct (Nat.eqb (k + 1) 2); [reflexivity|].
  destruct (Nat.eqb (k + 1) 4); reflexivity.
Qed.

Lemma main_loop_continue cfg p rest s w s' w' t :
  cycle cfg s p w = mkOut (Ok (Continue s')) w' t ->
  main_loop cfg (p :: rest) s w =
  mkOut (res (main_loop cfg rest s' w')) (st (main_loop cfg rest s' w'))
        (t ++ out (main_loop cfg rest s' w')).
Proof.
  intros H. cbn [main_loop].
  rewrite (bind_ok _ _ _ (Continue s')) by now rewrite H.
  now rewrite H.
Qed.

Lemma main_loop_stop cfg p rest s w c w' t :
  cycle cfg s p w = mkOut (Ok c) w' t -> c = Return \/ c = Break ->
  main_loop cfg (p :: rest) s w = mkOut (Ok Returned) w' t.
Proof.
  intros H Hc. cbn [main_loop].
  rewrite (bind_ok _ _ _ c) by now rewrite H.
  rewrite H. cbn [res st out]. destruct Hc as [-> | ->]; cbn; now rewrite app_nil_r.
Qed.

Lemma session_no_set_alpha cfg s p : emits_only no_set_alpha (session cfg s p).
Proof.
  unfold session, begin_session, capture_photos, end_session, taking_photo,
    ensure_dir, os_makedirs, playback_screen, prep_for_photo_screen, print_overlay,
    camera_capture, serial_receive, ser_reset_input_buffer, print, sleep.
  assert (forall image d layer, emits_only no_set_alpha (overlay_image image d layer)) as Ho.
  { intros. unfold overlay_image, camera_add_overlay, set_layer, sleep,
      camera_remove_overlay. emits. }
  assert (forall h, emits_only no_set_alpha (remove_overlay h)) as Hr.
  { intros. unfold remove_overlay, camera_remove_overlay. emits. }
  assert (forall l prev, emits_only no_set_alpha
            (playback_loop cfg (Naming.get_base_filename_for_images (REAL_PATH cfg) (now p))
               l prev)) as Hl.
  { induction l as [|k l IH]; intros prev; cbn [playback_loop]; unfold sleep.
    - apply emits_only_ret.
    - emits; first [apply Ho | apply Hr | apply IH]. }
  cbv zeta.
  emits; first [apply Ho | apply Hr | apply Hl].
Qed.

Lemma alpha_of_with_alpha id alpha w :
  alpha_of id (with_alpha id alpha w) = option_map (fun _ => alpha) (alpha_of id w).
Proof. apply alpha_in_update. Qed.

Lemma read_inputs_no_set_alpha cfg p : emits_only no_set_alpha (read_inputs cfg p).
Proof.
  unfold read_inputs, GPIO_wait_for_edge, serial_receive, ser_reset_input_buffer, print.
  emits.
Qed.

Lemma session_starts cfg s p w :
  exists t, out (session cfg s p w) =
            EPrint "Button pressed! You folks are in for a treat!" :: t.
Proof.
  rewrite session_eq. cbv zeta.
  assert (exists t0, out (begin_session cfg s w) =
            EPrint "Button pressed! You folks are in for a treat!" :: t0) as [t0 H0].
  { unfold begin_session.
    rewrite (bind_ok (print "Button pressed! You folks are in for a treat!") _ w tt eq_refl).
    cbn [out print emit app]. eauto. }
  destruct (res (capture_photos _ _ _)); cbn [out]; rewrite H0; cbn [app]; eauto.
Qed.

(** C3: with [blink_speed = 2] and the counter at 0, two silent turns in a
    row end with overlay 2 made opaque (alpha 255, nothing being set on the
    first turn), four end with it made transparent (alpha 0) and the
    counter back at 0; and when a turn yields a capture event the loop goes
    straight to a session, whatever the counter is: the turn is the reading
    of the inputs followed by the session, which opens with its greeting,
    and no alpha is set. *)
Theorem idle_blink_cycle (cfg : Config) (o1 : handle) (id2 : nat) (a0 : Z)
    (p1 p2 p3 p4 : poll) (w : World) :
  TESTMODE_AUTOPRESS_BUTTON cfg = false ->
  silent p1 -> silent p2 -> silent p3 -> silent p4 ->
  in_waiting w = 0 -> alpha_of id2 w = Some a0 ->
  out (main_loop cfg [p1] {| i := 0; overlay_1 := o1; overlay_2 := Renderer id2 |} w) = waits /\
  (res (main_loop cfg [p1; p2] {| i := 0; overlay_1 := o1; overlay_2 := Renderer id2 |} w) =
     Ok (Polling {| i := 2; overlay_1 := o1; overlay_2 := Renderer id2 |}) /\
   out (main_loop cfg [p1; p2] {| i := 0; overlay_1 := o1; overlay_2 := Renderer id2 |} w) =
     waits ++ waits ++ [ESetAlpha id2 255] /\
   alpha_of id2
     (st (main_loop cfg [p1; p2] {| i := 0; overlay_1 := o1; overlay_2 := Renderer id2 |} w)) =
     Some 255%Z) /\
  out (main_loop cfg [p1; p2; p3] {| i := 0; overlay_1 := o1; overlay_2 := Renderer id2 |} w) =
    waits ++ waits ++ [ESetAlpha id2 255] ++ waits /\
  (res (main_loop cfg [p1; p2; p3; p4]
          {| i := 0; overlay_1 := o1; overlay_2 := Renderer id2 |} w) =
     Ok (Polling {| i := 0; overlay_1 := o1; overlay_2 := Renderer id2 |}) /\
   out (main_loop cfg [p1; p2; p3; p4]
          {| i := 0; overlay_1 := o1; overlay_2 := Renderer id2 |} w) =
     waits ++ waits ++ [ESetAlpha id2 255] ++ waits ++ waits ++ [ESetAlpha id2 0] /\
   alpha_of id2
     (st (main_loop cfg [p1; p2; p3; p4]
            {| i := 0; overlay_1 := o1; overlay_2 := Renderer id2 |} w)) = Some 0%Z) /\
  (forall k p w' inputs,
     res (read_inputs cfg p w') = Ok inputs -> trigger_of inputs = TCapture ->
     cycle cfg {| i := k; overlay_1 := o1; overlay_2 := Renderer id2 |} p w' =
       mkOut (res (session cfg {| i := k; overlay_1 := o1; overlay_2 := Renderer id2 |} p
                     (st (read_inputs cfg p w'))))
             (st (session cfg {| i := k; overlay_1 := o1; overlay_2 := Renderer id2 |} p
                    (st (read_inputs cfg p w'))))
             (out (read_inputs cfg p w') ++
              out (session cfg {| i := k; overlay_1 := o1; overlay_2 := Renderer id2 |} p
                     (st (read_inputs cfg p w')))) /\
     forallb no_set_alpha
       (out (cycle cfg {| i := k; overlay_1 := o1; overlay_2 := Renderer id2 |} p w')) = true /\
     exists t,
       out (session cfg {| i := k; overlay_1 := o1; overlay_2 := Renderer id2 |} p
              (st (read_inputs cfg p w'))) =
       EPrint "Button pressed! You folks are in for a treat!" :: t).
Proof.
  intros Hauto H1 H2 H3 H4 Hw Ha.
  pose proof (silent_turn cfg 0 o1 id2 p1 w Hauto H1 Hw) as T1.
  cbn [Nat.add Nat.eqb] in T1.
  set (w1 := set_in_waiting 0 w) in *.
  pose proof (silent_turn cfg 1 o1 id2 p2 w1 Hauto H2 eq_refl) as T2.
  cbn [Nat.add Nat.eqb] in T2.
  set (w2 := with_alpha id2 255 (set_in_waiting 0 w1)) in *.
  pose proof (silent_turn cfg 2 o1 id2 p3 w2 Hauto H3 eq_refl) as T3.
  cbn [Nat.add Nat.eqb] in T3.
  set (w3 := set_in_waiting 0 w2) in *.
  pose proof (silent_turn cfg 3 o1 id2 p4 w3 Hauto H4 eq_refl) as T4.
  cbn [Nat.add Nat.eqb] in T4.
  split; [|split; [|split; [|split]]].
  - rewrite (main_loop_continue _ _ _ _ _ _ _ _ T1).
    cbn [main_loop ret res st out]. apply app_nil_r.
  - rewrite (main_loop_continue _ _ _ _ _ _ _ _ T1),
            (main_loop_continue _ _ _ _ _ _ _ _ T2).
    cbn [main_loop ret res st out]. rewrite app_nil_r.
    repeat split.
    unfold w2. rewrite alpha_of_with_alpha.
    change (alpha_of id2 (set_in_waiting 0 w1)) with (alpha_of id2 w).
    now rewrite Ha.
  - rewrite (main_loop_continue _ _ _ _ _ _ _ _ T1),
            (main_loop_continue _ _ _ _ _ _ _ _ T2),
            (main_loop_continue _ _ _ _ _ _ _ _ T3).
    cbn [main_loop ret res st out]. rewrite app_nil_r, <- !app_assoc. reflexivity.
  - rewrite (main_loop_continue _ _ _ _ _ _ _ _ T1),
            (main_loop_continue _ _ _ _ _ _ _ _ T2),
            (main_loop_continue _ _ _ _ _ _ _ _ T3),
            (main_loop_continue _ _ _ _ _ _ _ _ T4).
    cbn [main_loop ret res st out]. rewrite app_nil_r, <- !app_assoc.
    repeat split.
    rewrite alpha_of_with_alpha.
    change (alpha_of id2 (set_in_waiting 0 w3)) with (alpha_of id2 w2).
    unfold w2. rewrite alpha_of_with_alpha.
    change (alpha_of id2 (set_in_waiting 0 w1)) with (alpha_of id2 w).
    now rewrite Ha.
  - intros k p w' inputs Hin Htr.
    pose proof (cycle_eq cfg {| i := k; overlay_1 := o1; overlay_2 := Renderer id2 |}
                  p w' inputs Hin) as Hc.
    rewrite Htr in Hc. cbv zeta in Hc.
    split; [exact Hc|]. split; [|apply session_starts].
    rewrite Hc. cbn [out]. rewrite forallb_app.
    now rewrite read_inputs_no_set_alpha, session_no_set_alpha.
Qed.

Lemma idle_blink_cycle_witness :
  out (main_loop (shipped "/b") [quiet_poll; quiet_poll; quiet_poll; quiet_poll]
         {| i := 0; overlay_1 := Renderer 0; overlay_2 := Renderer 1 |}
         (st (main (shipped "/b") [] fresh_world))) =
  waits ++ waits ++ [ESetAlpha 1 255] ++ waits ++ waits ++ [ESetAlpha 1 0].
Proof.
  refine (proj1 (proj2 (proj1 (proj2 (proj2 (proj2
    (idle_blink_cycle (shipped "/b") (Renderer 0) 1 255 quiet_poll quiet_poll quiet_poll
       quiet_poll (st (main (shipped "/b") [] fresh_world)) _ _ _ _ _ _ _))))))).
  - reflexivity.
  - repeat split.
  - repeat split.
  - repeat split.
  - repeat split.
  - reflexivity.
  - reflexivity.
Defined.

(** * The main program *)

Lemma bind_emit {B} (e : event) (f : unit -> M B) w :
  bind (emit e) f w = mkOut (res (f tt w)) (st (f tt w)) (e :: out (f tt w)).
Proof. unfold bind, emit. now destruct (f tt w). Qed.

(** [main] shows the intro screen and enters the loop. *)
Lemma main_eq cfg polls w :
  main cfg polls w =
  let s0 := {| i := 0; overlay_1 := Renderer (next_overlay w);
               overlay_2 := Renderer (S (next_overlay w)) |} in
  let o := main_loop cfg polls s0 (st (main cfg [] w)) in
  mkOut (res o) (st o) (intro_steps cfg (next_overlay w) ++ out o).
Proof.
  unfold main, print. rewrite !bind_emit. cbv zeta. cbn [res st out].
  destruct (overlay_image_persistent (intro_image_1 cfg) 0 3 w eq_refl) as (R1 & O1 & N1).
  rewrite !(bind_ok _ _ _ _ R1). cbn [res st out].
  set (w1 := st (overlay_image (intro_image_1 cfg) 0 3 w)) in *.
  destruct (overlay_image_persistent (intro_image_2 cfg) 0 4 w1 eq_refl) as (R2 & O2 & N2).
  rewrite !(bind_ok _ _ _ _ R2). cbn [res st out main_loop ret].
  rewrite O1, O2, N1. unfold intro_steps. cbn [app]. reflexivity.
Qed.

(** C5: in a turn of the idle loop in which the exit button fires, the
    turn yields Exit whatever the photo button, the serial line and the
    auto-press flag say: the program returns from the loop after the two
    waits, without reading the serial line and without starting a session,
    and the process ends with the release of the camera and the GPIO. *)
Theorem exit_takes_precedence (cfg : Config) (s : idle) (p : poll) (rest : list poll)
    (w : World) (e : Z) :
  interrupted p = None -> exit_edge p = Some e ->
  (exists inputs, res (read_inputs cfg p w) = Ok inputs /\ trigger_of inputs = TExit) /\
  cycle cfg s p w = mkOut (Ok Return) w waits /\
  main_loop cfg (p :: rest) s w = mkOut (Ok Returned) w waits /\
  res (program cfg (p :: rest) w) = Ok (Exited None) /\
  out (program cfg (p :: rest) w) =
    intro_steps cfg (next_overlay w) ++ waits ++ release_steps.
Proof.
  intros Hi He.
  pose proof (read_inputs_eq cfg p w Hi) as Hr. rewrite He in Hr.
  assert (forall s' w', read_inputs cfg p w' =
            mkOut (Ok (Some e, option_map Channel (camera_edge p))) w' waits ->
          cycle cfg s' p w' = mkOut (Ok Return) w' waits) as Hc.
  { intros s' w' Hr'. rewrite (cycle_eq cfg s' p w' _ (f_equal res Hr')).
    rewrite Hr'. cbv zeta. cbn [trigger_of res st out ret]. now rewrite app_nil_r. }
  split; [|split; [|split; [|split]]].
  - eexists. rewrite Hr. split; reflexivity.
  - now apply Hc.
  - apply (main_loop_stop cfg p rest s w Return); [now apply Hc | now left].
  - unfold program. rewrite main_eq. cbv zeta.
    erewrite main_loop_stop; [reflexivity| |now left].
    apply Hc. pose proof (read_inputs_eq cfg p (st (main cfg [] w)) Hi) as Hr'.
    now rewrite He in Hr'.
  - unfold program. rewrite main_eq. cbv zeta.
    erewrite main_loop_stop; [| |now left].
    + cbn [res st out teardown]. unfold release_steps. now rewrite <- app_assoc.
    + apply Hc. pose proof (read_inputs_eq cfg p (st (main cfg [] w)) Hi) as Hr'.
      now rewrite He in Hr'.
Qed.

(** Both buttons at once, bytes on the serial line and the auto-press flag
    set: the program leaves without a session. *)
Lemma exit_takes_precedence_witness :
  out (program {| TESTMODE_AUTOPRESS_BUTTON := true; TESTMODE_FAST := false;
                  configured_total_pics := 4; configured_prep_delay := 10;
                  REAL_PATH := "/b" |} [both_poll] fresh_world) =
  intro_steps {| TESTMODE_AUTOPRESS_BUTTON := true; TESTMODE_FAST := false;
                 configured_total_pics := 4; configured_prep_delay := 10;
                 REAL_PATH := "/b" |} 0 ++ waits ++ release_steps.
Proof.
  refine (proj2 (proj2 (proj2 (proj2
    (exit_takes_precedence _ {| i := 0; overlay_1 := NoOverlay; overlay_2 := NoOverlay |}
       both_poll [] fresh_world pin_exit_btn _ _))))).
  - reflexivity.
  - reflexivity.
Defined.

(** * Back to the idle loop *)

(** With the auto-press flag off a session ends by showing the intro screen
    again and emptying the serial input buffer. *)
Lemma end_session_idle cfg s p filename_prefix w :
  TESTMODE_AUTOPRESS_BUTTON cfg = false ->
  exists s' t,
    res (end_session cfg s p filename_prefix w) = Ok (Continue s') /\
    i s' = i s /\
    out (end_session cfg s p filename_prefix w) = t ++ [ESerialReset] /\
    in_waiting (st (end_session cfg s p filename_prefix w)) = 0.
Proof.
  intros Hauto. unfold end_session. rewrite Hauto.
  rewrite (bind_ok _ _ _ _ (total_unit _ w (playback_screen_total cfg filename_prefix))).
  set (w0 := st (playback_screen cfg filename_prefix w)).
  set (t0 := out (playback_screen cfg filename_prefix w)).
  unfold serial_receive, ser_reset_input_buffer, print.
  rewrite (bind_ok (modify _) _ w0 tt eq_refl). cbn [modify res st out].
  set (w1 := set_in_waiting (in_waiting w0 + session_bytes p) w0).
  destruct (overlay_image_persistent (intro_image_1 cfg) 0 3 w1 eq_refl) as (R1 & O1 & N1).
  rewrite (bind_ok _ _ _ _ R1). cbn [res st out].
  set (w2 := st (overlay_image (intro_image_1 cfg) 0 3 w1)) in *.
  destruct (overlay_image_persistent (intro_image_2 cfg) 0 4 w2 eq_refl) as (R2 & O2 & N2).
  rewrite (bind_ok _ _ _ _ R2). cbn [res st out].
  rewrite bind_emit. cbn [res st out].
  eexists. exists (t0 ++ out (overlay_image (intro_image_1 cfg) 0 3 w1) ++
                   out (overlay_image (intro_image_2 cfg) 0 4 w2) ++
                   [EPrint "Press the button to take a photo"]).
  repeat split.
  rewrite <- !app_assoc. reflexivity.
Qed.

(** C10: with the auto-press flag off, a session that completes ends by
    resetting the serial input buffer: its last call is the reset, the
    buffer is empty however many bytes arrived while the session ran, the
    loop goes on, and a following turn in which no source fires yields no
    event and writes no file. *)
Theorem serial_reset_after_session (cfg : Config) (s : idle) (p q : poll) (w : World) :
  TESTMODE_AUTOPRESS_BUTTON cfg = false ->
  completed (session cfg s p w) = true ->
  silent q ->
  in_waiting (st (session cfg s p w)) = 0 /\
  (exists t, out (session cfg s p w) = t ++ [ESerialReset]) /\
  (exists s', res (session cfg s p w) = Ok (Continue s') /\ i s' = i s) /\
  (exists inputs,
     res (read_inputs cfg q (st (session cfg s p w))) = Ok inputs /\
     trigger_of inputs = TNone) /\
  forall s', files_written (out (cycle cfg s' q (st (session cfg s p w)))) = [].
Proof.
  intros Hauto Hdone Hq.
  assert (in_waiting (st (session cfg s p w)) = 0 /\
          (exists t, out (session cfg s p w) = t ++ [ESerialReset]) /\
          (exists s', res (session cfg s p w) = Ok (Continue s') /\ i s' = i s))
    as (Hw & Hout & Hres).
  { unfold completed in Hdone. rewrite session_eq in *. cbv zeta in *.
    set (prefix := Naming.get_base_filename_for_images (REAL_PATH cfg) (now p)) in *.
    destruct (res (capture_photos cfg prefix (st (begin_session cfg s w))))
      as [[]|e]; [|discriminate Hdone].
    destruct (end_session_idle cfg s p prefix
                (st (capture_photos cfg prefix (st (begin_session cfg s w)))) Hauto)
      as (s' & t & R & Hi & O & W).
    cbn [res st out]. rewrite O. split; [exact W|]. split.
    - eexists. rewrite !app_assoc. reflexivity.
    - eauto. }
  destruct (silent_cycle cfg s q _ Hauto Hq Hw) as [Hr _].
  split; [exact Hw|]. split; [exact Hout|]. split; [exact Hres|]. split.
  - eexists. split; [exact Hr | reflexivity].
  - intros s'. destruct (silent_cycle cfg s' q _ Hauto Hq Hw) as [_ ->].
    cbn [out]. apply harmless_writes_nothing. rewrite forallb_app.
    replace (forallb harmless waits) with true by reflexivity.
    assert (emits_only harmless (blink s')) as Hb.
    { unfold blink, set_alpha. emits. }
    apply Hb.
Qed.

(** Five bytes arrive during the session; the next silent turn is silent. *)
Lemma serial_reset_after_session_witness :
  in_waiting (st (session (shipped "/b")
     {| i := 0; overlay_1 := Renderer 0; overlay_2 := Renderer 1 |}
     noisy_press_poll (st (main (shipped "/b") [] fresh_world)))) = 0.
Proof.
  refine (proj1 (serial_reset_after_session (shipped "/b") _ noisy_press_poll quiet_poll
                   (st (main (shipped "/b") [] fresh_world)) _ _ _)).
  - reflexivity.
  - vm_compute. reflexivity.
  - repeat split.
Defined.

(** Without the reset the bytes would start a session on the next turn:
    bytes waiting when a turn reads the serial line are a capture event. *)
Example pending_bytes_trigger :
  res (read_inputs (shipped "/b") quiet_poll (set_in_waiting 5 fresh_world)) =
  Ok (None, Some PyTrue).
Proof. reflexivity. Qed.

(** * Teardown *)

Lemma emits_only_weaken {A} (p q : event -> bool) (m : M A) :
  (forall e, p e = true -> q e = true) -> emits_only p m -> emits_only q m.
Proof.
  intros Hpq Hm w. specialize (Hm w).
  induction (out (m w)) as [|e t IH]; [reflexivity|].
  cbn [forallb] in *. apply andb_true_iff in Hm as [He Ht].
  now rewrite (Hpq e He), (IH Ht).
Qed.

Lemma harmless_no_release e : harmless e = true -> no_release e = true.
Proof. destruct e; (discriminate || reflexivity). Qed.

Lemma capture_photos_no_release cfg filename_prefix :
  emits_only no_release (capture_photos cfg filename_prefix).
Proof.
  unfold capture_photos, taking_photo, print_overlay, camera_capture, print, sleep.
  emits.
Qed.

Lemma session_no_release cfg s p : emits_only no_release (session cfg s p).
Proof.
  unfold session. cbv zeta.
  apply emits_only_bind; [|intros _; apply emits_only_bind; [|intros _]].
  - apply (emits_only_weaken harmless); [apply harmless_no_release | apply begin_session_harmless].
  - apply capture_photos_no_release.
  - apply (emits_only_weaken harmless); [apply harmless_no_release | apply end_session_harmless].
Qed.

Lemma cycle_no_release cfg s p : emits_only no_release (cycle cfg s p).
Proof.
  unfold cycle. apply emits_only_bind.
  - unfold read_inputs, GPIO_wait_for_edge, serial_receive, ser_reset_input_buffer, print.
    emits.
  - intros [[e|] [x|]].
    + apply emits_only_ret.
    + apply emits_only_ret.
    + apply session_no_release.
    + unfold blink, set_alpha. emits.
Qed.

Lemma main_loop_no_release cfg polls : forall s, emits_only no_release (main_loop cfg polls s).
Proof.
  induction polls as [|p rest IH]; intros s; cbn [main_loop].
  - apply emits_only_ret.
  - apply emits_only_bind; [apply cycle_no_release|].
    intros [s'| |]; [apply IH | apply emits_only_ret | apply emits_only_ret].
Qed.

Lemma main_no_release cfg polls : emits_only no_release (main cfg polls).
Proof.
  unfold main, print.
  do 3 (apply emits_only_bind; [apply emits_only_emit; reflexivity | intros _]).
  apply emits_only_bind; [|intros o1; apply emits_only_bind; [|intros o2]].
  - apply (emits_only_weaken harmless); [apply harmless_no_release | apply overlay_image_harmless].
  - apply (emits_only_weaken harmless); [apply harmless_no_release | apply overlay_image_harmless].
  - apply main_loop_no_release.
Qed.

Lemma times_app p t1 t2 : times p (t1 ++ t2) = times p t1 + times p t2.
Proof. unfold times. now rewrite List.filter_app, length_app. Qed.

Lemma times_no_release p t :
  (forall e, p e = true -> is_release e = true) ->
  forallb no_release t = true -> times p t = 0.
Proof.
  intros Hp. induction t as [|e t IH]; [reflexivity|].
  cbn [forallb]. intros H. apply andb_true_iff in H as [He Ht].
  unfold times in *. cbn [List.filter].
  destruct (p e) eqn:E; [|auto].
  apply Hp in E. unfold no_release in He. rewrite E in He. discriminate.
Qed.

(** However [main] ends, the [finally] clause follows it. *)
Lemma program_out cfg polls w e :
  res (program cfg polls w) = Ok (Exited e) ->
  exists t, out (program cfg polls w) = t ++ release_steps /\ forallb no_release t = true.
Proof.
  unfold program. cbv zeta.
  pose proof (main_no_release cfg polls w) as Hmain.
  destruct (res (main cfg polls w)) as [[s|]|e0].
  - discriminate.
  - intros _. exists (out (main cfg polls w)). split; [reflexivity | exact Hmain].
  - intros _. destruct e0.
    + exists (out (main cfg polls w) ++ [EPrint "goodbye"]). cbn [res st out].
      split; [now rewrite <- app_assoc|].
      now rewrite forallb_app, Hmain.
    + exists (out (main cfg polls w)). split; [reflexivity | exact Hmain].
    + exists (out (main cfg polls w) ++ [EPrintError (OSError errno)]). cbn [res st out].
      split; [now rewrite <- app_assoc|].
      now rewrite forallb_app, Hmain.
    + exists (out (main cfg polls w) ++ [EPrintError AttributeError]). cbn [res st out].
      split; [now rewrite <- app_assoc|].
      now rewrite forallb_app, Hmain.
    + exists (out (main cfg polls w) ++ [EPrintError RuntimeError]). cbn [res st out].
      split; [now rewrite <- app_assoc|].
      now rewrite forallb_app, Hmain.
Qed.

(** C9: whenever the process ends -- [main] returned (exit button, or the
    end of the one session of auto-press mode), a keyboard interrupt, or any
    other exception out of [main] -- the last three calls it made are: stop
    the preview, close the camera, clean up the GPIO; and none of the three
    was made before, so each happens exactly once. *)
Theorem release_exactly_once (cfg : Config) (polls : list poll) (w : World)
    (uncaught : option exn) :
  res (program cfg polls w) = Ok (Exited uncaught) ->
  (exists t, out (program cfg polls w) = t ++ [EStopPreview; ECameraClose; EGpioCleanup] /\
             forallb no_release t = true) /\
  times stops_preview (out (program cfg polls w)) = 1 /\
  times closes_camera (out (program cfg polls w)) = 1 /\
  times cleans_gpio (out (program cfg polls w)) = 1.
Proof.
  intros H. destruct (program_out cfg polls w uncaught H) as (t & Hout & Ht).
  split; [exists t; split; assumption|].
  rewrite Hout, !times_app.
  rewrite !(times_no_release _ t) by
    (try exact Ht; intros e He; destruct e; (discriminate He || reflexivity)).
  repeat split.
Qed.

(** The three ways out: the session of auto-press mode is over, Ctrl-C
    while idle, and a session directory that cannot be created. *)
Lemma release_exactly_once_witness :
  times closes_camera (out (program (autopress_only "/b") [quiet_poll] fresh_world)) = 1 /\
  times closes_camera (out (program (shipped "/b") [ctrl_c_poll] fresh_world)) = 1 /\
  times closes_camera (out (program (shipped "/b") [press_poll] read_only_world)) = 1.
Proof.
  split; [|split].
  - refine (proj1 (proj2 (proj2
      (release_exactly_once (autopress_only "/b") [quiet_poll] fresh_world None _)))).
    vm_compute. reflexivity.
  - refine (proj1 (proj2 (proj2
      (release_exactly_once (shipped "/b") [ctrl_c_poll] fresh_world None _)))).
    vm_compute. reflexivity.
  - refine (proj1 (proj2 (proj2
      (release_exactly_once (shipped "/b") [press_poll] read_only_world None _)))).
    vm_compute. reflexivity.
Defined.

Example ctrl_c_while_idle :
  out (program (shipped "/b") [quiet_poll; ctrl_c_poll] fresh_world) =
  intro_steps (shipped "/b") 0 ++ waits ++ [EWaitForEdge pin_camera_btn 400] ++
  [EPrint "goodbye"] ++ release_steps.
Proof. vm_compute. reflexivity. Qed.

Example session_directory_refused :
  out (program (shipped "/b") [press_poll] read_only_world) =
  intro_steps (shipped "/b") 0 ++ waits ++
  [ EPrint "Button pressed! You folks are in for a treat!";
    ERemoveOverlay 1; ERemoveOverlay 0;
    EAddOverlay 2 "/b/assets/get_ready.png"; ESetLayer 2 3; ESleep 10; ERemoveOverlay 2;
    EMakedirs "/b/photos/2017-12-31_23-59-59";
    EPrintError (OSError EACCES) ] ++ release_steps.
Proof. vm_compute. reflexivity. Qed.

(** * The test flags *)

Lemma end_session_break cfg s p filename_prefix w :
  TESTMODE_AUTOPRESS_BUTTON cfg = true ->
  res (end_session cfg s p filename_prefix w) = Ok Break.
Proof.
  intros Hauto. unfold end_session. rewrite Hauto.
  rewrite (bind_ok _ _ _ _ (total_unit _ w (playback_screen_total cfg filename_prefix))).
  reflexivity.
Qed.

(** How a completed session ends is decided by the auto-press flag. *)
Lemma session_end cfg s p w :
  completed (session cfg s p w) = true ->
  if TESTMODE_AUTOPRESS_BUTTON cfg then res (session cfg s p w) = Ok Break
  else exists s', res (session cfg s p w) = Ok (Continue s').
Proof.
  unfold completed. rewrite session_eq. cbv zeta.
  set (prefix := Naming.get_base_filename_for_images (REAL_PATH cfg) (now p)).
  destruct (res (capture_photos cfg prefix (st (begin_session cfg s w))))
    as [[]|e]; [|discriminate].
  intros _. cbn [res].
  destruct (TESTMODE_AUTOPRESS_BUTTON cfg) eqn:Hauto.
  - now apply end_session_break.
  - destruct (end_session_idle cfg s p prefix
                (st (capture_photos cfg prefix (st (begin_session cfg s w)))) Hauto)
      as (s' & t & R & _). eauto.
Qed.

Lemma remove_overlay_steps h w :
  res (remove_overlay h w) = Ok tt /\
  out (remove_overlay h w) = removal h /\
  next_overlay (st (remove_overlay h w)) = next_overlay w.
Proof. destruct h; repeat split. Qed.

(** Leaving the intro screen, call by call, when the preparation delay is
    positive. *)
Lemma begin_session_steps cfg s w :
  positive_duration (inject_Z (prep_delay cfg)) = true ->
  out (begin_session cfg s w) =
    [EPrint "Button pressed! You folks are in for a treat!"] ++
    removal (overlay_2 s) ++ removal (overlay_1 s) ++
    [ EAddOverlay (next_overlay w) (REAL_PATH cfg +:+ "/assets/get_ready.png");
      ESetLayer (next_overlay w) 3;
      ESleep (inject_Z (prep_delay cfg));
      ERemoveOverlay (next_overlay w) ] /\
  next_overlay (st (begin_session cfg s w)) = S (next_overlay w).
Proof.
  intros Hpos. unfold begin_session, print. rewrite bind_emit. cbn [res st out].
  destruct (remove_overlay_steps (overlay_2 s) w) as (R2 & O2 & N2).
  rewrite (bind_ok _ _ _ _ R2). cbn [res st out].
  set (w1 := st (remove_overlay (overlay_2 s) w)) in *.
  destruct (remove_overlay_steps (overlay_1 s) w1) as (R1 & O1 & N1).
  rewrite (bind_ok _ _ _ _ R1). cbn [res st out].
  set (w2 := st (remove_overlay (overlay_1 s) w1)) in *.
  unfold prep_for_photo_screen. cbv zeta.
  destruct (overlay_image_timed (REAL_PATH cfg +:+ "/assets/get_ready.png")
              (inject_Z (prep_delay cfg)) 3 w2 Hpos) as (R & O & N).
  rewrite (bind_ok _ _ _ _ R). cbn [res st out ret].
  rewrite O, O1, O2, N, N1, N2, app_nil_r. split; reflexivity.
Qed.

(** The playback screen uses one renderer for the processing overlay, one
    for each photo and one for the all-done overlay. *)
Lemma playback_screen_next cfg filename_prefix w :
  next_overlay (st (playback_screen cfg filename_prefix w)) =
  S (S (next_overlay w + total_pics cfg)).
Proof.
  unfold playback_screen. cbv zeta.
  rewrite (bind_ok (print "Processing...") _ w tt eq_refl).
  change (st (print "Processing..." w)) with w.
  set (processing := REAL_PATH cfg +:+ "/assets/processing.png").
  destruct (overlay_image_persistent processing 0 3 w eq_refl) as (R1 & O1 & N1).
  rewrite (bind_ok _ _ _ _ R1).
  set (w1 := st (overlay_image processing 0 3 w)) in *.
  destruct (playback_loop_steps cfg filename_prefix (total_pics cfg) 1 _ w1 N1)
    as (R2 & O2 & N2).
  rewrite (bind_ok _ _ _ _ R2).
  set (w2 := st (playback_loop cfg filename_prefix (seq 1 (total_pics cfg))
                   (Renderer (next_overlay w)) w1)) in *.
  set (last := next_overlay w + total_pics cfg) in *.
  destruct (remove_overlay_renderer last w2) as (R3 & O3 & N3).
  rewrite (bind_ok _ _ _ _ R3).
  set (w3 := st (remove_overlay (Renderer last) w2)) in *.
  rewrite (bind_ok (print "All done!") _ w3 tt eq_refl).
  change (st (print "All done!" w3)) with w3.
  set (finished := REAL_PATH cfg +:+ "/assets/all_done.png").
  destruct (overlay_image_timed finished 20 3 w3 eq_refl) as (R4 & O4 & N4).
  rewrite (bind_ok _ _ _ _ R4).
  cbn [res st out ret]. rewrite N4, N3, N2. reflexivity.
Qed.

(** The end of a session, call by call: the playback, then nothing more
    when the auto-press flag is set, and the intro screen and the reset of
    the serial buffer when it is not. *)
Lemma end_session_steps cfg s p filename_prefix w :
  let n := next_overlay (st (playback_screen cfg filename_prefix w)) in
  res (end_session cfg s p filename_prefix w) =
    (if TESTMODE_AUTOPRESS_BUTTON cfg then Ok Break
     else Ok (Continue {| i := i s; overlay_1 := Renderer n; overlay_2 := Renderer (S n) |})) /\
  out (end_session cfg s p filename_prefix w) =
    out (playback_screen cfg filename_prefix w) ++
    (if TESTMODE_AUTOPRESS_BUTTON cfg then []
     else [ EAddOverlay n (intro_image_1 cfg); ESetLayer n 3;
            EAddOverlay (S n) (intro_image_2 cfg); ESetLayer (S n) 4;
            EPrint "Press the button to take a photo"; ESerialReset ]).
Proof.
  cbv zeta. unfold end_session.
  rewrite (bind_ok _ _ _ _ (total_unit _ w (playback_screen_total cfg filename_prefix))).
  set (w0 := st (playback_screen cfg filename_prefix w)).
  set (t0 := out (playback_screen cfg filename_prefix w)).
  unfold serial_receive, ser_reset_input_buffer, print.
  rewrite (bind_ok (modify _) _ w0 tt eq_refl). cbn [modify res st out].
  destruct (TESTMODE_AUTOPRESS_BUTTON cfg); [split; reflexivity|].
  set (w1 := set_in_waiting (in_waiting w0 + session_bytes p) w0).
  destruct (overlay_image_persistent (intro_image_1 cfg) 0 3 w1 eq_refl) as (R1 & O1 & N1).
  rewrite (bind_ok _ _ _ _ R1). cbn [res st out].
  set (w2 := st (overlay_image (intro_image_1 cfg) 0 3 w1)) in *.
  destruct (overlay_image_persistent (intro_image_2 cfg) 0 4 w2 eq_refl) as (R2 & O2 & N2).
  rewrite (bind_ok _ _ _ _ R2). cbn [res st out].
  rewrite bind_emit. cbn [res st out].
  rewrite O1, O2, N1. split; reflexivity.
Qed.

(** The loop on the turns [pre ++ post] is the loop on [pre], and then, if
    it is still polling, the loop on [post]. *)
Lemma main_loop_app cfg post pre : forall s w s',
  res (main_loop cfg pre s w) = Ok (Polling s') ->
  main_loop cfg (pre ++ post) s w =
  mkOut (res (main_loop cfg post s' (st (main_loop cfg pre s w))))
        (st (main_loop cfg post s' (st (main_loop cfg pre s w))))
        (out (main_loop cfg pre s w) ++
         out (main_loop cfg post s' (st (main_loop cfg pre s w)))).
Proof.
  induction pre as [|q pre IH]; intros s w s' H.
  - cbn in H. injection H as <-. cbn [app main_loop ret res st out].
    now destruct (main_loop cfg post s w).
  - cbn [app main_loop] in *. unfold bind in *.
    destruct (cycle cfg s q w) as [[c|e] w1 t1]; [|discriminate H].
    destruct c as [s1| |]; cbn [ret] in *; [|discriminate H|discriminate H].
    assert (res (main_loop cfg pre s1 w1) = Ok (Polling s')) as H1
      by (destruct (main_loop cfg pre s1 w1); exact H).
    rewrite (IH s1 w1 s' H1).
    destruct (main_loop cfg pre s1 w1) as [r2 w2 t2]. cbn [res st out].
    now rewrite app_assoc.
Qed.

Lemma main_app cfg pre post w s :
  res (main cfg pre w) = Ok (Polling s) ->
  main cfg (pre ++ post) w =
  mkOut (res (main_loop cfg post s (st (main cfg pre w))))
        (st (main_loop cfg post s (st (main cfg pre w))))
        (out (main cfg pre w) ++ out (main_loop cfg post s (st (main cfg pre w)))).
Proof.
  rewrite (main_eq cfg (pre ++ post) w), (main_eq cfg pre w). cbv zeta. cbn [res st out].
  intros H. rewrite (main_loop_app cfg post pre _ _ s H). cbn [res st out].
  now rewrite app_assoc.
Qed.

(** C4, as the code has it: with the fast-test flag set [total_pics] is 1
    and the preparation delay one second.  When a turn of a run in that mode
    starts a session that completes, the session's calls are: leave the
    intro screen, show the get-ready overlay for one second, take the one
    photo [prefix/1of1.jpg], play it back, and then, only when the auto-press
    flag is off, show the intro screen again and reset the serial buffer.
    What follows depends on the auto-press flag and not on the fast-test
    flag: when it is set the process ends there with the three release
    calls whatever turns would follow; when it is not the program is still
    running, none of the release calls made, and the loop goes on with the
    turns that follow. *)
Theorem fast_mode_run (cfg : Config) (pre : list poll) (p : poll) (rest : list poll)
    (w : World) (s : idle) (inputs : option Z * option pressed) :
  TESTMODE_FAST cfg = true ->
  res (main cfg pre w) = Ok (Polling s) ->
  res (read_inputs cfg p (st (main cfg pre w))) = Ok inputs ->
  trigger_of inputs = TCapture ->
  completed (session cfg s p (st (read_inputs cfg p (st (main cfg pre w))))) = true ->
  let turn := read_inputs cfg p (st (main cfg pre w)) in
  let run := session cfg s p (st turn) in
  let prefix := Naming.get_base_filename_for_images (REAL_PATH cfg) (now p) in
  let n := next_overlay (st turn) in
  total_pics cfg = 1 /\ prep_delay cfg = 1%Z /\
  out run =
    [EPrint "Button pressed! You folks are in for a treat!"] ++
    removal (overlay_2 s) ++ removal (overlay_1 s) ++
    [ EAddOverlay n (REAL_PATH cfg +:+ "/assets/get_ready.png");
      ESetLayer n 3; ESleep 1; ERemoveOverlay n ] ++
    photo_steps cfg prefix (1 + n) 1 ++
    playback_opening cfg (2 + n) ++
    slideshow_steps cfg prefix (2 + n) 1 1 ++
    playback_closing cfg (3 + n) ++
    (if TESTMODE_AUTOPRESS_BUTTON cfg then []
     else [ EAddOverlay (5 + n) (intro_image_1 cfg); ESetLayer (5 + n) 3;
            EAddOverlay (6 + n) (intro_image_2 cfg); ESetLayer (6 + n) 4;
            EPrint "Press the button to take a photo"; ESerialReset ]) /\
  files_written (out run) = [prefix +:+ "/1of1.jpg"] /\
  (TESTMODE_AUTOPRESS_BUTTON cfg = true ->
   res (program cfg (pre ++ p :: rest) w) = Ok (Exited None) /\
   out (program cfg (pre ++ p :: rest) w) =
     out (main cfg pre w) ++ out turn ++ out run ++ release_steps) /\
  (TESTMODE_AUTOPRESS_BUTTON cfg = false ->
   exists s',
     res run = Ok (Continue s') /\
     res (program cfg (pre ++ [p]) w) = Ok (Running s') /\
     out (program cfg (pre ++ [p]) w) = out (main cfg pre w) ++ out turn ++ out run /\
     times is_release (out (program cfg (pre ++ [p]) w)) = 0 /\
     res (main cfg (pre ++ p :: rest) w) = res (main_loop cfg rest s' (st run))).
Proof.
  intros Hfast Hpre Hin Htr Hdone. cbv zeta.
  set (w0 := st (main cfg pre w)) in *.
  set (w1 := st (read_inputs cfg p w0)) in *.
  set (prefix := Naming.get_base_filename_for_images (REAL_PATH cfg) (now p)).
  assert (total_pics cfg = 1) as HN by (unfold total_pics; now rewrite Hfast).
  assert (prep_delay cfg = 1%Z) as HD by (unfold prep_delay; now rewrite Hfast).
  assert (positive_duration (inject_Z (prep_delay cfg)) = true) as Hpos
    by now rewrite HD.
  (* the session, call by call *)
  assert (out (session cfg s p w1) =
    [EPrint "Button pressed! You folks are in for a treat!"] ++
    removal (overlay_2 s) ++ removal (overlay_1 s) ++
    [ EAddOverlay (next_overlay w1) (REAL_PATH cfg +:+ "/assets/get_ready.png");
      ESetLayer (next_overlay w1) 3; ESleep 1; ERemoveOverlay (next_overlay w1) ] ++
    photo_steps cfg prefix (1 + next_overlay w1) 1 ++
    playback_opening cfg (2 + next_overlay w1) ++
    slideshow_steps cfg prefix (2 + next_overlay w1) 1 1 ++
    playback_closing cfg (3 + next_overlay w1) ++
    (if TESTMODE_AUTOPRESS_BUTTON cfg then []
     else [ EAddOverlay (5 + next_overlay w1) (intro_image_1 cfg);
            ESetLayer (5 + next_overlay w1) 3;
            EAddOverlay (6 + next_overlay w1) (intro_image_2 cfg);
            ESetLayer (6 + next_overlay w1) 4;
            EPrint "Press the button to take a photo"; ESerialReset ])) as Hout.
  { unfold completed in Hdone. rewrite session_eq in *. cbv zeta in *.
    fold prefix in Hdone |- *.
    destruct (begin_session_steps cfg s w1 Hpos) as [O0 N0].
    set (wb := st (begin_session cfg s w1)) in *.
    destruct (res (capture_photos cfg prefix wb)) as [[]|e] eqn:Hcap; [|discriminate Hdone].
    destruct (capture_iterations_order_aux cfg prefix wb Hcap) as [O1 N1].
    set (wc := st (capture_photos cfg prefix wb)) in *.
    destruct (end_session_steps cfg s p prefix wc) as [_ O2].
    destruct (playback_screen_steps cfg prefix wc) as [_ O3].
    pose proof (playback_screen_next cfg prefix wc) as N3.
    cbn [out]. rewrite O2, O3, N3, O1, O0, N1, N0, HN, HD.
    replace (S (next_overlay w1) + 1) with (2 + next_overlay w1) by lia.
    replace (2 + next_overlay w1 + 1) with (3 + next_overlay w1) by lia.
    cbn [capture_steps Nat.add]. rewrite app_nil_r, <- !app_assoc. reflexivity. }
  assert (files_written (out (session cfg s p w1)) = [prefix +:+ "/1of1.jpg"]) as Hfiles.
  { rewrite (session_files cfg s p w1 Hdone), HN.
    cbn [seq map]. unfold photo_path, photo_name. rewrite HN. reflexivity. }
  pose proof (session_end cfg s p w1 Hdone) as Hend.
  pose proof (cycle_eq cfg s p w0 inputs Hin) as Hcycle.
  rewrite Htr in Hcycle. cbv zeta in Hcycle. fold w1 in Hcycle.
  split; [exact HN|]. split; [exact HD|]. split; [exact Hout|]. split; [exact Hfiles|].
  split.
  - intros Hauto. rewrite Hauto in Hend.
    rewrite Hend in Hcycle.
    pose proof (main_loop_stop cfg p rest s w0 Break _ _ Hcycle (or_intror eq_refl)) as Hloop.
    unfold program. rewrite (main_app cfg pre (p :: rest) w s Hpre). fold w0.
    rewrite Hloop. cbn [res st out teardown]. split; [reflexivity|].
    unfold release_steps. rewrite <- !app_assoc. reflexivity.
  - intros Hauto. rewrite Hauto in Hend. destruct Hend as [s' Hres].
    rewrite Hres in Hcycle. exists s'. split; [exact Hres|].
    pose proof (main_loop_continue cfg p [] s w0 s' _ _ Hcycle) as Hone.
    pose proof (main_loop_continue cfg p rest s w0 s' _ _ Hcycle) as Hmore.
    assert (program cfg (pre ++ [p]) w =
            mkOut (Ok (Running s')) (st (session cfg s p w1))
                  (out (main cfg pre w) ++ out (read_inputs cfg p w0) ++
                   out (session cfg s p w1))) as Hprog.
    { unfold program. rewrite (main_app cfg pre [p] w s Hpre). fold w0.
      rewrite Hone. cbn [main_loop ret res st out].
      now rewrite app_nil_r. }
    rewrite Hprog. cbn [res out].
    split; [reflexivity|]. split; [reflexivity|]. split.
    + rewrite !times_app.
      rewrite (times_no_release _ (out (main cfg pre w)));
        [|now intros e He|apply main_no_release].
      rewrite (times_no_release _ (out (session cfg s p w1)));
        [|now intros e He|apply session_no_release].
      rewrite (times_no_release _ (out (read_inputs cfg p w0)));
        [reflexivity|now intros e He|].
      pose proof (cycle_no_release cfg s p w0) as Hc.
      rewrite Hcycle in Hc. cbn [out] in Hc. rewrite forallb_app in Hc.
      now apply andb_true_iff in Hc as [Hc _].
    + rewrite (main_app cfg pre (p :: rest) w s Hpre). fold w0.
      rewrite Hmore. reflexivity.
Qed.

(** The button is pressed in the second turn of a run with the fast-test
    flag alone; and both flags set, where the first turn starts the
    session. *)
Lemma fast_mode_run_witness :
  files_written (out (session (fast_only "/b")
     {| i := 1; overlay_1 := Renderer 0; overlay_2 := Renderer 1 |} press_poll
     (st (read_inputs (fast_only "/b") press_poll
            (st (main (fast_only "/b") [quiet_poll] fresh_world)))))) =
  [Naming.get_base_filename_for_images (REAL_PATH (fast_only "/b")) (now press_poll)
     +:+ "/1of1.jpg"] /\
  res (program (fast_autopress "/b") ([] ++ quiet_poll :: [quiet_poll]) fresh_world) =
  Ok (Exited None).
Proof.
  split.
  - refine (proj1 (proj2 (proj2 (proj2
      (fast_mode_run (fast_only "/b") [quiet_poll] press_poll [] fresh_world
         {| i := 1; overlay_1 := Renderer 0; overlay_2 := Renderer 1 |}
         (None, Some (Channel pin_camera_btn)) _ _ _ _ _))))).
    + reflexivity.
    + vm_compute. reflexivity.
    + vm_compute. reflexivity.
    + reflexivity.
    + vm_compute. reflexivity.
  - refine (proj1 (proj1 (proj2 (proj2 (proj2 (proj2
      (fast_mode_run (fast_autopress "/b") [] quiet_poll [quiet_poll] fresh_world
         {| i := 0; overlay_1 := Renderer 0; overlay_2 := Renderer 1 |}
         (None, Some PyTrue) _ _ _ _ _))))) _)).
    + reflexivity.
    + vm_compute. reflexivity.
    + vm_compute. reflexivity.
    + reflexivity.
    + vm_compute. reflexivity.
    + reflexivity.
Defined.

(** C4 as stated fails: with the fast-test flag alone, the button is
    pressed once, one photo is taken, and the program is back in the idle
    loop with the intro screen on; nothing has been released and the process
    has not ended. *)
Lemma fast_flag_alone_returns_to_idle :
  TESTMODE_FAST (fast_only "/b") = true /\
  files_written (out (program (fast_only "/b") [press_poll] fresh_world)) =
    ["/b/photos/2017-12-31_23-59-59/1of1.jpg"] /\
  res (program (fast_only "/b") [press_poll] fresh_world) =
    Ok (Running {| i := 0; overlay_1 := Renderer 7; overlay_2 := Renderer 8 |}) /\
  times is_release (out (program (fast_only "/b") [press_poll] fresh_world)) = 0 /\
  ~ (exists uncaught,
       res (program (fast_only "/b") [press_poll] fresh_world) = Ok (Exited uncaught)).
Proof.
  split; [reflexivity|]. split; [vm_compute; reflexivity|].
  assert (res (program (fast_only "/b") [press_poll] fresh_world) =
          Ok (Running {| i := 0; overlay_1 := Renderer 7; overlay_2 := Renderer 8 |})) as H
    by (vm_compute; reflexivity).
  split; [exact H|]. split; [vm_compute; reflexivity|].
  intros [uncaught Hu]. rewrite H in Hu. discriminate.
Qed.

(** Both flags: one photo, then the process is over. *)
Example fast_autopress_run :
  res (program (fast_autopress "/b") [quiet_poll] fresh_world) = Ok (Exited None) /\
  files_written (out (program (fast_autopress "/b") [quiet_poll] fresh_world)) =
    ["/b/photos/2017-12-31_23-59-59/1of1.jpg"].
Proof. split; vm_compute; reflexivity. Qed.

(** Two sessions one second apart on the same installation. *)
Lemma base_filename_safe_and_unique_witness :
  Naming.get_base_filename_for_images "/home/pi/photo booth" new_year <>
  Naming.get_base_filename_for_images "/home/pi/photo booth"
    {| Naming.year := 2018; Naming.month := 1; Naming.day := 1;
       Naming.hour := 0; Naming.minute := 0; Naming.second := 0;
       Naming.microsecond := 250000 |}.
Proof.
  refine (proj2 (proj2 (NamingFacts.base_filename_safe_and_unique _ _ _ _ _ _))).
  - unfold Naming.valid. cbn. lia.
  - unfold Naming.valid. cbn. lia.
  - discriminate.
Defined.

(** The playback of the four photos that a capture loop has just written:
    the second photo replaces the first. *)
Lemma playback_crossfade_witness :
  exists before after,
    slideshow_steps (shipped "/b") "/b/photos/s"
      (next_overlay (st (capture_photos (shipped "/b") "/b/photos/s" fresh_world))) 1
      (total_pics (shipped "/b")) =
    before ++
    [ EAddOverlay
        (next_overlay (st (capture_photos (shipped "/b") "/b/photos/s" fresh_world)) + 2)
        (photo_path (shipped "/b") "/b/photos/s" 2);
      ESetLayer
        (next_overlay (st (capture_photos (shipped "/b") "/b/photos/s" fresh_world)) + 2)
        (3 + Z.of_nat (total_pics (shipped "/b")));
      ERemoveOverlay
        (next_overlay (st (capture_photos (shipped "/b") "/b/photos/s" fresh_world)) + 2 - 1);
      ESleep 1 ] ++ after.
Proof.
  refine (proj1 (proj2
    (playback_crossfade (shipped "/b") "/b/photos/s"
       (st (capture_photos (shipped "/b") "/b/photos/s" fresh_world)) _)) 2 _).
  - vm_compute. reflexivity.
  - cbn. lia.
Defined.

(** * The overlay manager *)

#[local] Set Warnings "-clear-no-such-hyp".

(** X1: the padded image of [overlay_image] meets the camera's block size
    and is the smallest that holds the original: its width is a multiple
    of 32 and its height a multiple of 16, each at least the original and
    less than one block more, and no smaller multiple would do. *)
Theorem padded_size_blocks (width height : Z) :
  (fst (padded_size (width, height)) mod 32 = 0 /\
   snd (padded_size (width, height)) mod 16 = 0 /\
   width <= fst (padded_size (width, height)) < width + 32 /\
   height <= snd (padded_size (width, height)) < height + 16 /\
   (forall m, m mod 32 = 0 -> width <= m -> fst (padded_size (width, height)) <= m) /\
   (forall m, m mod 16 = 0 -> height <= m -> snd (padded_size (width, height)) <= m))%Z.
Proof.
  unfold padded_size. cbn [fst snd].
  repeat split; try (intros m Hm Hle); Z.div_mod_to_equations; lia.
Qed.

(** The preview size of the shipped script needs no padding; a 100 x 50
    image is padded to 128 x 64. *)
Example padded_size_samples :
  padded_size (800, 480)%Z = (800, 480)%Z /\ padded_size (100, 50)%Z = (128, 64)%Z.
Proof. split; reflexivity. Qed.

Lemma update_overlay_fresh n f l :
  Forall (fun k => k < n) (map o_id l) -> update_overlay n f l = l.
Proof.
  unfold update_overlay. induction l as [|o l IH]; [reflexivity|].
  cbn [map]. intros H. apply Forall_cons in H as [Ho Hl].
  rewrite (IH Hl).
  replace (Nat.eqb (o_id o) n) with false by (symmetry; apply Nat.eqb_neq; lia).
  reflexivity.
Qed.

Lemma filter_fresh n (l : list overlay) :
  Forall (fun k => k < n) (map o_id l) -> filter (fun o => o_id o ≠ n) l = l.
Proof.
  induction l as [|o l IH]; [reflexivity|].
  cbn [map]. intros H. apply Forall_cons in H as [Ho Hl].
  rewrite filter_cons_True by lia. now rewrite (IH Hl).
Qed.

(** Removing a renderer that is on screen once takes out its overlay and
    nothing else. *)
Lemma filter_member (l l' : list overlay) e :
  NoDup (map o_id (l ++ e :: l')) ->
  filter (fun o => o_id o ≠ o_id e) (l ++ e :: l') = l ++ l'.
Proof.
  intros H. rewrite map_app in H. cbn [map] in H.
  apply NoDup_app in H as (Hl & Hdisj & He).
  apply NoDup_cons in He as [He Hl'].
  rewrite filter_app, filter_cons_False by auto.
  assert (forall k : list overlay,
            (forall o, o ∈ k -> o_id o ≠ o_id e) ->
            filter (fun o => o_id o ≠ o_id e) k = k) as Hkeep.
  { induction k as [|o k IH]; intros Hk; [reflexivity|].
    rewrite filter_cons_True by (apply Hk; left).
    rewrite IH; [reflexivity|]. intros o' Ho'. apply Hk. now right. }
  rewrite !Hkeep; [reflexivity| |].
  - intros o Ho Heq. apply He. rewrite <- Heq.
    apply list_elem_of_fmap. eauto.
  - intros o Ho Heq. apply (Hdisj (o_id o)).
    + apply list_elem_of_fmap. eauto.
    + rewrite Heq. left.
Qed.

Lemma update_overlay_app n f l l' :
  update_overlay n f (l ++ l') = update_overlay n f l ++ update_overlay n f l'.
Proof. unfold update_overlay. apply map_app. Qed.

(** Setting the layer of the overlay just added touches no other one. *)
Lemma update_shown l n image layer :
  Forall (fun k => k < n) (map o_id l) ->
  update_overlay n (fun o =>
     {| o_id := o_id o; o_image := o_image o; o_layer := layer; o_alpha := o_alpha o |})
    (l ++ [shown n image 0]) = l ++ [shown n image layer].
Proof.
  intros Hlt. rewrite update_overlay_app, (update_overlay_fresh _ _ _ Hlt).
  unfold update_overlay. cbn [map shown o_id]. now rewrite Nat.eqb_refl.
Qed.

(** The world [overlay_image] leaves, before any assumption on the screen. *)
Lemma overlay_image_st image d layer w :
  st (overlay_image image d layer w) =
  let n := next_overlay w in
  let added :=
    set_overlays (update_overlay n (fun o =>
       {| o_id := o_id o; o_image := o_image o; o_layer := layer; o_alpha := o_alpha o |}))
      (set_next_overlay (S n) (set_overlays (fun l => l ++ [shown n image 0]) w)) in
  if positive_duration d
  then set_overlays (filter (fun o => o_id o ≠ n)) added
  else added.
Proof.
  unfold overlay_image, bind, camera_add_overlay, set_layer, sleep, camera_remove_overlay,
    get, modify, emit, ret.
  destruct (positive_duration d); reflexivity.
Qed.

Lemma set_overlays_ext f g w :
  f (overlays w) = g (overlays w) -> set_overlays f w = set_overlays g w.
Proof. intros H. unfold set_overlays. now rewrite H. Qed.

(** A timed overlay leaves the screen as it found it. *)
Lemma overlay_image_timed_st image d layer w :
  tidy w -> positive_duration d = true ->
  st (overlay_image image d layer w) = set_next_overlay (S (next_overlay w)) w.
Proof.
  intros [_ Hlt] Hd. rewrite overlay_image_st, Hd. cbv zeta.
  unfold set_overlays, set_next_overlay. cbn [overlays next_overlay annotate_text
    annotate_text_size dirs mk_fault in_waiting].
  f_equal.
  rewrite (update_shown _ _ _ _ Hlt).
  rewrite filter_app, (filter_fresh _ _ Hlt).
  rewrite filter_cons_False by (cbn; auto). now rewrite filter_nil, app_nil_r.
Qed.

(** A persistent overlay is added on top, on the layer asked for. *)
Lemma overlay_image_persistent_st image d layer w :
  tidy w -> positive_duration d = false ->
  st (overlay_image image d layer w) =
  set_next_overlay (S (next_overlay w))
    (set_overlays (fun l => l ++ [shown (next_overlay w) image layer]) w).
Proof.
  intros [_ Hlt] Hd. rewrite overlay_image_st, Hd. cbv zeta.
  unfold set_overlays, set_next_overlay. cbn [overlays next_overlay annotate_text
    annotate_text_size dirs mk_fault in_waiting].
  f_equal. apply (update_shown _ _ _ _ Hlt).
Qed.

Lemma overlay_image_res image d layer w :
  res (overlay_image image d layer w) =
  Ok (if positive_duration d then NoOverlay else Renderer (next_overlay w)).
Proof.
  destruct (positive_duration d) eqn:Hd.
  - now destruct (overlay_image_timed image d layer w Hd).
  - now destruct (overlay_image_persistent image d layer w Hd).
Qed.

(** More renderers handed out keep a tidy screen tidy. *)
Lemma tidy_next w w' :
  tidy w -> overlays w' = overlays w -> next_overlay w <= next_overlay w' -> tidy w'.
Proof.
  intros [Hnd Hlt] Ho Hn. unfold tidy, ids. rewrite Ho. split; [exact Hnd|].
  eapply Forall_impl; [exact Hlt|]. cbn. intros k Hk. lia.
Qed.

Lemma tidy_shown w image layer :
  tidy w ->
  tidy (set_next_overlay (S (next_overlay w))
          (set_overlays (fun l => l ++ [shown (next_overlay w) image layer]) w)).
Proof.
  intros [Hnd Hlt]. unfold tidy, ids. cbn [overlays next_overlay set_overlays set_next_overlay].
  rewrite map_app. cbn [map shown o_id]. split.
  - apply NoDup_app. split; [exact Hnd|]. split; [|apply NoDup_singleton].
    intros k Hk Hk'. apply list_elem_of_singleton in Hk'. subst k.
    rewrite Forall_forall in Hlt. specialize (Hlt _ Hk). lia.
  - apply Forall_app. split.
    + eapply Forall_impl; [exact Hlt|]. cbn. intros k Hk. lia.
    + apply Forall_singleton. lia.
Qed.

Lemma remove_overlay_st id w :
  st (remove_overlay (Renderer id) w) = set_overlays (filter (fun o => o_id o ≠ id)) w.
Proof. reflexivity. Qed.

(** X2: when [overlay_image] returns, passing what it returned to
    [remove_overlay] leaves the screen exactly as it was before the overlay
    was shown, for every duration: a timed overlay is gone when
    [overlay_image] returns, which then gives -1 and [remove_overlay] does
    nothing; a persistent one is on screen on the layer asked for until
    [remove_overlay] takes it off. *)
Theorem overlay_round_trip (image : string) (d : Q) (layer : Z) (w : World) (h : handle) :
  tidy w ->
  res (overlay_image image d layer w) = Ok h ->
  overlays (st (remove_overlay h (st (overlay_image image d layer w)))) = overlays w /\
  tidy (st (remove_overlay h (st (overlay_image image d layer w)))) /\
  (positive_duration d = true ->
     h = NoOverlay /\
     overlays (st (overlay_image image d layer w)) = overlays w /\
     out (remove_overlay h (st (overlay_image image d layer w))) = []) /\
  (positive_duration d = false ->
     h = Renderer (next_overlay w) /\
     overlays (st (overlay_image image d layer w)) =
       overlays w ++ [shown (next_overlay w) image layer] /\
     next_overlay w ∉ ids w).
Proof.
  intros Ht Hres. pose proof Ht as [Hnd Hlt].
  assert (next_overlay w ∉ ids w) as Hfresh.
  { intros Hin. rewrite Forall_forall in Hlt. specialize (Hlt _ Hin). lia. }
  rewrite overlay_image_res in Hres. injection Hres as <-.
  destruct (positive_duration d) eqn:Hd.
  - rewrite (overlay_image_timed_st _ _ _ _ Ht Hd). cbn [remove_overlay ret st out].
    split; [reflexivity|]. split.
    + apply (tidy_next w); [exact Ht | reflexivity | cbn; lia].
    + split; [intros _; repeat split | discriminate].
  - rewrite (overlay_image_persistent_st _ _ _ _ Ht Hd).
    rewrite remove_overlay_st.
    unfold set_overlays at 1. cbn [overlays set_overlays set_next_overlay].
    assert (filter (fun o => o_id o ≠ next_overlay w)
              (overlays w ++ [shown (next_overlay w) image layer]) = overlays w) as E.
    { rewrite filter_app, (filter_fresh _ _ Hlt).
      rewrite filter_cons_False by (cbn; auto). now rewrite filter_nil, app_nil_r. }
    split; [exact E|]. split.
    + unfold tidy, ids. cbn [overlays next_overlay set_overlays set_next_overlay].
      rewrite E. split; [exact Hnd|].
      eapply Forall_impl; [exact Hlt|]. cbn. intros k Hk. lia.
    + split; [discriminate | intros _; repeat split; exact Hfresh].
Qed.

(** The white flash on the intro screen: it returns -1 and the two intro
    overlays are all that is on screen. *)
Lemma overlay_round_trip_witness :
  overlays (st (remove_overlay NoOverlay
    (st (overlay_image "/b/assets/white.png" (1 # 10) 3
           (st (main (shipped "/b") [] fresh_world)))))) =
  overlays (st (main (shipped "/b") [] fresh_world)).
Proof.
  refine (proj1
    (overlay_round_trip "/b/assets/white.png" (1 # 10) 3
       (st (main (shipped "/b") [] fresh_world)) NoOverlay _ _)).
  - split; cbn; [repeat constructor; set_solver | repeat constructor].
  - reflexivity.
Defined.

(** ** Computations that leave the screen alone *)

Lemma screen_neutral_tidy {A} (m : M A) w :
  screen_neutral m -> tidy w -> tidy (st (m w)).
Proof. intros Hm Ht. destruct (Hm w Ht) as [Ho Hn]. exact (tidy_next w _ Ht Ho Hn). Qed.

Lemma screen_neutral_ret {A} (a : A) : screen_neutral (ret a).
Proof. intros w _. split; [reflexivity | cbn; lia]. Qed.

Lemma screen_neutral_raise {A} (e : exn) : screen_neutral (@raise A e).
Proof. intros w _. split; [reflexivity | cbn; lia]. Qed.

Lemma screen_neutral_get {A} (g : World -> A) : screen_neutral (get g).
Proof. intros w _. split; [reflexivity | cbn; lia]. Qed.

Lemma screen_neutral_emit (e : event) : screen_neutral (emit e).
Proof. intros w _. split; [reflexivity | cbn; lia]. Qed.

Lemma screen_neutral_modify (g : World -> World) :
  (forall w, screen (g w) = screen w) -> screen_neutral (modify g).
Proof.
  intros H w _. specialize (H w). unfold screen in H. injection H as Ho Hn.
  cbn [modify st]. split; [exact Ho | lia].
Qed.

Lemma screen_neutral_bind {A B} (m : M A) (k : A -> M B) :
  screen_neutral m -> (forall a, screen_neutral (k a)) -> screen_neutral (bind m k).
Proof.
  intros Hm Hk w Ht. pose proof (screen_neutral_tidy m w Hm Ht) as Ht1.
  destruct (Hm w Ht) as [Ho Hn]. unfold bind.
  destruct (m w) as [[a|e] w1 t1]; cbn [st] in *; [|split; assumption].
  destruct (Hk a w1 Ht1) as [Ho2 Hn2]. destruct (k a w1) as [r w2 t2]. cbn [st] in *.
  split; [congruence | lia].
Qed.

Lemma screen_neutral_try {A} (m : M A) (h : exn -> M A) :
  screen_neutral m -> (forall e, screen_neutral (h e)) -> screen_neutral (try_except m h).
Proof.
  intros Hm Hh w Ht. pose proof (screen_neutral_tidy m w Hm Ht) as Ht1.
  destruct (Hm w Ht) as [Ho Hn]. unfold try_except.
  destruct (m w) as [[a|e] w1 t1]; cbn [st] in *; [split; assumption|].
  destruct (Hh e w1 Ht1) as [Ho2 Hn2]. destruct (h e w1) as [r w2 t2]. cbn [st] in *.
  split; [congruence | lia].
Qed.

Lemma screen_neutral_for_each {A} (l : list A) (body : A -> M unit) :
  (forall x, screen_neutral (body x)) -> screen_neutral (for_each l body).
Proof.
  intros Hb. induction l as [|x l IH]; cbn [for_each].
  - apply screen_neutral_ret.
  - apply screen_neutral_bind; [apply Hb | intros _; exact IH].
Qed.

Lemma screen_neutral_if {A} (c : bool) (m1 m2 : M A) :
  screen_neutral m1 -> screen_neutral m2 -> screen_neutral (if c then m1 else m2).
Proof. destruct c; trivial. Qed.

Ltac neutral :=
  repeat first
    [ progress intros
    | apply screen_neutral_ret | apply screen_neutral_raise
    | apply screen_neutral_get | apply screen_neutral_emit
    | (apply screen_neutral_modify; intros; reflexivity)
    | apply screen_neutral_bind | apply screen_neutral_try
    | apply screen_neutral_for_each | apply screen_neutral_if
    | match goal with
      | |- screen_neutral (match ?x with _ => _ end) => destruct x
      end ].

Lemma overlay_image_timed_neutral image d layer :
  positive_duration d = true -> screen_neutral (overlay_image image d layer).
Proof.
  intros Hd w Ht. rewrite (overlay_image_timed_st _ _ _ _ Ht Hd).
  split; [reflexivity | cbn; lia].
Qed.

Lemma ensure_dir_neutral dirname : screen_neutral (ensure_dir dirname).
Proof. unfold ensure_dir, os_makedirs. neutral. Qed.

(** A capture iteration leaves the screen alone, also when it raises: the
    flash is gone when it returns. *)
Lemma taking_photo_neutral cfg photo_number filename_prefix :
  screen_neutral (taking_photo cfg photo_number filename_prefix).
Proof.
  unfold taking_photo, print_overlay, camera_capture, print, sleep. cbv zeta.
  apply screen_neutral_bind; [apply ensure_dir_neutral | intros _].
  apply screen_neutral_bind; [neutral | intros _].
  do 3 (apply screen_neutral_bind; [neutral | intros _]).
  apply screen_neutral_bind; [now apply overlay_image_timed_neutral | intros _].
  neutral.
Qed.

Lemma capture_photos_neutral cfg filename_prefix :
  screen_neutral (capture_photos cfg filename_prefix).
Proof.
  unfold capture_photos. apply screen_neutral_for_each.
  intros k. apply taking_photo_neutral.
Qed.

Lemma tidy_filter (P : overlay -> Prop) `{forall o, Decision (P o)} w :
  tidy w -> tidy (set_overlays (filter P) w).
Proof.
  intros [Hnd Hlt]. unfold tidy, ids in *. cbn [overlays next_overlay set_overlays].
  induction (overlays w) as [|o l IH]; [split; constructor|].
  cbn [map] in *. apply NoDup_cons in Hnd as [Ho Hnd]. apply Forall_cons in Hlt as [Hk Hlt].
  destruct (IH Hnd Hlt) as [IH1 IH2].
  destruct (decide (P o)) as [HP|HP].
  - rewrite filter_cons_True by exact HP. cbn [map]. split.
    + apply NoDup_cons. split; [|exact IH1].
      intros Hin. apply Ho. apply list_elem_of_fmap in Hin as (o' & Heq & Hin).
      apply list_elem_of_filter in Hin as [_ Hin].
      apply list_elem_of_fmap. eauto.
    + apply Forall_cons. split; assumption.
  - rewrite filter_cons_False by exact HP. split; assumption.
Qed.

(** ** Playback and the screen *)

Lemma tidy_NoDup w : tidy w -> NoDup (map o_id (overlays w)).
Proof. now intros [H _]. Qed.

(** Each turn of the playback loop replaces the overlay on top. *)
Lemma playback_loop_screen cfg filename_prefix count : forall first w l e,
  tidy w -> overlays w = l ++ [e] ->
  let o := playback_loop cfg filename_prefix (seq first count) (Renderer (o_id e)) w in
  exists e',
    res o = Ok (Renderer (o_id e')) /\ overlays (st o) = l ++ [e'] /\
    tidy (st o) /\ next_overlay w <= next_overlay (st o).
Proof.
  induction count as [|count IH]; intros first w l e Ht Ho; cbv zeta.
  - cbn [seq playback_loop ret res st]. exists e.
    split; [reflexivity|]. split; [exact Ho|]. split; [exact Ht | lia].
  - cbn [seq playback_loop]. cbv zeta.
    set (filename := photo_path cfg filename_prefix first).
    set (layer := (3 + Z.of_nat (total_pics cfg))%Z).
    destruct (overlay_image_persistent filename py_False layer w eq_refl) as (R1 & _ & _).
    rewrite (bind_ok _ _ _ _ R1). cbn [truthy res st].
    rewrite (overlay_image_persistent_st filename py_False layer w Ht eq_refl).
    set (e1 := shown (next_overlay w) filename layer).
    set (w1 := set_next_overlay (S (next_overlay w))
                 (set_overlays (fun l0 => l0 ++ [e1]) w)).
    assert (tidy w1) as Ht1 by apply (tidy_shown w filename layer Ht).
    destruct (remove_overlay_renderer (o_id e) w1) as (R2 & _ & _).
    rewrite (bind_ok _ _ _ _ R2). cbn [res st]. rewrite remove_overlay_st.
    set (w2 := set_overlays (filter (fun o => o_id o ≠ o_id e)) w1).
    assert (overlays w2 = l ++ [e1]) as Ho2.
    { unfold w2, w1. cbn [overlays set_overlays set_next_overlay]. rewrite Ho.
      rewrite <- app_assoc. cbn [app].
      apply filter_member.
      pose proof (tidy_NoDup w1 Ht1) as Hnd. unfold w1 in Hnd.
      cbn [overlays set_overlays set_next_overlay] in Hnd. rewrite Ho in Hnd.
      rewrite <- app_assoc in Hnd. exact Hnd. }
    assert (tidy w2) as Ht2 by (apply tidy_filter; exact Ht1).
    rewrite (bind_ok (sleep 1) _ w2 tt eq_refl).
    change (st (sleep 1 w2)) with w2. cbn [res st].
    change (Renderer (next_overlay w)) with (Renderer (o_id e1)).
    destruct (IH (S first) w2 l e1 Ht2 Ho2) as (e' & R & O & T & N).
    exists e'. split; [exact R|]. split; [exact O|]. split; [exact T|].
    change (next_overlay w2) with (S (next_overlay w)) in N. lia.
Qed.

(** Playback shows and removes its own overlays only. *)
Lemma playback_screen_neutral cfg filename_prefix :
  screen_neutral (playback_screen cfg filename_prefix).
Proof.
  intros w Ht. unfold playback_screen. cbv zeta.
  rewrite (bind_ok (print "Processing...") _ w tt eq_refl).
  change (st (print "Processing..." w)) with w. cbn [st].
  set (processing := REAL_PATH cfg +:+ "/assets/processing.png").
  destruct (overlay_image_persistent processing 0 3 w eq_refl) as (R1 & _ & _).
  rewrite (bind_ok _ _ _ _ R1). cbn [st].
  rewrite (overlay_image_persistent_st processing 0 3 w Ht eq_refl).
  set (e0 := shown (next_overlay w) processing 3).
  set (w1 := set_next_overlay (S (next_overlay w))
               (set_overlays (fun l0 => l0 ++ [e0]) w)).
  assert (tidy w1) as Ht1 by apply (tidy_shown w processing 3 Ht).
  change (Renderer (next_overlay w)) with (Renderer (o_id e0)).
  destruct (playback_loop_screen cfg filename_prefix (total_pics cfg) 1 w1 (overlays w) e0
              Ht1 eq_refl) as (e' & R2 & O2 & T2 & N2).
  rewrite (bind_ok _ _ _ _ R2). cbn [st].
  set (w2 := st (playback_loop cfg filename_prefix (seq 1 (total_pics cfg))
                   (Renderer (o_id e0)) w1)) in *.
  destruct (remove_overlay_renderer (o_id e') w2) as (R3 & _ & _).
  rewrite (bind_ok _ _ _ _ R3). cbn [st]. rewrite remove_overlay_st.
  set (w3 := set_overlays (filter (fun o => o_id o ≠ o_id e')) w2).
  assert (overlays w3 = overlays w) as Ho3.
  { unfold w3. cbn [overlays set_overlays]. rewrite O2.
    rewrite <- (app_nil_r (overlays w)) at 2.
    apply filter_member. rewrite <- O2. apply tidy_NoDup, T2. }
  assert (tidy w3) as Ht3 by (apply tidy_filter; exact T2).
  rewrite (bind_ok (print "All done!") _ w3 tt eq_refl).
  change (st (print "All done!" w3)) with w3. cbn [st].
  set (finished := REAL_PATH cfg +:+ "/assets/all_done.png").
  destruct (overlay_image_timed finished 20 3 w3 eq_refl) as (R4 & _ & _).
  rewrite (bind_ok _ _ _ _ R4). cbn [st ret].
  rewrite (overlay_image_timed_st finished 20 3 w3 Ht3 eq_refl).
  cbn [overlays next_overlay set_next_overlay]. split; [exact Ho3|].
  change (next_overlay w3) with (next_overlay w2).
  change (next_overlay w1) with (S (next_overlay w)) in N2. lia.
Qed.

(** ** A session and the screen *)

Lemma positive_inject_Z z : positive_duration (inject_Z z) = Z.ltb 0 z.
Proof.
  unfold positive_duration, Qle_bool, inject_Z. cbn [Qnum Qden].
  destruct (Z.leb_spec (z * 1) (0 * 1)); destruct (Z.ltb_spec 0 z); cbn; lia.
Qed.

Lemma update_member (l l' : list overlay) e f :
  NoDup (map o_id (l ++ e :: l')) ->
  update_overlay (o_id e) f (l ++ e :: l') = l ++ f e :: l'.
Proof.
  intros H. rewrite map_app in H. cbn [map] in H.
  apply NoDup_app in H as (Hl & Hdisj & He).
  apply NoDup_cons in He as [He Hl'].
  assert (forall k : list overlay,
            (forall o, o ∈ k -> o_id o ≠ o_id e) -> update_overlay (o_id e) f k = k) as Hkeep.
  { unfold update_overlay. induction k as [|o k IH]; intros Hk; [reflexivity|].
    cbn [map]. rewrite IH by (intros o' Ho'; apply Hk; now right).
    replace (Nat.eqb (o_id o) (o_id e)) with false; [reflexivity|].
    symmetry. apply Nat.eqb_neq. apply Hk. left. }
  rewrite update_overlay_app. rewrite Hkeep.
  - unfold update_overlay at 1. cbn [map]. rewrite Nat.eqb_refl.
    fold (update_overlay (o_id e) f l'). rewrite Hkeep; [reflexivity|].
    intros o Ho Heq. apply He. rewrite <- Heq. apply list_elem_of_fmap. eauto.
  - intros o Ho Heq. apply (Hdisj (o_id o)).
    + apply list_elem_of_fmap. eauto.
    + rewrite Heq. left.
Qed.

Lemma tidy_screen w w' : screen w' = screen w -> tidy w -> tidy w'.
Proof.
  unfold screen. intros H Ht. injection H as Ho Hn.
  apply (tidy_next w); [exact Ht | exact Ho | lia].
Qed.

Lemma idle_screen_ext cfg base s w w' :
  screen w' = screen w -> idle_screen cfg base s w -> idle_screen cfg base s w'.
Proof.
  intros H (id1 & id2 & alpha & H1 & H2 & Ho & Ha & Ht & Hi).
  exists id1, id2, alpha. split; [exact H1|]. split; [exact H2|].
  split; [|split; [exact Ha|split; [exact (tidy_screen w w' H Ht) | exact Hi]]].
  unfold screen in H. injection H as Ho' _. now rewrite Ho'.
Qed.

(** Leaving the intro screen: both intro overlays are taken off, and the
    get-ready overlay is gone again when the delay is positive. *)
Lemma begin_session_screen cfg base s w :
  idle_screen cfg base s w ->
  overlays (st (begin_session cfg s w)) =
    base ++ (if Z.ltb 0 (prep_delay cfg) then []
             else [shown (next_overlay w) (REAL_PATH cfg +:+ "/assets/get_ready.png") 3]) /\
  tidy (st (begin_session cfg s w)).
Proof.
  intros (id1 & id2 & alpha & H1 & H2 & Ho & Ha & Ht & Hi).
  unfold begin_session, print. rewrite bind_emit. cbn [st]. rewrite H1, H2.
  destruct (remove_overlay_renderer id2 w) as (R2 & _ & _).
  rewrite (bind_ok _ _ _ _ R2). cbn [st]. rewrite remove_overlay_st.
  set (e1 := shown id1 (intro_image_1 cfg) 3) in *.
  set (e2 := {| o_id := id2; o_image := intro_image_2 cfg; o_layer := 4;
                o_alpha := alpha |}) in *.
  set (w1 := set_overlays (filter (fun o => o_id o ≠ id2)) w).
  assert (overlays w = (base ++ [e1]) ++ e2 :: []) as Ho'
    by (rewrite Ho, <- app_assoc; reflexivity).
  assert (overlays w1 = base ++ [e1]) as Ho1.
  { unfold w1. cbn [overlays set_overlays]. rewrite Ho'.
    rewrite <- (app_nil_r (base ++ [e1])) at 2.
    apply (filter_member (base ++ [e1]) [] e2). rewrite <- Ho'. apply tidy_NoDup, Ht. }
  assert (tidy w1) as Ht1 by (apply tidy_filter; exact Ht).
  destruct (remove_overlay_renderer id1 w1) as (R1 & _ & _).
  rewrite (bind_ok _ _ _ _ R1). cbn [st]. rewrite remove_overlay_st.
  set (w2 := set_overlays (filter (fun o => o_id o ≠ id1)) w1).
  assert (overlays w2 = base) as Ho2.
  { unfold w2. cbn [overlays set_overlays]. rewrite Ho1.
    rewrite <- (app_nil_r base) at 2.
    apply (filter_member base [] e1). rewrite <- Ho1. apply tidy_NoDup, Ht1. }
  assert (tidy w2) as Ht2 by (apply tidy_filter; exact Ht1).
  unfold prep_for_photo_screen. cbv zeta.
  set (get_ready := REAL_PATH cfg +:+ "/assets/get_ready.png").
  pose proof (overlay_image_res get_ready (inject_Z (prep_delay cfg)) 3 w2) as R.
  rewrite (bind_ok _ _ _ _ R). cbn [st ret].
  pose proof (positive_inject_Z (prep_delay cfg)) as Hpos.
  destruct (Z.ltb 0 (prep_delay cfg)).
  - rewrite (overlay_image_timed_st _ _ _ _ Ht2 Hpos).
    cbn [overlays set_next_overlay]. rewrite Ho2, app_nil_r. split; [reflexivity|].
    apply (tidy_next w2); [exact Ht2 | reflexivity | cbn; lia].
  - rewrite (overlay_image_persistent_st _ _ _ _ Ht2 Hpos).
    split; [|apply tidy_shown; exact Ht2].
    cbn [overlays set_overlays set_next_overlay]. now rewrite Ho2.
Qed.

(** Back to the intro screen: two new intro overlays on top of what is
    there, the first on layer 3, the second on layer 4, both opaque. *)
Lemma end_session_screen cfg s p filename_prefix w :
  TESTMODE_AUTOPRESS_BUTTON cfg = false -> tidy w ->
  exists n,
    res (end_session cfg s p filename_prefix w) =
      Ok (Continue {| i := i s; overlay_1 := Renderer n; overlay_2 := Renderer (S n) |}) /\
    overlays (st (end_session cfg s p filename_prefix w)) =
      overlays w ++ [shown n (intro_image_1 cfg) 3; shown (S n) (intro_image_2 cfg) 4] /\
    tidy (st (end_session cfg s p filename_prefix w)).
Proof.
  intros Hauto Ht. unfold end_session. rewrite Hauto.
  rewrite (bind_ok _ _ _ _ (total_unit _ w (playback_screen_total cfg filename_prefix))).
  destruct (playback_screen_neutral cfg filename_prefix w Ht) as [Ho0 Hn0].
  pose proof (screen_neutral_tidy _ w (playback_screen_neutral cfg filename_prefix) Ht) as Ht0.
  set (w0 := st (playback_screen cfg filename_prefix w)) in *.
  cbn [res st].
  unfold serial_receive, ser_reset_input_buffer, print.
  rewrite (bind_ok (modify _) _ w0 tt eq_refl). cbn [modify res st].
  set (w1 := set_in_waiting (in_waiting w0 + session_bytes p) w0).
  assert (tidy w1) as Ht1 by (apply (tidy_screen w0); [reflexivity | exact Ht0]).
  destruct (overlay_image_persistent (intro_image_1 cfg) 0 3 w1 eq_refl) as (R1 & _ & _).
  rewrite (bind_ok _ _ _ _ R1). cbn [res st].
  rewrite (overlay_image_persistent_st _ 0 3 w1 Ht1 eq_refl).
  set (w2 := set_next_overlay (S (next_overlay w1))
               (set_overlays (fun l => l ++ [shown (next_overlay w1) (intro_image_1 cfg) 3])
                  w1)).
  assert (tidy w2) as Ht2 by apply (tidy_shown w1 _ 3 Ht1).
  destruct (overlay_image_persistent (intro_image_2 cfg) 0 4 w2 eq_refl) as (R2 & _ & _).
  rewrite (bind_ok _ _ _ _ R2). cbn [res st].
  rewrite (overlay_image_persistent_st _ 0 4 w2 Ht2 eq_refl).
  set (w3 := set_next_overlay (S (next_overlay w2))
               (set_overlays (fun l => l ++ [shown (next_overlay w2) (intro_image_2 cfg) 4])
                  w2)).
  assert (tidy w3) as Ht3 by apply (tidy_shown w2 _ 4 Ht2).
  rewrite bind_emit. cbn [res st].
  rewrite (bind_ok (modify (set_in_waiting 0) ;; emit ESerialReset) _ w3 tt eq_refl).
  cbn [res st ret].
  exists (next_overlay w1). split; [reflexivity|]. split.
  - change (overlays (st ((modify (set_in_waiting 0) ;; emit ESerialReset) w3)))
      with (overlays w3).
    unfold w3, w2, w1. cbn [overlays next_overlay set_overlays set_next_overlay set_in_waiting].
    rewrite Ho0, <- app_assoc. reflexivity.
  - apply (tidy_screen w3); [reflexivity | exact Ht3].
Qed.

(** What a completed session that goes back to the idle loop leaves on
    screen. *)
Lemma session_screen cfg base s p w s1 :
  idle_screen cfg base s w ->
  res (session cfg s p w) = Ok (Continue s1) ->
  exists n,
    s1 = {| i := i s; overlay_1 := Renderer n; overlay_2 := Renderer (S n) |} /\
    overlays (st (session cfg s p w)) =
      (base ++ (if Z.ltb 0 (prep_delay cfg) then []
                else [shown (next_overlay w) (REAL_PATH cfg +:+ "/assets/get_ready.png") 3]))
      ++ [shown n (intro_image_1 cfg) 3; shown (S n) (intro_image_2 cfg) 4] /\
    tidy (st (session cfg s p w)).
Proof.
  intros Hidle Hres.
  assert (TESTMODE_AUTOPRESS_BUTTON cfg = false) as Hauto.
  { assert (completed (session cfg s p w) = true) as Hdone
      by (unfold completed; now rewrite Hres).
    pose proof (session_end cfg s p w Hdone) as H.
    destruct (TESTMODE_AUTOPRESS_BUTTON cfg); [|reflexivity].
    rewrite H in Hres. discriminate. }
  destruct (begin_session_screen cfg base s w Hidle) as [Ho0 Ht0].
  rewrite session_eq in *. cbv zeta in *.
  set (prefix := Naming.get_base_filename_for_images (REAL_PATH cfg) (now p)) in *.
  set (w0 := st (begin_session cfg s w)) in *.
  destruct (capture_photos_neutral cfg prefix w0 Ht0) as [Ho1 _].
  pose proof (screen_neutral_tidy _ w0 (capture_photos_neutral cfg prefix) Ht0) as Ht1.
  set (w1 := st (capture_photos cfg prefix w0)) in *.
  destruct (res (capture_photos cfg prefix w0)) as [[]|e]; [|discriminate Hres].
  cbn [res st] in *.
  destruct (end_session_screen cfg s p prefix w1 Hauto Ht1) as (n & R & O & T).
  exists n. rewrite R in Hres. injection Hres as <-.
  split; [reflexivity|]. split; [|exact T].
  now rewrite O, Ho1, Ho0.
Qed.

Lemma ids_update id f l :
  (forall o, o_id (f o) = o_id o) ->
  map o_id (update_overlay id f l) = map o_id l.
Proof.
  intros Hf. unfold update_overlay. induction l as [|o l IH]; [reflexivity|].
  cbn [map]. rewrite IH. destruct (Nat.eqb (o_id o) id); [now rewrite Hf | reflexivity].
Qed.

(** The blink branch keeps the idle screen: it only changes the
    transparency of the second intro overlay, to 255 or to 0. *)
Lemma blink_idle cfg base s w :
  idle_screen cfg base s w ->
  exists s1, res (blink s w) = Ok (Continue s1) /\ idle_screen cfg base s1 (st (blink s w)).
Proof.
  intros (id1 & id2 & alpha & H1 & H2 & Ho & Ha & Ht & Hi).
  assert (forall a, (a = 255 \/ a = 0)%Z -> forall k, k < 4 ->
            idle_screen cfg base {| i := k; overlay_1 := overlay_1 s; overlay_2 := overlay_2 s |}
              (with_alpha id2 a w)) as Hset.
  { intros a Haa k Hk. exists id1, id2, a. cbn [overlay_1 overlay_2 i].
    split; [exact H1|]. split; [exact H2|]. split; [|split; [exact Haa|split; [|exact Hk]]].
    - unfold with_alpha. cbn [overlays set_overlays].
      assert (overlays w = (base ++ [shown id1 (intro_image_1 cfg) 3]) ++
                {| o_id := id2; o_image := intro_image_2 cfg; o_layer := 4;
                   o_alpha := alpha |} :: []) as Ho'
        by (rewrite Ho, <- app_assoc; reflexivity).
      rewrite Ho'.
      rewrite (update_member (base ++ [shown id1 (intro_image_1 cfg) 3]) []
                 {| o_id := id2; o_image := intro_image_2 cfg; o_layer := 4;
                    o_alpha := alpha |})
        by (rewrite <- Ho'; apply tidy_NoDup, Ht).
      rewrite <- app_assoc. reflexivity.
    - destruct Ht as [Hnd Hlt]. unfold tidy, ids, with_alpha in *.
      cbn [overlays next_overlay set_overlays].
      rewrite ids_update by reflexivity. split; assumption. }
  assert (forall k, k < 4 ->
            idle_screen cfg base {| i := k; overlay_1 := overlay_1 s; overlay_2 := overlay_2 s |}
              w) as Hkeep.
  { intros k Hk. exists id1, id2, alpha. cbn [overlay_1 overlay_2 i]. auto 10. }
  unfold blink, blink_speed. rewrite H2 in *. cbn [Nat.mul Nat.add set_alpha].
  destruct (Nat.eqb_spec (i s + 1) 2) as [E2|N2].
  - eexists. split; [reflexivity|]. cbn [st].
    apply (Hset 255%Z); [now left | lia].
  - destruct (Nat.eqb_spec (i s + 1) 4) as [E4|N4].
    + eexists. split; [reflexivity|]. cbn [st].
      apply (Hset 0%Z); [now right | lia].
    + eexists. split; [reflexivity|]. cbn [st ret].
      apply Hkeep. lia.
Qed.

Lemma read_inputs_screen cfg p : preserves screen (read_inputs cfg p).
Proof.
  unfold read_inputs, GPIO_wait_for_edge, serial_receive, ser_reset_input_buffer, print.
  preserves.
Qed.

(** A turn of the loop that goes on keeps the idle screen, provided the
    get-ready overlay is a timed one. *)
Lemma cycle_idle cfg base s p w s1 :
  (0 < prep_delay cfg)%Z ->
  idle_screen cfg base s w ->
  res (cycle cfg s p w) = Ok (Continue s1) ->
  idle_screen cfg base s1 (st (cycle cfg s p w)).
Proof.
  intros Hprep Hidle Hres.
  assert (exists inputs, res (read_inputs cfg p w) = Ok inputs) as [inputs Hin].
  { unfold cycle in Hres. apply bind_ok_inv in Hres as (inputs & Hin & _). eauto. }
  rewrite (cycle_eq cfg s p w inputs Hin) in *. cbv zeta in *. cbn [res st] in *.
  pose proof (idle_screen_ext cfg base s w _ (read_inputs_screen cfg p w) Hidle) as Hidle0.
  set (w0 := st (read_inputs cfg p w)) in *.
  destruct (trigger_of inputs).
  - discriminate Hres.
  - destruct (session_screen cfg base s p w0 s1 Hidle0 Hres) as (n & -> & O & T).
    apply Z.ltb_lt in Hprep. rewrite Hprep, app_nil_r in O.
    destruct Hidle0 as (_ & _ & _ & _ & _ & _ & _ & _ & Hi).
    exists n, (S n), 255%Z. cbn [overlay_1 overlay_2 i]. auto 10.
  - destruct (blink_idle cfg base s w0 Hidle0) as (s' & R & Hidle1).
    rewrite R in Hres. injection Hres as <-. exact Hidle1.
Qed.

Lemma main_loop_idle cfg base polls : forall s w s1,
  (0 < prep_delay cfg)%Z ->
  idle_screen cfg base s w ->
  res (main_loop cfg polls s w) = Ok (Polling s1) ->
  idle_screen cfg base s1 (st (main_loop cfg polls s w)).
Proof.
  induction polls as [|p rest IH]; intros s w s1 Hprep Hidle Hres.
  - cbn [main_loop ret res st] in *. injection Hres as <-. exact Hidle.
  - cbn [main_loop] in *.
    destruct (bind_ok_inv _ _ _ _ Hres) as (c & Hc & Hrest).
    rewrite (bind_ok _ _ _ _ Hc) in *. cbn [res st] in *.
    destruct c as [s'| |]; [|discriminate Hrest|discriminate Hrest].
    apply (IH s' _ s1 Hprep); [|exact Hrest].
    now apply (cycle_idle cfg base s p w s').
Qed.

(** [main] opens with the idle screen. *)
Lemma main_intro_idle cfg w :
  tidy w ->
  idle_screen cfg (overlays w)
    {| i := 0; overlay_1 := Renderer (next_overlay w);
       overlay_2 := Renderer (S (next_overlay w)) |}
    (st (main cfg [] w)).
Proof.
  intros Ht. unfold main, print. rewrite !bind_emit. cbn [st].
  destruct (overlay_image_persistent (intro_image_1 cfg) 0 3 w eq_refl) as (R1 & _ & _).
  rewrite (bind_ok _ _ _ _ R1). cbn [st].
  rewrite (overlay_image_persistent_st _ 0 3 w Ht eq_refl).
  set (w1 := set_next_overlay (S (next_overlay w))
               (set_overlays (fun l => l ++ [shown (next_overlay w) (intro_image_1 cfg) 3]) w)).
  assert (tidy w1) as Ht1 by apply (tidy_shown w _ 3 Ht).
  destruct (overlay_image_persistent (intro_image_2 cfg) 0 4 w1 eq_refl) as (R2 & _ & _).
  rewrite (bind_ok _ _ _ _ R2). cbn [st main_loop ret].
  rewrite (overlay_image_persistent_st _ 0 4 w1 Ht1 eq_refl).
  exists (next_overlay w), (S (next_overlay w)), 255%Z. cbn [overlay_1 overlay_2 i].
  split; [reflexivity|]. split; [reflexivity|]. split; [|split; [now left|split; [|lia]]].
  - unfold w1. cbn [overlays next_overlay set_overlays set_next_overlay].
    rewrite <- app_assoc. reflexivity.
  - apply (tidy_shown w1 _ 4 Ht1).
Qed.

(** X4: when the get-ready delay is positive, the idle loop never has a
    stale overlay on screen: whatever turns have gone by -- silent ones,
    blinks, whole sessions -- as long as the program is still polling, the
    screen holds what it held when [main] started plus exactly the two
    intro overlays the loop has the handles of (the first opaque on layer 3,
    the second on layer 4, opaque or transparent), and the blink counter is
    below 4. *)
Theorem idle_screen_invariant (cfg : Config) (polls : list poll) (w : World) (s : idle) :
  (0 < prep_delay cfg)%Z ->
  tidy w ->
  res (main cfg polls w) = Ok (Polling s) ->
  idle_screen cfg (overlays w) s (st (main cfg polls w)).
Proof.
  intros Hprep Ht Hres. rewrite main_eq in *. cbv zeta in *. cbn [res st] in *.
  apply main_loop_idle; [exact Hprep | | exact Hres].
  now apply main_intro_idle.
Qed.

(** A silent turn, a session and a silent turn again. *)
Lemma idle_screen_invariant_witness :
  idle_screen (shipped "/b") []
    {| i := 2; overlay_1 := Renderer 13; overlay_2 := Renderer 14 |}
    (st (main (shipped "/b") [quiet_poll; noisy_press_poll; quiet_poll] fresh_world)).
Proof.
  refine (idle_screen_invariant (shipped "/b") [quiet_poll; noisy_press_poll; quiet_poll]
            fresh_world _ _ _ _).
  - reflexivity.
  - split; constructor.
  - vm_compute. reflexivity.
Defined.

(** X5: when the get-ready delay is zero or negative the get-ready overlay
    is a persistent one whose handle [prep_for_photo_screen] drops: after a
    session that goes back to the idle loop it is still on screen, on layer
    3 under the two new intro overlays, and it is neither of the overlays
    the loop holds. *)
Theorem get_ready_left_on_screen (cfg : Config) (base : list overlay) (s s1 : idle)
    (p : poll) (w : World) :
  (prep_delay cfg <= 0)%Z ->
  idle_screen cfg base s w ->
  res (session cfg s p w) = Ok (Continue s1) ->
  exists n,
    s1 = {| i := i s; overlay_1 := Renderer n; overlay_2 := Renderer (S n) |} /\
    overlays (st (session cfg s p w)) =
      base ++ [ shown (next_overlay w) (REAL_PATH cfg +:+ "/assets/get_ready.png") 3;
                shown n (intro_image_1 cfg) 3;
                shown (S n) (intro_image_2 cfg) 4 ] /\
    next_overlay w <> n /\ next_overlay w <> S n.
Proof.
  intros Hprep Hidle Hres.
  destruct (session_screen cfg base s p w s1 Hidle Hres) as (n & Hs1 & O & T).
  exists n. split; [exact Hs1|].
  replace (Z.ltb 0 (prep_delay cfg)) with false in O
    by (symmetry; apply Z.ltb_ge; exact Hprep).
  rewrite <- app_assoc in O. cbn [app] in O. split; [exact O|].
  apply tidy_NoDup in T. rewrite O, map_app in T. cbn [map shown o_id] in T.
  apply NoDup_app in T as (_ & _ & T).
  apply NoDup_cons in T as [T _].
  split; intros E; apply T; rewrite E; set_solver.
Qed.

Lemma get_ready_left_on_screen_witness :
  exists n,
    overlays (st (session
       {| TESTMODE_AUTOPRESS_BUTTON := false; TESTMODE_FAST := false;
          configured_total_pics := 2; configured_prep_delay := 0; REAL_PATH := "/b" |}
       {| i := 0; overlay_1 := Renderer 0; overlay_2 := Renderer 1 |} press_poll
       (st (main {| TESTMODE_AUTOPRESS_BUTTON := false; TESTMODE_FAST := false;
                    configured_total_pics := 2; configured_prep_delay := 0;
                    REAL_PATH := "/b" |} [] fresh_world)))) =
    [ shown 2 "/b/assets/get_ready.png" 3;
      shown n "/b/assets/intro_1.png" 3; shown (S n) "/b/assets/intro_2.png" 4 ].
Proof.
  destruct (get_ready_left_on_screen
    {| TESTMODE_AUTOPRESS_BUTTON := false; TESTMODE_FAST := false;
       configured_total_pics := 2; configured_prep_delay := 0; REAL_PATH := "/b" |}
    [] {| i := 0; overlay_1 := Renderer 0; overlay_2 := Renderer 1 |}
    {| i := 0; overlay_1 := Renderer 9; overlay_2 := Renderer 10 |}
    press_poll
    (st (main {| TESTMODE_AUTOPRESS_BUTTON := false; TESTMODE_FAST := false;
                 configured_total_pics := 2; configured_prep_delay := 0;
                 REAL_PATH := "/b" |} [] fresh_world)))
    as (n & _ & O & _).
  - cbn. lia.
  - apply (main_intro_idle _ fresh_world). split; constructor.
  - vm_compute. reflexivity.
  - exists n. exact O.
Defined.

(** * Sessions and the disk *)

Lemma playback_loop_disk cfg filename_prefix l : forall prev,
  preserves disk (playback_loop cfg filename_prefix l prev).
Proof.
  induction l as [|k l IH]; intros prev; cbn [playback_loop]; unfold sleep.
  - apply preserves_ret.
  - preserves; first [apply overlay_image_disk | apply remove_overlay_disk | apply IH].
Qed.

Lemma end_session_disk cfg s p filename_prefix :
  preserves disk (end_session cfg s p filename_prefix).
Proof.
  unfold end_session, playback_screen, serial_receive, ser_reset_input_buffer, print.
  cbv zeta.
  preserves; first [apply overlay_image_disk | apply remove_overlay_disk
                   | apply playback_loop_disk].
Qed.

(** A session completes exactly when it takes no photo or its directory
    step succeeds; in the latter case the step still succeeds afterwards. *)
Lemma session_completed_aux cfg s p w :
  completed (session cfg s p w) = true <->
  total_pics cfg = 0 \/
  res (ensure_dir (Naming.get_base_filename_for_images (REAL_PATH cfg) (now p)) w) = Ok tt.
Proof.
  unfold completed. rewrite session_eq. cbv zeta.
  set (prefix := Naming.get_base_filename_for_images (REAL_PATH cfg) (now p)).
  set (w0 := st (begin_session cfg s w)).
  rewrite <- (ensure_dir_res_disk prefix w w0 (begin_session_disk cfg s w)).
  assert (forall w1, match res (end_session cfg s p prefix w1) with
                     | Ok _ => true | Raise _ => false end = true) as Hend.
  { intros w1. destruct (end_session_total cfg s p prefix w1) as [c ->]. reflexivity. }
  unfold capture_photos.
  destruct (total_pics cfg) as [|n].
  - cbn [seq for_each ret res st]. split; [now left | intros _; apply Hend].
  - destruct (res (for_each (seq 1 (S n)) (fun k => taking_photo cfg k prefix) w0))
      as [[]|e] eqn:E; cbn [res].
    + split; [|intros _; apply Hend]. intros _. right.
      exact (capture_loop_started cfg prefix n 1 w0 E).
    + split; [discriminate|]. intros [H|H]; [discriminate H|].
      destruct (capture_loop cfg prefix (S n) 1 w0 H) as (R & _). cbv zeta in R.
      rewrite R in E. discriminate E.
Qed.

Lemma session_dir_after cfg s p w :
  completed (session cfg s p w) = true ->
  total_pics cfg = 0 \/
  res (ensure_dir (Naming.get_base_filename_for_images (REAL_PATH cfg) (now p))
         (st (session cfg s p w))) = Ok tt.
Proof.
  intros Hdone. pose proof (proj1 (session_completed_aux cfg s p w) Hdone) as [H0|Hdir];
    [now left|].
  destruct (Nat.eq_dec (total_pics cfg) 0) as [H0|HN]; [now left|]. right.
  rewrite session_eq. cbv zeta.
  set (prefix := Naming.get_base_filename_for_images (REAL_PATH cfg) (now p)) in *.
  set (w0 := st (begin_session cfg s w)).
  assert (res (ensure_dir prefix w0) = Ok tt) as Hdir0
    by (rewrite (ensure_dir_res_disk prefix w w0 (begin_session_disk cfg s w)); exact Hdir).
  destruct (capture_loop cfg prefix (total_pics cfg) 1 w0 Hdir0) as (R & _ & _ & Hafter).
  cbv zeta in R, Hafter. fold (capture_photos cfg prefix) in R, Hafter.
  rewrite R. cbn [st].
  now rewrite (ensure_dir_res_disk prefix _ _ (end_session_disk cfg s p prefix _)).
Qed.

Lemma str_seconds_same_second d1 d2 :
  Naming.to_second d1 = Naming.to_second d2 -> Naming.str_seconds d1 = Naming.str_seconds d2.
Proof.
  unfold Naming.to_second, Naming.str_seconds. intros H.
  injection H as -> -> -> -> -> ->. reflexivity.
Qed.

Lemma base_filename_same_second real_path d1 d2 :
  Naming.to_second d1 = Naming.to_second d2 ->
  Naming.get_base_filename_for_images real_path d1 =
  Naming.get_base_filename_for_images real_path d2.
Proof.
  intros H. rewrite !NamingFacts.base_filename_shape.
  now rewrite (str_seconds_same_second d1 d2 H).
Qed.

(** X9: the base name forgets the microseconds, so two sessions started
    within the same second share one directory: the second one completes
    on the disk the first one left (the directory being there is not an
    error) and writes the very same paths, over the photos of the first. *)
Theorem same_second_sessions_collide (cfg : Config) (s1 s2 : idle) (p1 p2 : poll)
    (w : World) :
  Naming.to_second (now p1) = Naming.to_second (now p2) ->
  completed (session cfg s1 p1 w) = true ->
  Naming.get_base_filename_for_images (REAL_PATH cfg) (now p1) =
    Naming.get_base_filename_for_images (REAL_PATH cfg) (now p2) /\
  completed (session cfg s2 p2 (st (session cfg s1 p1 w))) = true /\
  files_written (out (session cfg s2 p2 (st (session cfg s1 p1 w)))) =
    files_written (out (session cfg s1 p1 w)).
Proof.
  intros Hsec Hdone.
  pose proof (base_filename_same_second (REAL_PATH cfg) _ _ Hsec) as Hname.
  assert (completed (session cfg s2 p2 (st (session cfg s1 p1 w))) = true) as Hdone2.
  { apply session_completed_aux. rewrite <- Hname. now apply session_dir_after. }
  split; [exact Hname|]. split; [exact Hdone2|].
  rewrite (session_files _ _ _ _ Hdone), (session_files _ _ _ _ Hdone2).
  now rewrite Hname.
Qed.

Lemma same_second_sessions_collide_witness :
  files_written (out (session (shipped "/b")
      {| i := 0; overlay_1 := Renderer 13; overlay_2 := Renderer 14 |}
      {| interrupted := None; camera_edge := Some pin_camera_btn; exit_edge := None;
         serial_bytes := 0;
         now := {| Naming.year := 2017; Naming.month := 12; Naming.day := 31;
                   Naming.hour := 23; Naming.minute := 59; Naming.second := 59;
                   Naming.microsecond := 999999 |};
         session_bytes := 0 |}
      (st (session (shipped "/b")
             {| i := 0; overlay_1 := Renderer 0; overlay_2 := Renderer 1 |}
             press_poll (st (main (shipped "/b") [] fresh_world)))))) =
  files_written (out (session (shipped "/b")
      {| i := 0; overlay_1 := Renderer 0; overlay_2 := Renderer 1 |}
      press_poll (st (main (shipped "/b") [] fresh_world)))).
Proof.
  refine (proj2 (proj2 (same_second_sessions_collide (shipped "/b") _ _ press_poll _ _ _ _))).
  - reflexivity.
  - vm_compute. reflexivity.
Defined.

(** ** Directories are never removed *)

Lemma keeps_dirs_of_disk {A} (m : M A) : preserves disk m -> keeps_dirs m.
Proof.
  intros H w. specialize (H w). unfold disk in H. injection H as Hd _.
  now rewrite Hd.
Qed.

Lemma keeps_dirs_bind {A B} (m : M A) (k : A -> M B) :
  keeps_dirs m -> (forall a, keeps_dirs (k a)) -> keeps_dirs (bind m k).
Proof.
  intros Hm Hk w. specialize (Hm w). unfold bind.
  destruct (m w) as [[a|e] w1 t1]; cbn [st] in *; [|exact Hm].
  specialize (Hk a w1). destruct (k a w1) as [r w2 t2]. cbn [st] in *.
  set_solver.
Qed.

Lemma keeps_dirs_for_each {A} (l : list A) (body : A -> M unit) :
  (forall x, keeps_dirs (body x)) -> keeps_dirs (for_each l body).
Proof.
  intros Hb. induction l as [|x l IH]; cbn [for_each].
  - apply keeps_dirs_of_disk. apply preserves_ret.
  - apply keeps_dirs_bind; [apply Hb | intros _; exact IH].
Qed.

Lemma ensure_dir_keeps_dirs dirname : keeps_dirs (ensure_dir dirname).
Proof.
  intros w. rewrite ensure_dir_eq.
  destruct (bool_decide _); [cbn [st]; set_solver|].
  destruct (mk_fault w dirname) as [errno|].
  - destruct (Z.eqb errno EEXIST); cbn [st]; set_solver.
  - cbn [st dirs set_dirs]. set_solver.
Qed.

Lemma taking_photo_keeps_dirs cfg photo_number filename_prefix :
  keeps_dirs (taking_photo cfg photo_number filename_prefix).
Proof.
  unfold taking_photo. cbv zeta.
  apply keeps_dirs_bind; [apply ensure_dir_keeps_dirs | intros _].
  apply keeps_dirs_of_disk.
  unfold print_overlay, camera_capture, print, sleep.
  preserves; apply overlay_image_disk.
Qed.

Lemma session_keeps_dirs cfg s p : keeps_dirs (session cfg s p).
Proof.
  unfold session. cbv zeta.
  apply keeps_dirs_bind; [apply keeps_dirs_of_disk; intros w; apply begin_session_disk | intros _].
  apply keeps_dirs_bind;
    [|intros _; apply keeps_dirs_of_disk; intros w; apply end_session_disk].
  unfold capture_photos. apply keeps_dirs_for_each. intros k. apply taking_photo_keeps_dirs.
Qed.

Lemma cycle_keeps_dirs cfg s p : keeps_dirs (cycle cfg s p).
Proof.
  unfold cycle. apply keeps_dirs_bind.
  - apply keeps_dirs_of_disk.
    unfold read_inputs, GPIO_wait_for_edge, serial_receive, ser_reset_input_buffer, print.
    preserves.
  - intros [[e|] [x|]].
    + apply keeps_dirs_of_disk, preserves_ret.
    + apply keeps_dirs_of_disk, preserves_ret.
    + apply session_keeps_dirs.
    + apply keeps_dirs_of_disk. unfold blink, set_alpha. preserves.
Qed.

Lemma main_loop_keeps_dirs cfg polls : forall s, keeps_dirs (main_loop cfg polls s).
Proof.
  induction polls as [|p rest IH]; intros s; cbn [main_loop].
  - apply keeps_dirs_of_disk, preserves_ret.
  - apply keeps_dirs_bind; [apply cycle_keeps_dirs|].
    intros [s'| |]; [apply IH | |]; apply keeps_dirs_of_disk, preserves_ret.
Qed.

Lemma main_keeps_dirs cfg polls : keeps_dirs (main cfg polls).
Proof.
  unfold main, print.
  do 3 (apply keeps_dirs_bind; [apply keeps_dirs_of_disk, preserves_emit | intros _]).
  apply keeps_dirs_bind; [apply keeps_dirs_of_disk; intros w; apply overlay_image_disk | intros o1].
  apply keeps_dirs_bind; [apply keeps_dirs_of_disk; intros w; apply overlay_image_disk | intros o2].
  apply main_loop_keeps_dirs.
Qed.

Lemma program_dirs cfg polls w :
  dirs (st (program cfg polls w)) = dirs (st (main cfg polls w)).
Proof.
  unfold program. cbv zeta.
  destruct (res (main cfg polls w)) as [[s|]|e]; [reflexivity | reflexivity |].
  destruct e; reflexivity.
Qed.

(** ** The directories asked for *)

Section Makes_only.
Variable D : gset string.

Lemma overlay_image_makes image d layer : emits_only (makes_only D) (overlay_image image d layer).
Proof. unfold overlay_image, camera_add_overlay, set_layer, sleep, camera_remove_overlay. emits. Qed.

Lemma remove_overlay_makes h : emits_only (makes_only D) (remove_overlay h).
Proof. unfold remove_overlay, camera_remove_overlay. emits. Qed.

Lemma ensure_dir_makes dirname : dirname ∈ D -> emits_only (makes_only D) (ensure_dir dirname).
Proof.
  intros H w. rewrite ensure_dir_out. cbn [forallb makes_only].
  now rewrite bool_decide_eq_true_2.
Qed.

Lemma playback_loop_makes cfg filename_prefix l : forall prev,
  emits_only (makes_only D) (playback_loop cfg filename_prefix l prev).
Proof.
  induction l as [|k l IH]; intros prev; cbn [playback_loop]; unfold sleep.
  - apply emits_only_ret.
  - emits; first [apply overlay_image_makes | apply remove_overlay_makes | apply IH].
Qed.

Lemma session_makes cfg s p :
  Naming.get_base_filename_for_images (REAL_PATH cfg) (now p) ∈ D ->
  emits_only (makes_only D) (session cfg s p).
Proof.
  intros H. unfold session. cbv zeta.
  apply emits_only_bind; [|intros _; apply emits_only_bind; [|intros _]].
  - unfold begin_session, prep_for_photo_screen, print.
    emits; first [apply overlay_image_makes | apply remove_overlay_makes].
  - unfold capture_photos. apply emits_only_for_each. intros k.
    unfold taking_photo. cbv zeta.
    apply emits_only_bind; [apply ensure_dir_makes, H | intros _].
    unfold print_overlay, camera_capture, print, sleep.
    emits; apply overlay_image_makes.
  - unfold end_session, playback_screen, serial_receive, ser_reset_input_buffer, print.
    cbv zeta.
    emits; first [apply overlay_image_makes | apply remove_overlay_makes
                 | apply playback_loop_makes].
Qed.

Lemma cycle_makes cfg s p :
  Naming.get_base_filename_for_images (REAL_PATH cfg) (now p) ∈ D ->
  emits_only (makes_only D) (cycle cfg s p).
Proof.
  intros H. unfold cycle. apply emits_only_bind.
  - unfold read_inputs, GPIO_wait_for_edge, serial_receive, ser_reset_input_buffer, print.
    emits.
  - intros [[e|] [x|]].
    + apply emits_only_ret.
    + apply emits_only_ret.
    + apply session_makes, H.
    + unfold blink, set_alpha. emits.
Qed.

Lemma main_loop_makes cfg polls :
  session_dirs cfg polls ⊆ D ->
  forall s, emits_only (makes_only D) (main_loop cfg polls s).
Proof.
  induction polls as [|p rest IH]; intros H s; cbn [main_loop].
  - apply emits_only_ret.
  - unfold session_dirs in H. cbn [map list_to_set] in H.
    apply emits_only_bind; [apply cycle_makes; set_solver|].
    intros [s'| |]; [|apply emits_only_ret|apply emits_only_ret].
    apply IH. unfold session_dirs. set_solver.
Qed.

Lemma main_makes cfg polls :
  session_dirs cfg polls ⊆ D -> emits_only (makes_only D) (main cfg polls).
Proof.
  intros H. unfold main, print.
  do 3 (apply emits_only_bind; [apply emits_only_emit; reflexivity | intros _]).
  apply emits_only_bind; [apply overlay_image_makes | intros o1].
  apply emits_only_bind; [apply overlay_image_makes | intros o2].
  now apply main_loop_makes.
Qed.

Lemma program_makes cfg polls w :
  session_dirs cfg polls ⊆ D ->
  forallb (makes_only D) (out (program cfg polls w)) = true.
Proof.
  intros H. pose proof (main_makes cfg polls H w) as Hm.
  unfold program. cbv zeta.
  destruct (res (main cfg polls w)) as [[s|]|e]; cbn [out].
  - exact Hm.
  - now rewrite forallb_app, Hm.
  - rewrite forallb_app, Hm. destruct e; reflexivity.
Qed.

Lemma makedirs_calls_in t path :
  forallb (makes_only D) t = true -> path ∈ makedirs_calls t -> path ∈ D.
Proof.
  unfold makedirs_calls. induction t as [|e t IH]; cbn [forallb omap].
  - intros _ Hin. now apply elem_of_nil in Hin.
  - intros He Hin. apply andb_true_iff in He as [He Ht].
    destruct e; cbn [makes_dir] in Hin; try (now apply IH).
    apply elem_of_cons in Hin as [-> | Hin]; [|now apply IH].
    cbn [makes_only] in He. now apply bool_decide_eq_true in He.
Qed.
End Makes_only.

(** X8: the program never deletes a directory, and the only directories it
    ever asks [os.makedirs] for are session directories, named after the
    time of a turn of the loop: whatever it is fed, the directories that
    were there before the run are there after it, and every [os.makedirs]
    call it made was for the base name of one of its turns. *)
Theorem directories_only_added (cfg : Config) (polls : list poll) (w : World) :
  dirs w ⊆ dirs (st (program cfg polls w)) /\
  forall path, path ∈ makedirs_calls (out (program cfg polls w)) ->
               path ∈ session_dirs cfg polls.
Proof.
  split.
  - rewrite program_dirs. apply main_keeps_dirs.
  - intros path. apply makedirs_calls_in. now apply program_makes.
Qed.

(** One session in fast-test mode: one photo, one call of [os.makedirs]. *)
Example directories_asked_for_in_one_session :
  makedirs_calls (out (program (fast_only "/b") [quiet_poll; press_poll; exit_poll]
                         fresh_world)) =
  [ "/b/photos/2017-12-31_23-59-59" ].
Proof. vm_compute. reflexivity. Qed.

(** * The input multiplexer *)

(** X3: what a turn of the loop makes of its sources, when no signal
    interrupts the first wait.  It yields Exit exactly when the exit button
    fired, and then the serial line is not even looked at; otherwise it
    yields Capture exactly when the photo button fired, or bytes are waiting
    on the serial line, or the auto-press flag is set, and None exactly when
    none of these holds; and after every turn that does not exit the serial
    input buffer is empty. *)
Theorem input_multiplexer (cfg : Config) (p : poll) (w : World) :
  interrupted p = None ->
  exists inputs,
    res (read_inputs cfg p w) = Ok inputs /\
    (trigger_of inputs = TExit <-> exit_edge p <> None) /\
    (trigger_of inputs = TCapture <->
       exit_edge p = None /\
       (camera_edge p <> None \/ 0 < in_waiting w + serial_bytes p \/
        TESTMODE_AUTOPRESS_BUTTON cfg = true)) /\
    (trigger_of inputs = TNone <->
       exit_edge p = None /\ camera_edge p = None /\
       in_waiting w + serial_bytes p = 0 /\ TESTMODE_AUTOPRESS_BUTTON cfg = false) /\
    (exit_edge p = None -> in_waiting (st (read_inputs cfg p w)) = 0) /\
    (exit_edge p <> None ->
       st (read_inputs cfg p w) = w /\ out (read_inputs cfg p w) = waits).
Proof.
  intros Hi. rewrite (read_inputs_eq cfg p w Hi).
  destruct (exit_edge p) as [e|].
  - eexists. split; [reflexivity|]. cbn [trigger_of st out].
    repeat apply conj; try (split; intros; intuition (discriminate || congruence));
      intuition (discriminate || congruence).
  - cbv zeta. destruct (Nat.ltb_spec 0 (in_waiting w + serial_bytes p)) as [Hn|Hn].
    + eexists. split; [reflexivity|]. cbn [trigger_of st in_waiting set_in_waiting].
      repeat apply conj; try (split; intros; intuition (discriminate || congruence || lia));
        intuition (discriminate || congruence || lia).
    + eexists. split; [reflexivity|]. cbn [st in_waiting set_in_waiting].
      destruct (TESTMODE_AUTOPRESS_BUTTON cfg); [|destruct (camera_edge p)];
        cbn [option_map trigger_of];
        repeat apply conj;
        try (split; intros; intuition (discriminate || congruence || lia));
        intuition (discriminate || congruence || lia).
Qed.

(** Bytes on the serial line count as a press of the photo button, and are
    drained. *)
Lemma input_multiplexer_witness :
  exists inputs,
    res (read_inputs (shipped "/b") quiet_poll (set_in_waiting 3 fresh_world)) = Ok inputs /\
    trigger_of inputs = TCapture /\
    in_waiting (st (read_inputs (shipped "/b") quiet_poll (set_in_waiting 3 fresh_world))) = 0.
Proof.
  destruct (input_multiplexer (shipped "/b") quiet_poll (set_in_waiting 3 fresh_world) eq_refl)
    as (inputs & R & _ & Hc & _ & Hw & _).
  exists inputs. split; [exact R|]. split.
  - apply Hc. split; [reflexivity|]. right. left. cbn. lia.
  - apply Hw. reflexivity.
Defined.

(** X11: during a session the buttons are never polled: from the greeting
    to the return to the intro screen a session makes no call of
    [GPIO.wait_for_edge], so neither the exit button nor a second press of
    the photo button is seen before the session is over. *)
Theorem session_never_polls (cfg : Config) (s : idle) (p : poll) (w : World) :
  forallb no_wait (out (session cfg s p w)) = true.
Proof.
  revert w. change (emits_only no_wait (session cfg s p)).
  unfold session, begin_session, capture_photos, end_session, taking_photo,
    ensure_dir, os_makedirs, playback_screen, prep_for_photo_screen, print_overlay,
    camera_capture, serial_receive, ser_reset_input_buffer, print, sleep.
  assert (forall image d layer, emits_only no_wait (overlay_image image d layer)) as Ho.
  { intros. unfold overlay_image, camera_add_overlay, set_layer, sleep,
      camera_remove_overlay. emits. }
  assert (forall h, emits_only no_wait (remove_overlay h)) as Hr.
  { intros. unfold remove_overlay, camera_remove_overlay. emits. }
  assert (forall l prev, emits_only no_wait
            (playback_loop cfg (Naming.get_base_filename_for_images (REAL_PATH cfg) (now p))
               l prev)) as Hl.
  { induction l as [|k l IH]; intros prev; cbn [playback_loop]; unfold sleep.
    - apply emits_only_ret.
    - emits; first [apply Ho | apply Hr | apply IH]. }
  cbv zeta.
  emits; first [apply Ho | apply Hr | apply Hl].
Qed.

(** * The auto-press flag *)

Lemma cycle_autopress_stops cfg s p w c :
  TESTMODE_AUTOPRESS_BUTTON cfg = true ->
  res (cycle cfg s p w) = Ok c -> c = Return \/ c = Break.
Proof.
  intros Hauto H.
  assert (exists inputs, res (read_inputs cfg p w) = Ok inputs) as [inputs Hin].
  { unfold cycle in H. apply bind_ok_inv in H as (inputs & Hin & _). eauto. }
  assert (trigger_of inputs <> TNone) as Hnone.
  { destruct (interrupted p) as [e0|] eqn:Hi.
    - unfold read_inputs, GPIO_wait_for_edge in Hin. rewrite Hi in Hin.
      unfold bind, emit, raise in Hin. discriminate Hin.
    - rewrite (read_inputs_eq cfg p w Hi), Hauto in Hin.
      destruct (exit_edge p); [injection Hin as <-; discriminate|].
      cbv zeta in Hin. destruct (Nat.ltb 0 _); injection Hin as <-; discriminate. }
  rewrite (cycle_eq cfg s p w inputs Hin) in H. cbv zeta in H. cbn [res] in H.
  destruct (trigger_of inputs); [|right|congruence].
  - left. cbn in H. congruence.
  - assert (completed (session cfg s p (st (read_inputs cfg p w))) = true) as Hdone
      by (unfold completed; now rewrite H).
    pose proof (session_end cfg s p _ Hdone) as He. rewrite Hauto in He. congruence.
Qed.

Lemma main_loop_autopress cfg p rest s w :
  TESTMODE_AUTOPRESS_BUTTON cfg = true ->
  main_loop cfg (p :: rest) s w = main_loop cfg [p] s w /\
  res (main_loop cfg (p :: rest) s w) <> Ok (Polling s) /\
  forall s', res (main_loop cfg (p :: rest) s w) <> Ok (Polling s').
Proof.
  intros Hauto.
  destruct (res (cycle cfg s p w)) as [c|e] eqn:E.
  - destruct (cycle_autopress_stops cfg s p w c Hauto E) as [Hc|Hc].
    + assert (cycle cfg s p w = mkOut (Ok c) (st (cycle cfg s p w)) (out (cycle cfg s p w)))
        as Hcy by (destruct (cycle cfg s p w); cbn [res] in E; now subst).
      rewrite (main_loop_stop cfg p rest s w c _ _ Hcy (or_introl Hc)).
      rewrite (main_loop_stop cfg p [] s w c _ _ Hcy (or_introl Hc)).
      split; [reflexivity|]. split; [discriminate | intros s'; discriminate].
    + assert (cycle cfg s p w = mkOut (Ok c) (st (cycle cfg s p w)) (out (cycle cfg s p w)))
        as Hcy by (destruct (cycle cfg s p w); cbn [res] in E; now subst).
      rewrite (main_loop_stop cfg p rest s w c _ _ Hcy (or_intror Hc)).
      rewrite (main_loop_stop cfg p [] s w c _ _ Hcy (or_intror Hc)).
      split; [reflexivity|]. split; [discriminate | intros s'; discriminate].
  - cbn [main_loop]. rewrite !(bind_raise _ _ _ _ E).
    split; [reflexivity|]. split; [discriminate | intros s'; discriminate].
Qed.

(** X12: with the auto-press flag set the process is over after the first
    turn of the loop, whatever that turn brings (a session, the exit button,
    an interrupt, a directory that cannot be created): it never goes back to
    polling, and input that would come later changes nothing. *)
Theorem autopress_single_turn (cfg : Config) (p : poll) (rest : list poll) (w : World) :
  TESTMODE_AUTOPRESS_BUTTON cfg = true ->
  program cfg (p :: rest) w = program cfg [p] w /\
  exists uncaught, res (program cfg (p :: rest) w) = Ok (Exited uncaught).
Proof.
  intros Hauto.
  assert (main cfg (p :: rest) w = main cfg [p] w /\
          forall s', res (main cfg (p :: rest) w) <> Ok (Polling s')) as [Hmain Hnot].
  { rewrite (main_eq cfg (p :: rest) w), (main_eq cfg [p] w). cbv zeta.
    destruct (main_loop_autopress cfg p rest
                {| i := 0; overlay_1 := Renderer (next_overlay w);
                   overlay_2 := Renderer (S (next_overlay w)) |}
                (st (main cfg [] w)) Hauto) as (-> & _ & Hn).
    split; [reflexivity|]. cbn [res]. exact Hn. }
  split.
  - unfold program. now rewrite Hmain.
  - unfold program. cbv zeta.
    destruct (res (main cfg (p :: rest) w)) as [[s'|]|e]; cbn [res]; eauto.
    exfalso. exact (Hnot s' eq_refl).
Qed.

Lemma autopress_single_turn_witness :
  program (autopress_only "/b") [quiet_poll; quiet_poll; press_poll] fresh_world =
  program (autopress_only "/b") [quiet_poll] fresh_world.
Proof.
  exact (proj1 (autopress_single_turn (autopress_only "/b") quiet_poll
                  [quiet_poll; press_poll] fresh_world eq_refl)).
Defined.

(** * How long a session takes *)

Lemma slept_cons e t :
  slept (e :: t) = match e with ESleep d => (d + slept t)%Q | _ => slept t end.
Proof. reflexivity. Qed.

Lemma slept_app t1 t2 : (slept (t1 ++ t2) == slept t1 + slept t2)%Q.
Proof.
  induction t1 as [|e t1 IH].
  - change (slept []) with 0%Q. cbn [app]. ring.
  - cbn [app]. rewrite !slept_cons. destruct e; try exact IH.
    rewrite IH. ring.
Qed.

Lemma slept_quiet t : forallb no_sleep t = true -> slept t = 0%Q.
Proof.
  induction t as [|e t IH]; [reflexivity|].
  cbn [forallb]. intros H. apply andb_true_iff in H as [He Ht].
  rewrite slept_cons.
  destruct e; try discriminate He; exact (IH Ht).
Qed.

Lemma sleeps_proper {A} (m : M A) q q' : (q == q')%Q -> sleeps m q -> sleeps m q'.
Proof. intros Hq H w a Ha. rewrite (H w a Ha). exact Hq. Qed.

Lemma sleeps_quiet {A} (m : M A) : emits_only no_sleep m -> sleeps m 0.
Proof. intros H w a _. rewrite (slept_quiet _ (H w)). reflexivity. Qed.

Lemma sleeps_bind {A B} (m : M A) (k : A -> M B) q1 q2 :
  sleeps m q1 -> (forall a, sleeps (k a) q2) -> sleeps (bind m k) (q1 + q2).
Proof.
  intros Hm Hk w b Hb.
  destruct (bind_ok_inv _ _ _ _ Hb) as (a & Ha & Hb').
  rewrite (bind_ok _ _ _ _ Ha). cbn [out].
  rewrite slept_app, (Hm w a Ha), (Hk a _ b Hb'). reflexivity.
Qed.

Lemma overlay_image_sleeps image d layer :
  sleeps (overlay_image image d layer) (if positive_duration d then d else 0).
Proof.
  intros w a _. destruct (positive_duration d) eqn:Hd.
  - destruct (overlay_image_timed image d layer w Hd) as (_ & -> & _).
    cbn [slept fold_right]. ring.
  - destruct (overlay_image_persistent image d layer w Hd) as (_ & -> & _).
    reflexivity.
Qed.

Lemma remove_overlay_no_sleep h : emits_only no_sleep (remove_overlay h).
Proof. unfold remove_overlay, camera_remove_overlay. emits. Qed.

Lemma begin_session_sleeps cfg s :
  sleeps (begin_session cfg s)
    (if Z.ltb 0 (prep_delay cfg) then inject_Z (prep_delay cfg) else 0).
Proof.
  unfold begin_session, prep_for_photo_screen, print. cbv zeta.
  eapply sleeps_proper;
    [|apply sleeps_bind; [apply sleeps_quiet; emits | intros _];
      apply sleeps_bind; [apply sleeps_quiet, remove_overlay_no_sleep | intros _];
      apply sleeps_bind; [apply sleeps_quiet, remove_overlay_no_sleep | intros _];
      apply sleeps_bind; [apply overlay_image_sleeps | intros _];
      apply sleeps_quiet; emits].
  rewrite positive_inject_Z. ring.
Qed.

Lemma slept_photo_steps cfg filename_prefix flash_id k :
  (slept (photo_steps cfg filename_prefix flash_id k) == 31 # 10)%Q.
Proof. unfold photo_steps. cbn [slept fold_right]. reflexivity. Qed.

Lemma slept_capture_steps cfg filename_prefix n : forall flash_id first,
  (slept (capture_steps cfg filename_prefix flash_id first n) ==
   inject_Z (Z.of_nat n) * (31 # 10))%Q.
Proof.
  induction n as [|n IH]; intros flash_id first.
  - cbn [capture_steps slept fold_right]. reflexivity.
  - cbn [capture_steps]. rewrite slept_app, slept_photo_steps, IH.
    rewrite Nat2Z.inj_succ, <- Z.add_1_r, inject_Z_plus. ring.
Qed.

Lemma slept_slideshow_steps cfg filename_prefix n : forall prev first,
  (slept (slideshow_steps cfg filename_prefix prev first n) == inject_Z (Z.of_nat n))%Q.
Proof.
  induction n as [|n IH]; intros prev first.
  - cbn [slideshow_steps slept fold_right]. reflexivity.
  - cbn [slideshow_steps]. rewrite slept_app, IH.
    rewrite Nat2Z.inj_succ, <- Z.add_1_r, inject_Z_plus.
    cbn [slept fold_right]. ring.
Qed.

Lemma capture_photos_sleeps cfg filename_prefix :
  sleeps (capture_photos cfg filename_prefix) (inject_Z (Z.of_nat (total_pics cfg)) * (31 # 10)).
Proof.
  intros w [] H. destruct (capture_iterations_order_aux cfg filename_prefix w H) as [-> _].
  apply slept_capture_steps.
Qed.

Lemma playback_screen_sleeps cfg filename_prefix :
  sleeps (playback_screen cfg filename_prefix) (inject_Z (Z.of_nat (total_pics cfg)) + 20).
Proof.
  intros w a _. destruct (playback_screen_steps cfg filename_prefix w) as [_ ->].
  rewrite !slept_app, slept_slideshow_steps.
  unfold playback_opening, playback_closing. cbn [slept fold_right]. ring.
Qed.

Lemma end_session_sleeps cfg s p filename_prefix :
  sleeps (end_session cfg s p filename_prefix) (inject_Z (Z.of_nat (total_pics cfg)) + 20).
Proof.
  unfold end_session.
  eapply sleeps_proper;
    [|apply sleeps_bind; [apply playback_screen_sleeps | intros _];
      apply sleeps_quiet].
  - ring.
  - unfold serial_receive, ser_reset_input_buffer, print.
    assert (forall image layer, emits_only no_sleep (overlay_image image 0 layer)) as Ho.
    { intros. unfold overlay_image, camera_add_overlay, set_layer.
      change (positive_duration 0) with false. emits. }
    emits; apply Ho.
Qed.

(** X10: a session that completes spends in [sleep] the get-ready delay
    (when it is positive), 3.1 seconds for each photo (the countdown and
    the flash), one second for each photo played back, and the 20 seconds of
    the closing overlay: [prep_delay + 4.1 * total_pics + 20] seconds. *)
Theorem session_duration (cfg : Config) (s : idle) (p : poll) (w : World) :
  completed (session cfg s p w) = true ->
  (slept (out (session cfg s p w)) ==
   (if Z.ltb 0 (prep_delay cfg) then inject_Z (prep_delay cfg) else 0) +
   inject_Z (Z.of_nat (total_pics cfg)) * (41 # 10) + 20)%Q.
Proof.
  unfold completed. intros Hdone.
  destruct (res (session cfg s p w)) as [c|e] eqn:Hres; [|discriminate Hdone].
  assert (sleeps (session cfg s p)
            ((if Z.ltb 0 (prep_delay cfg) then inject_Z (prep_delay cfg) else 0) +
             (inject_Z (Z.of_nat (total_pics cfg)) * (31 # 10) +
              (inject_Z (Z.of_nat (total_pics cfg)) + 20)))) as H.
  { unfold session. cbv zeta.
    apply sleeps_bind; [apply begin_session_sleeps | intros _].
    apply sleeps_bind; [apply capture_photos_sleeps | intros _].
    apply end_session_sleeps. }
  rewrite (H w c Hres). ring.
Qed.

(** The shipped script: 10 + 4 * 4.1 + 20 = 46.4 seconds. *)
Lemma session_duration_witness :
  (slept (out (session (shipped "/b")
                 {| i := 0; overlay_1 := Renderer 0; overlay_2 := Renderer 1 |}
                 press_poll (st (main (shipped "/b") [] fresh_world)))) ==
   (if Z.ltb 0 (prep_delay (shipped "/b")) then inject_Z (prep_delay (shipped "/b")) else 0) +
   inject_Z (Z.of_nat (total_pics (shipped "/b"))) * (41 # 10) + 20)%Q.
Proof.
  apply (session_duration (shipped "/b")). vm_compute. reflexivity.
Defined.

Example session_duration_shipped :
  (slept (out (session (shipped "/b")
                 {| i := 0; overlay_1 := Renderer 0; overlay_2 := Renderer 1 |}
                 press_poll (st (main (shipped "/b") [] fresh_world)))) == 464 # 10)%Q.
Proof. vm_compute. reflexivity. Qed.

(** * The countdown text *)

Lemma keeps_text_of_preserves {A} (m : M A) : preserves annotate_text m -> keeps_text m.
Proof. intros H w Hw. now rewrite H. Qed.

Lemma keeps_text_bind {A B} (m : M A) (k : A -> M B) :
  keeps_text m -> (forall a, keeps_text (k a)) -> keeps_text (bind m k).
Proof.
  intros Hm Hk w Hw. specialize (Hm w Hw). unfold bind.
  destruct (m w) as [[a|e] w1 t1]; cbn [st] in *; [|exact Hm].
  specialize (Hk a w1 Hm). now destruct (k a w1).
Qed.

Lemma keeps_text_for_each {A} (l : list A) (body : A -> M unit) :
  (forall x, keeps_text (body x)) -> keeps_text (for_each l body).
Proof.
  intros Hb. induction l as [|x l IH]; cbn [for_each].
  - apply keeps_text_of_preserves, preserves_ret.
  - apply keeps_text_bind; [apply Hb | intros _; exact IH].
Qed.

Lemma overlay_image_text image d layer : preserves annotate_text (overlay_image image d layer).
Proof. unfold overlay_image, camera_add_overlay, set_layer, sleep, camera_remove_overlay. preserves. Qed.

Lemma remove_overlay_text h : preserves annotate_text (remove_overlay h).
Proof. unfold remove_overlay, camera_remove_overlay. preserves. Qed.

Lemma ensure_dir_text dirname : preserves annotate_text (ensure_dir dirname).
Proof. unfold ensure_dir, os_makedirs. preserves. Qed.

(** A capture iteration shows the countdown and clears it; when the
    directory step raises it has not shown anything yet. *)
Lemma taking_photo_text cfg photo_number filename_prefix :
  keeps_text (taking_photo cfg photo_number filename_prefix).
Proof.
  intros w Hw. rewrite taking_photo_eq. cbv zeta.
  pose proof (ensure_dir_text filename_prefix w) as He.
  destruct (res (ensure_dir filename_prefix w)); cbn [st].
  - cbn [annotate_text set_overlays]. now rewrite overlay_image_text.
  - now rewrite He.
Qed.

Lemma playback_loop_text cfg filename_prefix l : forall prev,
  preserves annotate_text (playback_loop cfg filename_prefix l prev).
Proof.
  induction l as [|k l IH]; intros prev; cbn [playback_loop]; unfold sleep.
  - apply preserves_ret.
  - preserves; first [apply overlay_image_text | apply remove_overlay_text | apply IH].
Qed.

Lemma session_text cfg s p : keeps_text (session cfg s p).
Proof.
  unfold session. cbv zeta.
  apply keeps_text_bind; [|intros _; apply keeps_text_bind; [|intros _]].
  - apply keeps_text_of_preserves.
    unfold begin_session, prep_for_photo_screen, print.
    preserves; first [apply overlay_image_text | apply remove_overlay_text].
  - unfold capture_photos. apply keeps_text_for_each. intros k. apply taking_photo_text.
  - apply keeps_text_of_preserves.
    unfold end_session, playback_screen, serial_receive, ser_reset_input_buffer, print.
    cbv zeta.
    preserves; first [apply overlay_image_text | apply remove_overlay_text
                     | apply playback_loop_text].
Qed.

Lemma cycle_text cfg s p : keeps_text (cycle cfg s p).
Proof.
  unfold cycle. apply keeps_text_bind.
  - apply keeps_text_of_preserves.
    unfold read_inputs, GPIO_wait_for_edge, serial_receive, ser_reset_input_buffer, print.
    preserves.
  - intros [[e|] [x|]].
    + apply keeps_text_of_preserves, preserves_ret.
    + apply keeps_text_of_preserves, preserves_ret.
    + apply session_text.
    + apply keeps_text_of_preserves. unfold blink, set_alpha. preserves.
Qed.

Lemma main_loop_text cfg polls : forall s, keeps_text (main_loop cfg polls s).
Proof.
  induction polls as [|p rest IH]; intros s; cbn [main_loop].
  - apply keeps_text_of_preserves, preserves_ret.
  - apply keeps_text_bind; [apply cycle_text|].
    intros [s'| |]; [apply IH | |]; apply keeps_text_of_preserves, preserves_ret.
Qed.

Lemma main_text cfg polls : keeps_text (main cfg polls).
Proof.
  unfold main, print.
  do 3 (apply keeps_text_bind; [apply keeps_text_of_preserves, preserves_emit | intros _]).
  apply keeps_text_bind; [apply keeps_text_of_preserves, overlay_image_text | intros o1].
  apply keeps_text_bind; [apply keeps_text_of_preserves, overlay_image_text | intros o2].
  apply main_loop_text.
Qed.

(** X13: the countdown does not stay on the preview.  If no text is
    annotated when the program starts, none is whenever the run is still
    polling or has returned from [main], although every capture iteration
    of the sessions on the way has shown 3, 2 and 1. *)
Theorem countdown_text_cleared (cfg : Config) (polls : list poll) (w : World)
    (status : main_status) :
  annotate_text w = "" ->
  res (main cfg polls w) = Ok status ->
  annotate_text (st (main cfg polls w)) = "" /\
  annotate_text (st (program cfg polls w)) = "".
Proof.
  intros Hw Hres. pose proof (main_text cfg polls w Hw) as Hm. split; [exact Hm|].
  unfold program. cbv zeta. rewrite Hres.
  destruct status; exact Hm.
Qed.

(** A session between two quiet turns; the loop is polling again. *)
Lemma countdown_text_cleared_witness :
  annotate_text (st (program (shipped "/b") [quiet_poll; press_poll; quiet_poll]
                       fresh_world)) = "".
Proof.
  refine (proj2 (countdown_text_cleared (shipped "/b") [quiet_poll; press_poll; quiet_poll]
                  fresh_world
                  (Polling {| i := 2; overlay_1 := Renderer 13; overlay_2 := Renderer 14 |})
                  eq_refl _)).
  vm_compute. reflexivity.
Defined.

(** The text is there while the countdown runs. *)
Example countdown_text_shown :
  annotate_text (st (for_each countdown (fun counter =>
                       print_overlay (pretty counter) 160 ;; sleep 1) fresh_world)) = "1".
Proof. vm_compute. reflexivity. Qed.

(** * Playback shows what was captured *)

Lemma images_added_app t1 t2 :
  images_added (t1 ++ t2) = images_added t1 ++ images_added t2.
Proof. apply omap_app. Qed.

Lemma images_added_slideshow cfg filename_prefix n : forall prev first,
  images_added (slideshow_steps cfg filename_prefix prev first n) =
  map (photo_path cfg filename_prefix) (seq first n).
Proof.
  induction n as [|n IH]; intros prev first; [reflexivity|].
  cbn [slideshow_steps seq map]. rewrite images_added_app, IH. reflexivity.
Qed.

(** X14: playback reads back exactly what the capture loop wrote: when the
    capture loop of a session has completed and the playback that follows
    it completes, the images the playback put on screen are the processing
    image, then the files the capture loop wrote, each once and in the
    order they were taken, then the all-done image. *)
Theorem playback_shows_captured (cfg : Config) (filename_prefix : string) (w : World) :
  res (capture_photos cfg filename_prefix w) = Ok tt ->
  res (playback_screen cfg filename_prefix (st (capture_photos cfg filename_prefix w))) =
    Ok tt ->
  images_added
    (out (playback_screen cfg filename_prefix (st (capture_photos cfg filename_prefix w)))) =
    (REAL_PATH cfg +:+ "/assets/processing.png") ::
    files_written (out (capture_photos cfg filename_prefix w)) ++
    [REAL_PATH cfg +:+ "/assets/all_done.png"].
Proof.
  intros H _.
  destruct (capture_iterations_order_aux cfg filename_prefix w H) as [-> _].
  destruct (playback_screen_steps cfg filename_prefix
              (st (capture_photos cfg filename_prefix w))) as [_ ->].
  rewrite !images_added_app, images_added_slideshow, files_written_capture_steps.
  reflexivity.
Qed.

(** Four photos taken on a fresh world, then played back. *)
Lemma playback_shows_captured_witness :
  images_added
    (out (playback_screen (shipped "/b") "/b/photos/s"
            (st (capture_photos (shipped "/b") "/b/photos/s" fresh_world)))) =
  (REAL_PATH (shipped "/b") +:+ "/assets/processing.png") ::
  files_written (out (capture_photos (shipped "/b") "/b/photos/s" fresh_world)) ++
  [REAL_PATH (shipped "/b") +:+ "/assets/all_done.png"].
Proof.
  apply (playback_shows_captured (shipped "/b") "/b/photos/s" fresh_world).
  - vm_compute. reflexivity.
  - vm_compute. reflexivity.
Defined.
